(** * pylasergrbl: G-code program model and GRBL streaming controller

    A shallow embedding of [core/gcode_parser.py] and
    [core/grbl_controller.py], and the properties of the program that
    the specification states about them.

    Text is ASCII, held as [list ascii]; [encodable] tells when the
    encoding of a command as ASCII goes through.  A number that the
    Python code reads with [float(...)] from a decimal literal is the
    rational that the literal denotes ([py_float]), rounded to the
    nearest double ([to_double]) where the program computes with it, in
    [get_bounds] and [get_toolpath].  The fields of a status report are
    kept as the literals read, and the statements about their values are
    on literals that are doubles.

    The threads are interleaved at the grain of the statements of
    [_tx_loop], for any number of TX workers ([Pool]); a line processed
    by the RX worker and a call of a public method are one step each. *)

From Stdlib Require Import Ascii String Bool Arith ZArith QArith Qround Lia List.
Import ListNotations.


Local Open Scope nat_scope.
Local Open Scope list_scope.

(* ================================================================== *)
(** ** Python string operations *)
(* ================================================================== *)

Module PyStr.

Definition str := list ascii.

(** A literal. *)
Definition text (s : string) : str := list_ascii_of_string s.

Definition code (c : ascii) : nat := nat_of_ascii c.

Definition ch_lparen : ascii := "("%char.
Definition ch_rparen : ascii := ")"%char.
Definition ch_semi : ascii := ";"%char.
Definition ch_newline : ascii := ascii_of_nat 10.

(** [str.isspace] on one ASCII character: TAB, LF, VT, FF, CR, the four
    separators FS, GS, RS, US, and the blank. *)
Definition isspace (c : ascii) : bool :=
  let n := code c in
  ((9 <=? n) && (n <=? 13)) || ((28 <=? n) && (n <=? 32)).

(** [\d] on one ASCII character. *)
Definition isdigit (c : ascii) : bool :=
  let n := code c in (48 <=? n) && (n <=? 57).


(** [str.upper] on one ASCII character. *)
Definition upper_char (c : ascii) : ascii :=
  let n := code c in
  if (97 <=? n) && (n <=? 122) then ascii_of_nat (n - 32) else c.

Definition upper (s : str) : str := map upper_char s.

(** Longest prefix whose characters satisfy [p]. *)
Fixpoint take_while (p : ascii -> bool) (s : str) : str :=
  match s with
  | [] => []
  | c :: r => if p c then c :: take_while p r else []
  end.

Fixpoint drop_while (p : ascii -> bool) (s : str) : str :=
  match s with
  | [] => []
  | c :: r => if p c then drop_while p r else s
  end.

Definition lstrip (s : str) : str := drop_while isspace s.
Definition rstrip (s : str) : str := rev (drop_while isspace (rev s)).

(** [s.strip()] *)
Definition strip (s : str) : str := rstrip (lstrip s).

(** [s.split(sep)[0]]: the text before the first [sep]. *)
Definition split_head (sep : ascii) (s : str) : str :=
  take_while (fun c => negb (Ascii.eqb c sep)) s.

(** [s.split(sep)] for a one-character separator. *)
Fixpoint split (sep : ascii) (s : str) : list str :=
  match s with
  | [] => [[]]
  | c :: r =>
      if Ascii.eqb c sep then [] :: split sep r
      else match split sep r with
           | [] => [[c]]
           | w :: ws => (c :: w) :: ws
           end
  end.

(** [s.startswith(p)] *)
Fixpoint startswith (p s : str) : bool :=
  match p, s with
  | [], _ => true
  | _ :: _, [] => false
  | a :: p', b :: s' => Ascii.eqb a b && startswith p' s'
  end.

(** [p in s] *)
Fixpoint contains (p s : str) : bool :=
  startswith p s ||
  match s with
  | [] => false
  | _ :: r => contains p r
  end.

(** Offset of the [")"] that closes a comment opened just before [s]:
    the first [")"] of [s] that no newline precedes ([.] of the regular
    expression does not match a newline). *)
Fixpoint close_idx (s : str) : option nat :=
  match s with
  | [] => None
  | c :: r =>
      if Ascii.eqb c ch_rparen then Some 0
      else if Ascii.eqb c ch_newline then None
      else option_map S (close_idx r)
  end.

(** [re.sub(r"\(.*?\)", "", s)], scanning left to right.  [skip] counts
    the characters of the match in progress that remain to be dropped. *)
Fixpoint sub_parens_from (skip : nat) (s : str) : str :=
  match s with
  | [] => []
  | c :: r =>
      match skip with
      | S k => sub_parens_from k r
      | O =>
          if Ascii.eqb c ch_lparen then
            match close_idx r with
            | Some n => sub_parens_from (S n) r
            | None => c :: sub_parens_from 0 r
            end
          else c :: sub_parens_from 0 r
      end
  end.

Definition sub_parens (s : str) : str := sub_parens_from 0 s.

Definition is_some {A} (o : option A) : bool :=
  match o with Some _ => true | None => false end.

(** Whether the expression "\(.*?\)" matches somewhere in [s]. *)
Fixpoint has_comment (s : str) : bool :=
  match s with
  | [] => false
  | c :: r => (Ascii.eqb c ch_lparen && is_some (close_idx r)) || has_comment r
  end.

Definition no_semi (s : str) : bool :=
  forallb (fun c => negb (Ascii.eqb c ch_semi)) s.

End PyStr.

(* ================================================================== *)
(** ** Numbers *)
(* ================================================================== *)

Module Num.
Import PyStr.

(** Rationals are kept in lowest terms, so that equal numbers are equal
    terms. *)
Definition qsub (a b : Q) : Q := Qred (a - b).
Definition qneg (a : Q) : Q := Qred (- a).
Definition qlt (a b : Q) : bool := negb (Qle_bool b a).
Definition qzero : Q := 0%Q.

Definition digit_val (c : ascii) : Z := Z.of_nat (code c - 48).

Definition digits_val (s : str) : Z :=
  fold_left (fun acc c => (10 * acc + digit_val c)%Z) s 0%Z.

Definition decimal (ip fp : str) : Q :=
  Qred (Qmake (digits_val (ip ++ fp)) (Z.to_pos (10 ^ Z.of_nat (length fp)))).

(** An unsigned literal: digits, or digits with a point (digits on at
    least one side of it). *)
Definition parse_unsigned (s : str) : option Q :=
  let ip := take_while isdigit s in
  match drop_while isdigit s with
  | [] => match ip with [] => None | _ => Some (decimal ip []) end
  | c :: r =>
      if Ascii.eqb c "."%char then
        let fp := take_while isdigit r in
        match drop_while isdigit r, ip ++ fp with
        | [], _ :: _ => Some (decimal ip fp)
        | _, _ => None
        end
      else None
  end.

(** The blanks that [float] skips at both ends of an ASCII text: TAB,
    LF, VT, FF, CR and the blank.  The separators FS, GS, RS and US,
    which [str.strip] removes, make [float] raise. *)
Definition is_cspace (c : ascii) : bool :=
  let n := code c in ((9 <=? n) && (n <=? 13)) || (n =? 32).

Definition float_strip (s : str) : str :=
  rev (drop_while is_cspace (rev (drop_while is_cspace s))).

(** The number that [float(s)] reads, before it is rounded to a double,
    on plain decimal literals: surrounding blanks, an optional sign,
    digits and an optional point.  On any other text the result is
    [None], which stands for [ValueError]; that is what [float] does
    but for the exponents, [inf], [nan] and the underscores between
    digits, which it reads and this function does not.  The expression
    of [get_param] matches none of these, and the statements about the
    numbers of a status report are on texts for which [py_float] has a
    value. *)
Definition py_float (s : str) : option Q :=
  match float_strip s with
  | c :: r =>
      if Ascii.eqb c "-"%char then option_map qneg (parse_unsigned r)
      else if Ascii.eqb c "+"%char then parse_unsigned r
      else parse_unsigned (c :: r)
  | [] => None
  end.

(** *** Doubles

    A Python float is a binary64 number: one of the two infinities or a
    finite value, held as the rational it is; the two zeros are one
    value, as they are for [==] and [<]. *)
Inductive xfloat : Type :=
| NegInf
| Fin (q : Q)
| PosInf.

(** [2 ^ k] *)
Definition pow2 (k : Z) : Q :=
  if (0 <=? k)%Z then inject_Z (2 ^ k) else (/ inject_Z (2 ^ (- k)))%Q.

(** The integer [e] with [2 ^ e <= q < 2 ^ (e + 1)], for [q > 0]. *)
Definition ilog2 (q : Q) : Z :=
  let e := (Z.log2 (Qnum q) - Z.log2 (Zpos (Qden q)))%Z in
  if Qle_bool (pow2 e) q then e else (e - 1)%Z.

(** The integer nearest to [r], the even one of the two when [r] is
    half way. *)
Definition round_half_even (r : Q) : Z :=
  let f := Qfloor r in
  match Qcompare (r - inject_Z f) (1 # 2) with
  | Lt => f
  | Gt => (f + 1)%Z
  | Eq => if Z.even f then f else (f + 1)%Z
  end.

(** The double nearest to [q > 0]: 53 bits of precision, the least
    exponent of a normal number is -1022 (below it the spacing stays
    [2 ^ -1074]), and a result of [2 ^ 1024] or more is [inf]. *)
Definition round_pos (q : Q) : xfloat :=
  let e := ilog2 q in
  let u := (Z.max e (-1022) - 52)%Z in
  let m := round_half_even (q / pow2 u) in
  let v := (inject_Z m * pow2 u)%Q in
  if Qle_bool (pow2 1024) v then PosInf else Fin (Qred v).

(** The float that [float] returns for a literal that denotes [q]:
    CPython rounds correctly, to the nearest double, ties to even. *)
Definition to_double (q : Q) : xfloat :=
  match Qcompare q 0 with
  | Eq => Fin qzero
  | Gt => round_pos q
  | Lt => match round_pos (- q) with
          | Fin v => Fin (Qred (- v))
          | _ => NegInf
          end
  end.

(** [float] returns [q] itself: [q] is a double. *)
Definition is_double (q : Q) : bool :=
  match to_double q with
  | Fin r => Qeq_bool r q
  | _ => false
  end.

(** [a < b] on floats. *)
Definition xlt (a b : xfloat) : bool :=
  match a, b with
  | NegInf, NegInf => false
  | NegInf, _ => true
  | Fin _, NegInf => false
  | Fin p, Fin q => qlt p q
  | Fin _, PosInf => true
  | PosInf, _ => false
  end.

(** [min(a, b)] and [max(a, b)] of Python: [b] when it is strictly
    smaller (larger), [a] otherwise. *)
Definition py_min (a b : xfloat) : xfloat := if xlt b a then b else a.
Definition py_max (a b : xfloat) : xfloat := if xlt a b then b else a.

(** [a == float("inf")] *)
Definition is_pos_inf (a : xfloat) : bool :=
  match a with PosInf => true | _ => false end.

End Num.

(* ================================================================== *)
(** ** core/gcode_parser.py *)
(* ================================================================== *)

Module GCode.
Import PyStr Num.

Inductive CommandStatus : Type := QUEUED | SENT | OK | ERROR.

Definition status_eqb (a b : CommandStatus) : bool :=
  match a, b with
  | QUEUED, QUEUED | SENT, SENT | OK, OK | ERROR, ERROR => true
  | _, _ => false
  end.

Record GCodeCommand : Type := mkCommand {
  raw : str;
  status : CommandStatus;
  error_code : option Z
}.

(** [GCodeCommand(raw=line)] *)
Definition new_command (line : str) : GCodeCommand :=
  mkCommand line QUEUED None.

Definition set_status (st : CommandStatus) (c : GCodeCommand) : GCodeCommand :=
  mkCommand (raw c) st (error_code c).

Definition set_error_code (e : option Z) (c : GCodeCommand) : GCodeCommand :=
  mkCommand (raw c) (status c) e.

(** The normalization of a raw line. *)
Definition normalize (line : str) : str :=
  upper (strip (split_head ch_semi (sub_parens line))).

Definition stripped (c : GCodeCommand) : str := normalize (raw c).

Definition is_empty (c : GCodeCommand) : bool :=
  Nat.eqb (length (stripped c)) 0.

(** [re.match(r"^G[0-3]", s)] *)
Definition is_movement (c : GCodeCommand) : bool :=
  match stripped c with
  | g :: d :: _ =>
      Ascii.eqb g "G"%char && ((48 <=? code d) && (code d <=? 51))
  | _ => false
  end.

Definition is_laser_on (c : GCodeCommand) : bool :=
  contains (text "M3") (stripped c) || contains (text "M4") (stripped c).

Definition is_laser_off (c : GCodeCommand) : bool :=
  contains (text "M5") (stripped c).

(** The group of the pattern "-?\d+\.?\d*" matched at the head of [s]. *)
Definition match_number (s : str) : option str :=
  let sign := match s with
              | c :: _ => if Ascii.eqb c "-"%char then [c] else []
              | [] => []
              end in
  let r0 := skipn (length sign) s in
  let d1 := take_while isdigit r0 in
  let r1 := drop_while isdigit r0 in
  match d1 with
  | [] => None
  | _ :: _ =>
      let dot := match r1 with
                 | c :: _ => if Ascii.eqb c "."%char then [c] else []
                 | [] => []
                 end in
      let d2 := take_while isdigit (skipn (length dot) r1) in
      Some (sign ++ d1 ++ dot ++ d2)
  end.


(** [re.search] of the letter followed by that group: the group of the
    leftmost match.  [letter] is one character that stands for itself
    in a regular expression, as a letter does. *)
Fixpoint search_param (letter : ascii) (s : str) : option str :=
  match s with
  | [] => None
  | c :: r =>
      if Ascii.eqb c letter then
        match match_number r with
        | Some g => Some g
        | None => search_param letter r
        end
      else search_param letter r
  end.

(** [get_param] on the normalized text [s]. *)
Definition lookup (letter : ascii) (s : str) : option Q :=
  match search_param letter s with
  | Some g => py_float g
  | None => None
  end.

Definition get_param (letter : ascii) (c : GCodeCommand) : option Q :=
  lookup letter (stripped c).

(** [(self.stripped + "\n").encode("ascii")] returns the characters as
    bytes when all of them are below 128 and raises UnicodeEncodeError
    otherwise.  [encodable] tells the two cases apart; [serial_bytes] and
    [byte_count] are what the properties return in the first case, and
    stand for no value of the source in the second. *)
Definition is_ascii (c : ascii) : bool := code c <? 128.

Definition encodable (c : GCodeCommand) : bool :=
  forallb is_ascii (stripped c).

Definition serial_bytes (c : GCodeCommand) : str :=
  stripped c ++ [ch_newline].

Definition byte_count (c : GCodeCommand) : nat := length (serial_bytes c).

Record GCodeFile : Type := mkFile {
  commands : list GCodeCommand;
  filename : str
}.

Definition keep_line (line : str) : option GCodeCommand :=
  let line := strip line in
  match line with
  | [] => None
  | _ :: _ =>
      let cmd := new_command line in
      if is_empty cmd then None else Some cmd
  end.

Fixpoint build (lines : list str) : list GCodeCommand :=
  match lines with
  | [] => []
  | l :: ls =>
      match keep_line l with
      | Some c => c :: build ls
      | None => build ls
      end
  end.

Definition from_lines (lines : list str) (name : str) : GCodeFile :=
  mkFile (build lines) name.

Definition total (f : GCodeFile) : nat := length (commands f).

Definition count (p : GCodeCommand -> bool) (f : GCodeFile) : nat :=
  length (filter p (commands f)).

Definition sent_count : GCodeFile -> nat :=
  count (fun c => negb (status_eqb (status c) QUEUED)).
Definition ok_count : GCodeFile -> nat :=
  count (fun c => status_eqb (status c) OK).
Definition error_count : GCodeFile -> nat :=
  count (fun c => status_eqb (status c) ERROR).

Definition reset_status (f : GCodeFile) : GCodeFile :=
  mkFile (map (fun c => mkCommand (raw c) QUEUED None) (commands f))
         (filename f).

(** The float that [get_param] hands to its caller: [float(m.group(1))]
    is the double nearest to the number that the text denotes, which
    [get_param] holds here. *)
Definition param (letter : ascii) (c : GCodeCommand) : option xfloat :=
  option_map to_double (get_param letter c).

(** The modal update of one axis: [if n is not None: x = n]. *)
Definition modal (v : xfloat) (n : option xfloat) : xfloat :=
  match n with Some w => w | None => v end.

Record BoundsAcc : Type := mkAcc {
  acc_x : xfloat; acc_y : xfloat;
  min_x : xfloat; min_y : xfloat; max_x : xfloat; max_y : xfloat
}.

(** One iteration of the loop of [get_bounds]. *)
Definition bounds_step (a : BoundsAcc) (cmd : GCodeCommand) : BoundsAcc :=
  let x := modal (acc_x a) (param "X"%char cmd) in
  let y := modal (acc_y a) (param "Y"%char cmd) in
  if is_movement cmd then
    mkAcc x y (py_min (min_x a) x) (py_min (min_y a) y)
              (py_max (max_x a) x) (py_max (max_y a) y)
  else mkAcc x y (min_x a) (min_y a) (max_x a) (max_y a).

Definition bounds_init : BoundsAcc :=
  mkAcc (Fin qzero) (Fin qzero) PosInf PosInf NegInf NegInf.

Definition get_bounds (f : GCodeFile) : xfloat * xfloat * xfloat * xfloat :=
  let a := fold_left bounds_step (commands f) bounds_init in
  if is_pos_inf (min_x a) then (Fin qzero, Fin qzero, Fin qzero, Fin qzero)
  else (min_x a, min_y a, max_x a, max_y a).

Record PathAcc : Type := mkPath {
  points : list (xfloat * xfloat * bool);
  path_x : xfloat; path_y : xfloat;
  laser_on : bool
}.

(** One iteration of the loop of [get_toolpath]. *)
Definition toolpath_step (a : PathAcc) (cmd : GCodeCommand) : PathAcc :=
  let laser := if is_laser_on cmd then true
               else if is_laser_off cmd then false
               else laser_on a in
  let x := modal (path_x a) (param "X"%char cmd) in
  let y := modal (path_y a) (param "Y"%char cmd) in
  if is_movement cmd then
    let power := param "S"%char cmd in
    let is_cutting :=
      laser || match power with Some p => xlt (Fin qzero) p | None => false end in
    mkPath (points a ++ [(x, y, is_cutting)]) x y laser
  else mkPath (points a) x y laser.

Definition toolpath_init : PathAcc :=
  mkPath [] (Fin qzero) (Fin qzero) false.

Definition get_toolpath (f : GCodeFile) : list (xfloat * xfloat * bool) :=
  points (fold_left toolpath_step (commands f) toolpath_init).

End GCode.

(* ================================================================== *)
(** ** core/grbl_controller.py: state *)
(* ================================================================== *)

Module Grbl.
Import PyStr Num GCode.

Inductive MachineStatus : Type :=
| DISCONNECTED | CONNECTING | IDLE | RUN | JOG | HOLD | DOOR | HOME
| ALARM | CHECK | UNKNOWN.

Definition machine_status_eqb (a b : MachineStatus) : bool :=
  match a, b with
  | DISCONNECTED, DISCONNECTED | CONNECTING, CONNECTING | IDLE, IDLE
  | RUN, RUN | JOG, JOG | HOLD, HOLD | DOOR, DOOR | HOME, HOME
  | ALARM, ALARM | CHECK, CHECK | UNKNOWN, UNKNOWN => true
  | _, _ => false
  end.

Record ThreadingMode : Type := mkMode {
  status_query_ms : nat;
  tx_long_ms : nat;
  tx_short_ms : nat;
  rx_long_ms : nat;
  rx_short_ms : nat;
  name : string
}.

Definition mode_Slow := mkMode 2000 15 4 2 1 "Slow".
Definition mode_Quiet := mkMode 1000 10 2 1 1 "Quiet".
Definition mode_Fast := mkMode 500 5 1 1 0 "Fast".
Definition mode_UltraFast := mkMode 250 1 0 1 0 "UltraFast".

(** [THREADING_MODES.get(mode_name)] *)
Definition THREADING_MODES (mode_name : string) : option ThreadingMode :=
  if String.eqb mode_name "Slow" then Some mode_Slow
  else if String.eqb mode_name "Quiet" then Some mode_Quiet
  else if String.eqb mode_name "Fast" then Some mode_Fast
  else if String.eqb mode_name "UltraFast" then Some mode_UltraFast
  else None.

Definition RX_BUFFER_SIZE : nat := 128.

Definition GRBL_ERRORS (code : Z) : option string :=
  match code with
  | 1 => Some "Expected command letter" | 2 => Some "Bad number format"
  | 3 => Some "Invalid $ statement" | 4 => Some "Negative value"
  | 5 => Some "Homing not enabled" | 6 => Some "Step pulse too short"
  | 7 => Some "EEPROM read fail" | 8 => Some "Not idle"
  | 9 => Some "G-code lock" | 10 => Some "Soft limit"
  | 11 => Some "Overflow" | 12 => Some "Max step rate exceeded"
  | 13 => Some "Check door" | 14 => Some "Line length exceeded"
  | 15 => Some "Travel exceeded" | 16 => Some "Invalid jog command"
  | 17 => Some "Laser mode requires PWM" | 20 => Some "Unsupported command"
  | 21 => Some "Modal group violation" | 22 => Some "Undefined feed rate"
  | 23 => Some "Invalid G-code ID" | 24 => Some "Value word conflict"
  | 25 => Some "Self-referencing arc" | 26 => Some "No arc axis words"
  | 27 => Some "Unused value words"
  | _ => None
  end%Z%string.

Definition error_text (code : Z) : string :=
  match GRBL_ERRORS code with Some d => d | None => "Unknown error" end.

(** The serial port as the controller sees it.  A write to a port that
    is closed or not [healthy] raises [SerialException]. *)
Record Port : Type := mkPort {
  is_open : bool;
  healthy : bool
}.

(** What the controller does to the world, in the order it does it. *)
Inductive Event : Type :=
| EvWrite (data : str)                    (* [self._port.write(data)] *)
| EvSleep (ms : nat)                      (* [time.sleep] *)
| EvStartTx                               (* the TX thread is started *)
| EvStatusChange (st : MachineStatus)     (* [on_status_change] *)
| EvPositionUpdate                        (* [on_position_update] *)
| EvProgress (done all : nat)             (* [on_progress_update] *)
| EvLineReceived (line : str)             (* [on_line_received] *)
| EvError (alarm : bool) (code : Z)       (* [on_error] *)
| EvJobFinished                           (* [on_job_finished] *)
| EvDisconnected.                         (* [on_disconnected] *)

Record Controller : Type := mkController {
  _port : option Port;
  _status : MachineStatus;
  _threading_mode : ThreadingMode;
  machine_x : Q; machine_y : Q; machine_z : Q;
  work_x : Q; work_y : Q; work_z : Q;
  grbl_version : str;
  feed_rate : Q;
  spindle_speed : Q;
  _file : option GCodeFile;
  _streaming : bool;
  _paused : bool;
  _abort_flag : bool;
  _cmd_index : nat;
  _buffer_fill : list nat;
  _alive : bool;
  _rx_event : bool;
  trace : list Event
}.

(** [GrblController()] *)
Definition init : Controller :=
  mkController None DISCONNECTED mode_Fast
               qzero qzero qzero qzero qzero qzero
               [] qzero qzero
               None false false false 0 [] false false [].

Definition with_port p (g : Controller) :=
  mkController p (_status g) (_threading_mode g) (machine_x g) (machine_y g)
    (machine_z g) (work_x g) (work_y g) (work_z g) (grbl_version g)
    (feed_rate g) (spindle_speed g) (_file g) (_streaming g) (_paused g)
    (_abort_flag g) (_cmd_index g) (_buffer_fill g) (_alive g) (_rx_event g)
    (trace g).
Definition with_status v (g : Controller) :=
  mkController (_port g) v (_threading_mode g) (machine_x g) (machine_y g)
    (machine_z g) (work_x g) (work_y g) (work_z g) (grbl_version g)
    (feed_rate g) (spindle_speed g) (_file g) (_streaming g) (_paused g)
    (_abort_flag g) (_cmd_index g) (_buffer_fill g) (_alive g) (_rx_event g)
    (trace g).
Definition with_machine_x v (g : Controller) :=
  mkController (_port g) (_status g) (_threading_mode g) v (machine_y g)
    (machine_z g) (work_x g) (work_y g) (work_z g) (grbl_version g)
    (feed_rate g) (spindle_speed g) (_file g) (_streaming g) (_paused g)
    (_abort_flag g) (_cmd_index g) (_buffer_fill g) (_alive g) (_rx_event g)
    (trace g).
Definition with_machine_y v (g : Controller) :=
  mkController (_port g) (_status g) (_threading_mode g) (machine_x g) v
    (machine_z g) (work_x g) (work_y g) (work_z g) (grbl_version g)
    (feed_rate g) (spindle_speed g) (_file g) (_streaming g) (_paused g)
    (_abort_flag g) (_cmd_index g) (_buffer_fill g) (_alive g) (_rx_event g)
    (trace g).
Definition with_machine_z v (g : Controller) :=
  mkController (_port g) (_status g) (_threading_mode g) (machine_x g)
    (machine_y g) v (work_x g) (work_y g) (work_z g) (grbl_version g)
    (feed_rate g) (spindle_speed g) (_file g) (_streaming g) (_paused g)
    (_abort_flag g) (_cmd_index g) (_buffer_fill g) (_alive g) (_rx_event g)
    (trace g).
Definition with_work_x v (g : Controller) :=
  mkController (_port g) (_status g) (_threading_mode g) (machine_x g)
    (machine_y g) (machine_z g) v (work_y g) (work_z g) (grbl_version g)
    (feed_rate g) (spindle_speed g) (_file g) (_streaming g) (_paused g)
    (_abort_flag g) (_cmd_index g) (_buffer_fill g) (_alive g) (_rx_event g)
    (trace g).
Definition with_work_y v (g : Controller) :=
  mkController (_port g) (_status g) (_threading_mode g) (machine_x g)
    (machine_y g) (machine_z g) (work_x g) v (work_z g) (grbl_version g)
    (feed_rate g) (spindle_speed g) (_file g) (_streaming g) (_paused g)
    (_abort_flag g) (_cmd_index g) (_buffer_fill g) (_alive g) (_rx_event g)
    (trace g).
Definition with_work_z v (g : Controller) :=
  mkController (_port g) (_status g) (_threading_mode g) (machine_x g)
    (machine_y g) (machine_z g) (work_x g) (work_y g) v (grbl_version g)
    (feed_rate g) (spindle_speed g) (_file g) (_streaming g) (_paused g)
    (_abort_flag g) (_cmd_index g) (_buffer_fill g) (_alive g) (_rx_event g)
    (trace g).
Definition with_version v (g : Controller) :=
  mkController (_port g) (_status g) (_threading_mode g) (machine_x g)
    (machine_y g) (machine_z g) (work_x g) (work_y g) (work_z g) v
    (feed_rate g) (spindle_speed g) (_file g) (_streaming g) (_paused g)
    (_abort_flag g) (_cmd_index g) (_buffer_fill g) (_alive g) (_rx_event g)
    (trace g).
Definition with_feed_rate v (g : Controller) :=
  mkController (_port g) (_status g) (_threading_mode g) (machine_x g)
    (machine_y g) (machine_z g) (work_x g) (work_y g) (work_z g)
    (grbl_version g) v (spindle_speed g) (_file g) (_streaming g) (_paused g)
    (_abort_flag g) (_cmd_index g) (_buffer_fill g) (_alive g) (_rx_event g)
    (trace g).
Definition with_spindle_speed v (g : Controller) :=
  mkController (_port g) (_status g) (_threading_mode g) (machine_x g)
    (machine_y g) (machine_z g) (work_x g) (work_y g) (work_z g)
    (grbl_version g) (feed_rate g) v (_file g) (_streaming g) (_paused g)
    (_abort_flag g) (_cmd_index g) (_buffer_fill g) (_alive g) (_rx_event g)
    (trace g).
Definition with_file v (g : Controller) :=
  mkController (_port g) (_status g) (_threading_mode g) (machine_x g)
    (machine_y g) (machine_z g) (work_x g) (work_y g) (work_z g)
    (grbl_version g) (feed_rate g) (spindle_speed g) v (_streaming g)
    (_paused g) (_abort_flag g) (_cmd_index g) (_buffer_fill g) (_alive g)
    (_rx_event g) (trace g).
Definition with_streaming v (g : Controller) :=
  mkController (_port g) (_status g) (_threading_mode g) (machine_x g)
    (machine_y g) (machine_z g) (work_x g) (work_y g) (work_z g)
    (grbl_version g) (feed_rate g) (spindle_speed g) (_file g) v
    (_paused g) (_abort_flag g) (_cmd_index g) (_buffer_fill g) (_alive g)
    (_rx_event g) (trace g).
Definition with_threading_mode v (g : Controller) :=
  mkController (_port g) (_status g) v (machine_x g)
    (machine_y g) (machine_z g) (work_x g) (work_y g) (work_z g)
    (grbl_version g) (feed_rate g) (spindle_speed g) (_file g) (_streaming g)
    (_paused g) (_abort_flag g) (_cmd_index g) (_buffer_fill g) (_alive g)
    (_rx_event g) (trace g).
Definition with_paused v (g : Controller) :=
  mkController (_port g) (_status g) (_threading_mode g) (machine_x g)
    (machine_y g) (machine_z g) (work_x g) (work_y g) (work_z g)
    (grbl_version g) (feed_rate g) (spindle_speed g) (_file g) (_streaming g)
    v (_abort_flag g) (_cmd_index g) (_buffer_fill g) (_alive g)
    (_rx_event g) (trace g).
Definition with_abort_flag v (g : Controller) :=
  mkController (_port g) (_status g) (_threading_mode g) (machine_x g)
    (machine_y g) (machine_z g) (work_x g) (work_y g) (work_z g)
    (grbl_version g) (feed_rate g) (spindle_speed g) (_file g) (_streaming g)
    (_paused g) v (_cmd_index g) (_buffer_fill g) (_alive g)
    (_rx_event g) (trace g).
Definition with_cmd_index v (g : Controller) :=
  mkController (_port g) (_status g) (_threading_mode g) (machine_x g)
    (machine_y g) (machine_z g) (work_x g) (work_y g) (work_z g)
    (grbl_version g) (feed_rate g) (spindle_speed g) (_file g) (_streaming g)
    (_paused g) (_abort_flag g) v (_buffer_fill g) (_alive g)
    (_rx_event g) (trace g).
Definition with_buffer_fill v (g : Controller) :=
  mkController (_port g) (_status g) (_threading_mode g) (machine_x g)
    (machine_y g) (machine_z g) (work_x g) (work_y g) (work_z g)
    (grbl_version g) (feed_rate g) (spindle_speed g) (_file g) (_streaming g)
    (_paused g) (_abort_flag g) (_cmd_index g) v (_alive g)
    (_rx_event g) (trace g).
Definition with_alive v (g : Controller) :=
  mkController (_port g) (_status g) (_threading_mode g) (machine_x g)
    (machine_y g) (machine_z g) (work_x g) (work_y g) (work_z g)
    (grbl_version g) (feed_rate g) (spindle_speed g) (_file g) (_streaming g)
    (_paused g) (_abort_flag g) (_cmd_index g) (_buffer_fill g) v
    (_rx_event g) (trace g).
Definition with_rx_event v (g : Controller) :=
  mkController (_port g) (_status g) (_threading_mode g) (machine_x g)
    (machine_y g) (machine_z g) (work_x g) (work_y g) (work_z g)
    (grbl_version g) (feed_rate g) (spindle_speed g) (_file g) (_streaming g)
    (_paused g) (_abort_flag g) (_cmd_index g) (_buffer_fill g) (_alive g)
    v (trace g).
Definition with_trace v (g : Controller) :=
  mkController (_port g) (_status g) (_threading_mode g) (machine_x g)
    (machine_y g) (machine_z g) (work_x g) (work_y g) (work_z g)
    (grbl_version g) (feed_rate g) (spindle_speed g) (_file g) (_streaming g)
    (_paused g) (_abort_flag g) (_cmd_index g) (_buffer_fill g) (_alive g)
    (_rx_event g) v.

Definition emit (e : Event) (g : Controller) : Controller :=
  with_trace (trace g ++ [e]) g.

(** *** Exceptions

    A method either returns or raises; in both cases the assignments it
    made so far stay. *)

Inductive exn : Type := SerialException | ValueError | AttributeError.

Inductive outcome (A : Type) : Type :=
| Return (a : A)
| Raise (e : exn).
Arguments Return {A} a.
Arguments Raise {A} e.

Definition M (A : Type) : Type := Controller -> outcome A * Controller.

Definition ret {A} (a : A) : M A := fun g => (Return a, g).
Definition raise {A} (e : exn) : M A := fun g => (Raise e, g).
Definition bind {A B} (m : M A) (k : A -> M B) : M B :=
  fun g => match m g with
           | (Return a, g') => k a g'
           | (Raise e, g') => (Raise e, g')
           end.
Definition modify (f : Controller -> Controller) : M unit :=
  fun g => (Return tt, f g).
Definition read {A} (f : Controller -> A) : M A :=
  fun g => (Return (f g), g).
(** [try: m except e: pass] *)
Definition swallow (e : exn) (m : M unit) : M unit :=
  fun g => match m g with
           | (Raise e', g') =>
               match e, e' with
               | SerialException, SerialException
               | ValueError, ValueError
               | AttributeError, AttributeError => (Return tt, g')
               | _, _ => (Raise e', g')
               end
           | r => r
           end.

Declare Scope grbl_scope.
Delimit Scope grbl_scope with grbl.
Notation "x <- m ;; k" := (bind m (fun x => k))
  (at level 61, m at next level, right associativity) : grbl_scope.
Notation "m ;; k" := (bind m (fun _ => k))
  (at level 61, right associativity) : grbl_scope.
Local Open Scope grbl_scope.

Definition when (b : bool) (m : M unit) : M unit :=
  if b then m else ret tt.

(** The state a method leaves, whether it returned or raised. *)
Definition exec {A} (m : M A) (g : Controller) : Controller := snd (m g).

(** Whatever state [m] starts in, the state it leaves is related to it
    by [R]. *)
Definition respects (R : Controller -> Controller -> Prop) {A} (m : M A) : Prop :=
  forall g, R g (snd (m g)).

(** [self.status = value] *)
Definition set_status_prop (value : MachineStatus) : M unit :=
  st <- read _status ;;
  when (negb (machine_status_eqb st value))
       (modify (with_status value) ;; modify (emit (EvStatusChange value))).

Definition is_connected (g : Controller) : bool :=
  match _port g with
  | Some p => is_open p
  | None => false
  end.

Definition is_streaming (g : Controller) : bool :=
  _streaming g && negb (_paused g).

Definition is_idle (g : Controller) : bool :=
  is_connected g &&
  (machine_status_eqb (_status g) IDLE || machine_status_eqb (_status g) ALARM).

(** [self._port.write(data)] *)
Definition port_write (data : str) : M unit :=
  p <- read _port ;;
  match p with
  | Some p => if is_open p && healthy p then modify (emit (EvWrite data))
              else raise SerialException
  | None => raise AttributeError
  end.

Definition sleep (ms : nat) : M unit := modify (emit (EvSleep ms)).

(* ------------------------------------------------------------------ *)
(** *** Acknowledgments *)

(** [if self._buffer_fill: self._buffer_fill.pop(0)] *)
Definition pop0 (l : list nat) : list nat :=
  match l with
  | [] => []
  | _ :: r => r
  end.

(** The loop [for cmd in commands: if cmd.status == SENT: ...; break]. *)
Fixpoint mark_oldest_sent (f : GCodeCommand -> GCodeCommand)
         (cmds : list GCodeCommand) : list GCodeCommand :=
  match cmds with
  | [] => []
  | c :: r =>
      if status_eqb (status c) SENT then f c :: r
      else c :: mark_oldest_sent f r
  end.

Definition update_commands (h : list GCodeCommand -> list GCodeCommand)
           (g : Controller) : Controller :=
  match _file g with
  | Some f => with_file (Some (mkFile (h (commands f)) (filename f))) g
  | None => g
  end.

(** The arguments of [on_progress_update(self.progress)]. *)
Definition progress_event (g : Controller) : Event :=
  match _file g with
  | Some f => EvProgress (ok_count f) (total f)
  | None => EvProgress 0 0
  end.

Definition has_file (g : Controller) : bool :=
  match _file g with Some _ => true | None => false end.

Definition _handle_ok : M unit :=
  modify (fun g => with_buffer_fill (pop0 (_buffer_fill g)) g) ;;
  f <- read has_file ;;
  st <- read _streaming ;;
  when (f && st)
       (modify (update_commands (mark_oldest_sent (set_status OK))) ;;
        modify (fun g => emit (progress_event g) g) ;;
        modify (with_rx_event true)).

Definition _handle_error (code : Z) : M unit :=
  modify (fun g => with_buffer_fill (pop0 (_buffer_fill g)) g) ;;
  f <- read has_file ;;
  st <- read _streaming ;;
  when (f && st)
       (modify (update_commands
                  (mark_oldest_sent
                     (fun c => set_error_code (Some code) (set_status ERROR c)))) ;;
        modify (with_rx_event true)) ;;
  modify (emit (EvError false code)).

(* ------------------------------------------------------------------ *)
(** *** Status reports *)

Fixpoint str_eqb (a b : str) : bool :=
  match a, b with
  | [], [] => true
  | x :: a', y :: b' => Ascii.eqb x y && str_eqb a' b'
  | _, _ => false
  end.

Definition endswith (p s : str) : bool := startswith (rev p) (rev s).

(** [s.strip(chars)] *)
Definition strip_chars (p : ascii -> bool) (s : str) : str :=
  rev (drop_while p (rev (drop_while p s))).

Definition is_angle (c : ascii) : bool :=
  Ascii.eqb c "<"%char || Ascii.eqb c ">"%char.

Definition state_map (word : str) : MachineStatus :=
  if str_eqb word (text "Idle") then IDLE
  else if str_eqb word (text "Run") then RUN
  else if str_eqb word (text "Jog") then JOG
  else if str_eqb word (text "Hold") then HOLD
  else if str_eqb word (text "Door") then DOOR
  else if str_eqb word (text "Home") then HOME
  else if str_eqb word (text "Alarm") then ALARM
  else if str_eqb word (text "Check") then CHECK
  else UNKNOWN.

(** [float(s)] *)
Definition to_float (s : str) : M Q :=
  match py_float s with
  | Some q => ret q
  | None => raise ValueError
  end.

Definition item (l : list str) (i : nat) : str := nth i l [].

(** One iteration of [for part in parts[1:]]. *)
Definition parse_field (part : str) : M unit :=
  if startswith (text "MPos:") part then
    let coords := split ","%char (skipn 5 part) in
    when (2 <=? length coords)
         (x <- to_float (item coords 0) ;; modify (with_machine_x x) ;;
          y <- to_float (item coords 1) ;; modify (with_machine_y y) ;;
          z <- (if 2 <? length coords then to_float (item coords 2)
                else ret qzero) ;;
          modify (with_machine_z z))
  else if startswith (text "WPos:") part then
    let coords := split ","%char (skipn 5 part) in
    when (2 <=? length coords)
         (x <- to_float (item coords 0) ;; modify (with_work_x x) ;;
          y <- to_float (item coords 1) ;; modify (with_work_y y) ;;
          z <- (if 2 <? length coords then to_float (item coords 2)
                else ret qzero) ;;
          modify (with_work_z z))
  else if startswith (text "WCO:") part then
    let coords := split ","%char (skipn 4 part) in
    when (2 <=? length coords)
         (wco_x <- to_float (item coords 0) ;;
          wco_y <- to_float (item coords 1) ;;
          modify (fun g => with_work_x (qsub (machine_x g) wco_x) g) ;;
          modify (fun g => with_work_y (qsub (machine_y g) wco_y) g))
  else if startswith (text "FS:") part || startswith (text "F:") part then
    let vals := split ","%char (item (split ":"%char part) 1) in
    f <- to_float (item vals 0) ;; modify (with_feed_rate f) ;;
    when (1 <? length vals)
         (sp <- to_float (item vals 1) ;; modify (with_spindle_speed sp))
  else ret tt.

Fixpoint parse_fields (parts : list str) : M unit :=
  match parts with
  | [] => ret tt
  | part :: rest => parse_field part ;; parse_fields rest
  end.

Definition _parse_status_report (line : str) : M unit :=
  let line := strip_chars is_angle line in
  let parts := split "|"%char line in
  when (negb (Nat.eqb (length parts) 0))
       (let state_str := strip (item parts 0) in
        let base_state := split_head ":"%char state_str in
        set_status_prop (state_map base_state)) ;;
  parse_fields (tl parts) ;;
  modify (emit EvPositionUpdate).

(* ------------------------------------------------------------------ *)
(** *** Classification of a received line *)

(** [re.match(r"Grbl\s+(\S+)", line, re.IGNORECASE)] *)
Definition match_welcome (line : str) : option str :=
  match line with
  | g :: r :: b :: l :: rest =>
      if str_eqb (upper [g; r; b; l]) (text "GRBL") then
        match take_while isspace rest,
              take_while (fun c => negb (isspace c)) (drop_while isspace rest)
        with
        | _ :: _, (_ :: _) as v => Some v
        | _, _ => None
        end
      else None
  | _ => None
  end.

(** [re.match(prefix + r"(\d+)", line)], then [int(m.group(1))]. *)
Definition match_code (prefix line : str) : option Z :=
  if startswith prefix line then
    match take_while isdigit (skipn (length prefix) line) with
    | [] => None
    | ds => Some (digits_val ds)
    end
  else None.

(** What a received line is taken for; the first test that succeeds
    decides. *)
Inductive Response : Type :=
| RWelcome (version : str)
| RStatus
| ROk
| RError (code : Z)
| RAlarm (code : Z)
| ROther.

Definition classify (line : str) : Response :=
  match match_welcome line with
  | Some v => RWelcome v
  | None =>
      if startswith (text "<") line && endswith (text ">") line then RStatus
      else if str_eqb line (text "ok") then ROk
      else match match_code (text "error:") line with
           | Some code => RError code
           | None =>
               match match_code (text "ALARM:") line with
               | Some alarm => RAlarm alarm
               | None => ROther
               end
           end
  end.

Definition _process_response (line : str) : M unit :=
  modify (emit (EvLineReceived line)) ;;
  match classify line with
  | RWelcome v => modify (with_version v)
  | RStatus => _parse_status_report line
  | ROk => _handle_ok
  | RError code => _handle_error code
  | RAlarm alarm =>
      set_status_prop ALARM ;; modify (emit (EvError true alarm))
  | ROther => ret tt
  end.

(** The line is an acknowledgment, [ok] or [error:N]. *)
Definition is_ack (line : str) : bool :=
  match classify line with
  | ROk | RError _ => true
  | _ => false
  end.

(** What the acknowledgment [line] makes of the command it is matched
    to. *)
Definition acked (line : str) (c : GCodeCommand) : GCodeCommand :=
  match classify line with
  | ROk => set_status OK c
  | RError code => set_error_code (Some code) (set_status ERROR c)
  | _ => c
  end.

Definition is_sent (c : GCodeCommand) : bool := status_eqb (status c) SENT.

(** Some command of the loaded program is in SENT state. *)
Definition has_sent (g : Controller) : bool :=
  match _file g with
  | Some f => existsb is_sent (commands f)
  | None => false
  end.

(* ------------------------------------------------------------------ *)
(** *** Sending *)

Definition _send_realtime (data : str) : M unit :=
  c <- read is_connected ;;
  when c (port_write data).

Definition send_command (cmd_str : str) : M unit :=
  c <- read is_connected ;;
  if negb c then ret tt
  else
    let cmd_str := strip cmd_str in
    match cmd_str with
    | [] => ret tt
    | _ :: _ => swallow SerialException (port_write (cmd_str ++ [ch_newline]))
    end.

(** The statements of a method body, run one after the other. *)
Definition block (stmts : list (M unit)) : M unit :=
  fold_right (fun m k => m ;; k) (ret tt) stmts.

(** The states that the statements leave one after the other, up to the
    first that raises. *)
Fixpoint history (stmts : list (M unit)) (g : Controller) : list Controller :=
  match stmts with
  | [] => []
  | m :: rest =>
      match m g with
      | (Return _, g') => g' :: history rest g'
      | (Raise _, g') => [g']
      end
  end.

Definition soft_reset_body : list (M unit) :=
  [ _send_realtime [ascii_of_nat 24];
    modify (with_streaming false);
    modify (with_buffer_fill []);
    set_status_prop IDLE ].

Definition soft_reset : M unit := block soft_reset_body.

Definition feed_hold : M unit :=
  _send_realtime (text "!") ;; modify (with_paused true).

Definition cycle_resume : M unit :=
  _send_realtime (text "~") ;; modify (with_paused false).

(* ------------------------------------------------------------------ *)
(** *** Streaming *)

Definition load_file (f : GCodeFile) : M unit :=
  modify (with_file (Some (reset_status f))) ;;
  modify (with_cmd_index 0) ;;
  modify (with_buffer_fill []).

Definition start_stream : M unit :=
  f <- read has_file ;;
  c <- read is_connected ;;
  if negb f || negb c then ret tt
  else
    st <- read _streaming ;;
    if st then ret tt
    else
      modify (fun g => match _file g with
                       | Some f => with_file (Some (reset_status f)) g
                       | None => g
                       end) ;;
      modify (with_cmd_index 0) ;;
      modify (with_buffer_fill []) ;;
      modify (with_streaming true) ;;
      modify (with_paused false) ;;
      modify (with_abort_flag false) ;;
      modify (emit EvStartTx).

Definition set_threading_mode (mode_name : string) : M unit :=
  match THREADING_MODES mode_name with
  | Some mode => modify (with_threading_mode mode)
  | None => ret tt
  end.

Definition pause_stream : M unit := feed_hold.
Definition resume_stream : M unit := cycle_resume.

Definition abort_stream : M unit :=
  block [ modify (with_abort_flag true);
          modify (with_streaming false);
          soft_reset;
          sleep 500;
          send_command (text "M5");
          send_command (text "G0 X0 Y0") ].

(** The statements of [abort_stream], those of [soft_reset] in the place
    of its call. *)
Definition abort_stream_statements : list (M unit) :=
  [ modify (with_abort_flag true); modify (with_streaming false) ]
  ++ soft_reset_body
  ++ [ sleep 500; send_command (text "M5"); send_command (text "G0 X0 Y0") ].

(** [disconnect()]; the joins of the worker threads leave no mark on
    the controller. *)
Definition disconnect : M unit :=
  modify (with_alive false) ;;
  modify (with_streaming false) ;;
  modify (with_abort_flag true) ;;
  modify (with_port None) ;;
  modify (with_version []) ;;
  set_status_prop DISCONNECTED ;;
  modify (emit EvDisconnected).

(** One successful trip through the body of the loop of [_tx_loop], in
    its four effects. *)
Definition tx_write (cmd : GCodeCommand) : M unit :=
  port_write (serial_bytes cmd).

Definition tx_append (byte_count : nat) (g : Controller) : Controller :=
  with_buffer_fill (_buffer_fill g ++ [byte_count]) g.

Fixpoint update_nth {A} (i : nat) (f : A -> A) (l : list A) : list A :=
  match l, i with
  | [], _ => []
  | x :: r, O => f x :: r
  | x :: r, S j => x :: update_nth j f r
  end.

(** [cmd.status = CommandStatus.SENT] for the command at index [i]. *)
Definition tx_mark (i : nat) (g : Controller) : Controller :=
  update_commands (update_nth i (set_status SENT)) g.

Definition tx_advance (g : Controller) : Controller :=
  with_cmd_index (S (_cmd_index g)) g.

End Grbl.

(* ================================================================== *)
(** ** The workers, interleaved *)
(* ================================================================== *)

(** The threads share the controller.  A TX worker advances by one
    statement of [_tx_loop] at a time, so that any other thread may run
    between its read of the occupancy and its append, and between its
    append and its SENT mark; the RX worker and the callers of the public
    methods advance by one line processed or one method called.

    This module has the steps of one TX worker on a command that
    [byte_count] can encode, the steps of the other threads, and the
    schedules in which a run is started only when the worker of the
    earlier run has ended.  The source does not wait for that worker:
    module [Pool] below has the schedules with every worker that
    [start_stream] starts. *)

Module Stream.
Import PyStr Num GCode Grbl.

(** Where the TX worker stands in [_tx_loop], with its local variables:
    the command [cmd] fetched ([gen] tells which loaded program it
    belongs to, [i] is its index there) and the last value read into
    [buffer_used]. *)
Inductive TxPc : Type :=
| TxNone                                  (* no TX worker is running *)
| TxLoop                                  (* at the test of the outer [while] *)
| TxWaiting (gen i : nat) (cmd : GCodeCommand) (buffer_used : nat)
                                          (* at the test of the inner [while] *)
| TxReady (gen i : nat) (cmd : GCodeCommand) (buffer_used : nat)
                                          (* at the test that follows it *)
| TxWritten (gen i : nat) (cmd : GCodeCommand)
                                          (* [write] returned *)
| TxAppended (gen i : nat)                (* the cost is in [_buffer_fill] *)
| TxMarked                                (* the command is SENT *)
| TxPacing                                (* [_cmd_index] is advanced *)
| TxDrain                                 (* left the loop *)
| TxDraining                              (* in the wait for the last acks *)
| TxFinish.                               (* past the wait *)

Record Sys : Type := mkSys {
  ctl : Controller;
  tx : TxPc;
  file_gen : nat            (* counts the programs loaded so far *)
}.

Definition at_pc (pc : TxPc) (g : Controller) (s : Sys) : Sys :=
  mkSys g pc (file_gen s).

Definition sum (l : list nat) : nat := list_sum l.

(** What the TX worker relies on from the other threads: they do not
    add to the inflight queue, and while it runs they neither take the
    abort flag back nor revive a controller that is not alive. *)
Definition rely (g g' : Controller) : Prop :=
  sum (_buffer_fill g') <= sum (_buffer_fill g) /\
  (_abort_flag g = true -> _abort_flag g' = true) /\
  (_alive g = false -> _alive g' = false).

(** The invariant of the interleaving: the queue is within the buffer
    size, the value the TX worker holds in [buffer_used] is an upper
    bound of the occupancy, and once the worker has written a command
    there is room for its cost. *)
Definition safe (s : Sys) : Prop :=
  let g := ctl s in
  sum (_buffer_fill g) <= RX_BUFFER_SIZE /\
  match tx s with
  | TxWaiting _ _ _ bu => sum (_buffer_fill g) <= bu
  | TxReady _ _ cmd bu =>
      sum (_buffer_fill g) <= bu /\
      (bu + byte_count cmd <= RX_BUFFER_SIZE \/
       _abort_flag g = true \/ _alive g = false)
  | TxWritten _ _ cmd =>
      sum (_buffer_fill g) + byte_count cmd <= RX_BUFFER_SIZE
  | _ => True
  end.

(** One step of the TX worker.  [timeout] tells whether the 30 s of the
    final wait have passed. *)
Definition tx_step (timeout : bool) (s : Sys) : Sys :=
  let g := ctl s in
  match tx s with
  | TxNone => s
  | TxLoop =>
      if _streaming g && _alive g then
        match _file g with
        | None => at_pc TxNone g s
        | Some f =>
            if _cmd_index g <? total f then
              if _abort_flag g then at_pc TxDrain g s
              else if _paused g then at_pc TxLoop (emit (EvSleep 50) g) s
              else match nth_error (commands f) (_cmd_index g) with
                   | Some cmd =>
                       at_pc (TxWaiting (file_gen s) (_cmd_index g) cmd
                                        (sum (_buffer_fill g))) g s
                   | None => at_pc TxNone g s
                   end
            else at_pc TxDrain g s
        end
      else at_pc TxDrain g s
  | TxWaiting gen i cmd bu =>
      if RX_BUFFER_SIZE <? bu + byte_count cmd then
        if _abort_flag g || negb (_alive g) then at_pc (TxReady gen i cmd bu) g s
        else at_pc (TxWaiting gen i cmd (sum (_buffer_fill g)))
                   (with_rx_event false g) s
      else at_pc (TxReady gen i cmd bu) g s
  | TxReady gen i cmd bu =>
      if _abort_flag g || negb (_alive g) then at_pc TxDrain g s
      else
        match tx_write cmd g with
        | (Return _, g') => at_pc (TxWritten gen i cmd) g' s
        | (Raise SerialException, g') =>
            at_pc TxDrain (with_streaming false g') s
        | (Raise _, g') => at_pc TxNone g' s
        end
  | TxWritten gen i cmd =>
      at_pc (TxAppended gen i) (tx_append (byte_count cmd) g) s
  | TxAppended gen i =>
      at_pc TxMarked (if Nat.eqb gen (file_gen s) then tx_mark i g else g) s
  | TxMarked => at_pc TxPacing (tx_advance g) s
  | TxPacing =>
      let ms := tx_short_ms (_threading_mode g) in
      at_pc TxLoop (if 0 <? ms then emit (EvSleep ms) g else g) s
  | TxDrain =>
      if _abort_flag g then at_pc TxFinish g s else at_pc TxDraining g s
  | TxDraining =>
      match _buffer_fill g with
      | [] => at_pc TxFinish g s
      | _ :: _ => if timeout then at_pc TxFinish g s
                  else at_pc TxDraining (emit (EvSleep 100) g) s
      end
  | TxFinish => at_pc TxNone (emit EvJobFinished (with_streaming false g)) s
  end.

(** What the other threads do: the RX worker, the status poller and the
    callers of the public methods.  [OpSend] stands for [send_command]
    and for the methods that are a call of it: [send_immediate],
    [kill_alarm], [homing], [jog], [set_zero] and the three requests;
    [pause_stream] and [resume_stream] are [OpFeedHold] and
    [OpCycleResume].  The program given to [load_file] is a new object,
    as it is at each of its calls in [main.py] and [main_window.py],
    where [from_file] or [from_lines] has just built it: a TX worker that
    holds a command of an earlier program has no access to the new
    one. *)
Inductive Op : Type :=
| OpReceive (line : str)        (* RX worker: one line read *)
| OpReadError                   (* RX worker: [readline] raised *)
| OpPoll                        (* status poller *)
| OpFeedHold
| OpCycleResume
| OpSoftReset
| OpAbort
| OpSend (line : str)
| OpLoad (f : GCodeFile)         (* [load_file] on a program just built *)
| OpDisconnect
| OpPortHealth (ok : bool)      (* the device starts or stops accepting writes *)
| OpJogCancel                   (* [jog_cancel] *)
| OpSetMode (mode_name : string)  (* [set_threading_mode] *)
| OpConnected (p : Port)        (* [connect] has opened the port *)
| OpStart.

(** The schedules with one TX worker at a time: [OpConnected] and
    [OpStart] are taken when no TX worker is running.  [start_stream]
    itself has no such test. *)
Definition enabled (o : Op) (s : Sys) : bool :=
  match o, tx s with
  | OpConnected _, TxNone | OpStart, TxNone => true
  | OpConnected _, _ | OpStart, _ => false
  | _, _ => true
  end.

Definition op_step (o : Op) (s : Sys) : Sys :=
  let g := ctl s in
  match o with
  | OpReceive line => mkSys (exec (_process_response line) g) (tx s) (file_gen s)
  | OpReadError =>
      mkSys (if _alive g then exec (set_status_prop DISCONNECTED)
                                   (with_alive false g) else g)
            (tx s) (file_gen s)
  | OpPoll => mkSys (exec (_send_realtime (text "?")) g) (tx s) (file_gen s)
  | OpFeedHold => mkSys (exec feed_hold g) (tx s) (file_gen s)
  | OpCycleResume => mkSys (exec cycle_resume g) (tx s) (file_gen s)
  | OpSoftReset => mkSys (exec soft_reset g) (tx s) (file_gen s)
  | OpAbort => mkSys (exec abort_stream g) (tx s) (file_gen s)
  | OpSend line => mkSys (exec (send_command line) g) (tx s) (file_gen s)
  | OpLoad f => mkSys (exec (load_file f) g) (tx s) (S (file_gen s))
  | OpDisconnect => mkSys (exec disconnect g) (tx s) (file_gen s)
  | OpPortHealth ok =>
      mkSys (match _port g with
             | Some p => with_port (Some (mkPort (is_open p) ok)) g
             | None => g
             end) (tx s) (file_gen s)
  | OpJogCancel =>
      mkSys (exec (_send_realtime [ascii_of_nat 133]) g) (tx s) (file_gen s)
  | OpSetMode mode_name =>
      mkSys (exec (set_threading_mode mode_name) g) (tx s) (file_gen s)
  | OpConnected p => mkSys (with_alive true (with_port (Some p) g)) (tx s) (file_gen s)
  | OpStart =>
      let g' := exec start_stream g in
      mkSys g'
            (if has_file g && is_connected g && negb (_streaming g)
             then TxLoop else tx s)
            (file_gen s)
  end.

Inductive step : Sys -> Sys -> Prop :=
| step_tx : forall timeout s, tx s <> TxNone -> step s (tx_step timeout s)
| step_op : forall o s, enabled o s = true -> step s (op_step o s).

Definition start : Sys := mkSys Grbl.init TxNone 0.

Inductive reachable : Sys -> Prop :=
| reach_start : reachable start
| reach_step : forall s s', reachable s -> step s s' -> reachable s'.

End Stream.

(* ================================================================== *)
(** ** One streaming run *)
(* ================================================================== *)

(** A run seen at the grain of whole actions: the TX worker sends the
    command under the cursor, the RX worker processes a line.  These are
    the schedules in which no line is processed while the worker is
    between its write and the advance of the cursor; [_tx_loop] holds the
    lock for the append only, so the others exist too, and [Pool] has
    them. *)

Module Run.
Import PyStr Num GCode Grbl Stream.


(** The command under the cursor. *)
Definition current (g : Controller) : option GCodeCommand :=
  match _file g with
  | Some f => nth_error (commands f) (_cmd_index g)
  | None => None
  end.

(** One trip of the TX worker through the body of its loop, taken when
    nothing holds the worker back: the stream is on, not paused and not
    aborted, the queue has room for the command, and the port takes the
    bytes. *)
Definition send_one (g : Controller) : option Controller :=
  if _streaming g && _alive g && negb (_abort_flag g) && negb (_paused g) then
    match current g with
    | Some cmd =>
        if sum (_buffer_fill g) + byte_count cmd <=? RX_BUFFER_SIZE then
          match tx_write cmd g with
          | (Return _, g') =>
              Some (tx_advance
                      (tx_mark (_cmd_index g)
                               (tx_append (byte_count cmd) g')))
          | (Raise _, _) => None
          end
        else None
    | None => None
    end
  else None.






(** [start_stream] goes through on [g]. *)
Definition ready (g : Controller) : bool :=
  has_file g && is_connected g && negb (_streaming g).

(** The part of the controller that streaming works on. *)
Definition stream_part (g : Controller) :=
  (_file g, _streaming g, _paused g, _abort_flag g, _cmd_index g,
   _buffer_fill g, _alive g, _port g).

(** [g'] differs from [g] outside that part only. *)
Definition same_stream (g g' : Controller) : Prop :=
  stream_part g' = stream_part g.

End Run.

(* ================================================================== *)
(** ** core/grbl_controller.py: the command surface *)
(* ================================================================== *)

(** The remaining public methods, one trip of the status poller, and the
    notions in which their properties are stated. *)

Module Surface.
Import PyStr Num GCode Grbl Stream Run.
Local Open Scope grbl_scope.

(** [try: m except Exception: pass] *)
Definition swallow_any (m : M unit) : M unit :=
  fun g => match m g with
           | (Raise _, g') => (Return tt, g')
           | r => r
           end.

(** One trip through the loop of [_status_loop]. *)
Definition status_poll : M unit :=
  swallow_any (_send_realtime (text "?")) ;;
  mode <- read _threading_mode ;;
  sleep (status_query_ms mode).

Definition send_immediate (cmd_str : str) : M unit := send_command cmd_str.

Definition kill_alarm : M unit := send_command (text "$X").
Definition homing : M unit := send_command (text "$H").
Definition jog_cancel : M unit := _send_realtime [ascii_of_nat 133].
Definition request_settings : M unit := send_command (text "$$").
Definition request_parser_state : M unit := send_command (text "$G").
Definition request_build_info : M unit := send_command (text "$I").

(** [" ".join(words)] *)
Fixpoint join_space (words : list str) : str :=
  match words with
  | [] => []
  | [w] => w
  | w :: rest => w ++ " "%char :: join_space rest
  end.

Definition set_zero (x y z : bool) : M unit :=
  let axes := (if x then [text "X0"] else []) ++
              (if y then [text "Y0"] else []) ++
              (if z then [text "Z0"] else []) in
  match axes with
  | [] => ret tt
  | _ :: _ => send_command (text "G92 " ++ join_space axes)
  end.

(** *** Notions for the statements *)

Definition is_lower (c : ascii) : bool :=
  let n := code c in (97 <=? n) && (n <=? 122).

Definition not_newline (c : ascii) : bool := negb (Ascii.eqb c ch_newline).

(** A text made of blanks only. *)
Definition blanks (a : str) : Prop := forallb isspace a = true.

Definition nonempty (t : str) : bool := negb (Nat.eqb (length t) 0).

(** The port is there, open, and takes the bytes written to it. *)
Definition can_write (g : Controller) : bool :=
  match _port g with
  | Some p => is_open p && healthy p
  | None => false
  end.

(** The line is empty once trimmed. *)
Definition blank (line : str) : bool :=
  match strip line with
  | [] => true
  | _ :: _ => false
  end.

(** The byte strings written to the port so far, oldest first. *)
Fixpoint written (evs : list Event) : list str :=
  match evs with
  | [] => []
  | EvWrite data :: rest => data :: written rest
  | _ :: rest => written rest
  end.

(** The RX worker processes the lines one after the other. *)
Definition process_all (lines : list str) (g : Controller) : Controller :=
  fold_left (fun g line => exec (_process_response line) g) lines g.

(** Steps of the TX worker, no other thread running in between; each
    step comes with its answer to "has the deadline of the final wait
    passed". *)
Definition tx_run (timeouts : list bool) (s : Sys) : Sys :=
  fold_left (fun s t => tx_step t s) timeouts s.

(** The TX worker has fetched a command that it has not written yet. *)
Definition holds_command (pc : TxPc) : bool :=
  match pc with
  | TxWaiting _ _ _ _ | TxReady _ _ _ _ => true
  | _ => false
  end.

(** A bound on the steps that the TX worker takes from [pc] to its end
    once the abort flag is set. *)
Definition stop_distance (pc : TxPc) : nat :=
  match pc with
  | TxNone => 0
  | TxFinish => 1
  | TxDrain | TxDraining => 2
  | TxLoop | TxReady _ _ _ _ => 3
  | TxWaiting _ _ _ _ | TxPacing => 4
  | TxMarked => 5
  | TxAppended _ _ => 6
  | TxWritten _ _ _ => 7
  end.

(** The commands of the loaded program, none when there is no program. *)
Definition program (g : Controller) : list GCodeCommand :=
  match _file g with
  | Some f => commands f
  | None => []
  end.

(** From [g] to [g'] nothing was written to the port. *)
Definition silent (g g' : Controller) : Prop :=
  written (trace g') = written (trace g).

(** Every command of the program that is not QUEUED has had its bytes
    written to the port. *)
Definition sent_were_written (g : Controller) : Prop :=
  Forall (fun c => status c = QUEUED \/
                   In (serial_bytes c) (written (trace g))) (program g).

(** From [c] to [c'] the raw line is kept and the command has not left
    QUEUED. *)
Definition moved_on (c c' : GCodeCommand) : Prop :=
  raw c' = raw c /\ (status c' = QUEUED \/ status c <> QUEUED).

(** From [g] to [g'] what was written is still there, and the commands
    of the program have kept their lines and not left QUEUED. *)
Definition keeps_record (g g' : Controller) : Prop :=
  incl (written (trace g)) (written (trace g')) /\
  Forall2 moved_on (program g) (program g').

(** The command [cmd] that the TX worker holds is the command at index
    [i] of the program it was fetched from, when that program is still
    the loaded one. *)
Definition fetched (s : Sys) (gen i : nat) (cmd : GCodeCommand) : Prop :=
  gen <= file_gen s /\
  (gen = file_gen s ->
   exists c, nth_error (program (ctl s)) i = Some c /\ raw c = raw cmd).

(** The invariant behind [sent_were_written]. *)
Definition recorded (s : Sys) : Prop :=
  sent_were_written (ctl s) /\
  match tx s with
  | TxWaiting gen i cmd _ | TxReady gen i cmd _ => fetched s gen i cmd
  | TxWritten gen i cmd =>
      fetched s gen i cmd /\
      In (serial_bytes cmd) (written (trace (ctl s)))
  | TxAppended gen i =>
      gen <= file_gen s /\
      (gen = file_gen s ->
       exists c, nth_error (program (ctl s)) i = Some c /\
                 In (serial_bytes c) (written (trace (ctl s))))
  | _ => True
  end.

(** The text has no character [ch]. *)
Definition lacks (ch : ascii) (t : str) : bool :=
  forallb (fun c => negb (Ascii.eqb c ch)) t.

End Surface.

(* ================================================================== *)
(** ** Every worker that [start_stream] starts *)
(* ================================================================== *)

(** [start_stream] starts a TX thread whenever a program is loaded, the
    port is open and [_streaming] is off.  [soft_reset], [abort_stream]
    and [disconnect] turn [_streaming] off at once, while the thread of
    the run they end may still be anywhere in [_tx_loop]; nothing joins
    it before the next start.  So several TX workers can be alive, all
    on the one controller. *)

Module Pool.
Import PyStr Num GCode Grbl Stream Run Surface.

Record Threads : Type := mkThreads {
  shared : Controller;      (* the controller that the threads share *)
  workers : list TxPc;      (* the TX workers, in the order of their start;
                               [TxNone] for one that has ended *)
  loads : nat               (* counts the programs loaded so far *)
}.

(** One step of a TX worker: [tx_step], and the failure that [tx_step]
    leaves out.  [byte_count = cmd.byte_count] encodes the text of the
    command that the worker has just fetched; on a text that
    [encode("ascii")] refuses, the exception ends the thread where it
    stands, and nothing has changed. *)
Definition worker_tx (timeout : bool) (s : Sys) : Sys :=
  match tx s, tx (tx_step timeout s) with
  | TxLoop, TxWaiting _ _ cmd _ =>
      if encodable cmd then tx_step timeout s else at_pc TxNone (ctl s) s
  | _, _ => tx_step timeout s
  end.

(** Worker [k] takes a step. *)
Definition worker_step (k : nat) (timeout : bool) (p : Threads) : Threads :=
  match nth_error (workers p) k with
  | Some pc =>
      let s := worker_tx timeout (mkSys (shared p) pc (loads p)) in
      mkThreads (ctl s) (update_nth k (fun _ => tx s) (workers p)) (loads p)
  | None => p
  end.

(** Another thread takes a step: a line is processed or a method is
    called.  A call of [start_stream] that goes through adds a worker,
    at the test of its loop. *)
Definition method_step (o : Op) (p : Threads) : Threads :=
  let s := op_step o (mkSys (shared p) TxNone (loads p)) in
  mkThreads (ctl s)
            (workers p ++ match tx s with TxNone => [] | pc => [pc] end)
            (file_gen s).

Inductive Move : Type :=
| Work (k : nat) (timeout : bool)
| Call (o : Op).

Definition move (m : Move) (p : Threads) : Threads :=
  match m with
  | Work k timeout => worker_step k timeout p
  | Call o => method_step o p
  end.

(** A schedule, played from [p]. *)
Definition play (ms : list Move) (p : Threads) : Threads :=
  fold_left (fun p m => move m p) ms p.

Definition begin : Threads := mkThreads Grbl.init [] 0.

(** Every move is possible at every moment. *)
Inductive reached : Threads -> Prop :=
| reached_begin : reached begin
| reached_move : forall m p, reached p -> reached (move m p).

(** [n] steps of worker [k], the deadline of the final wait not passed. *)
Definition steps (k n : nat) : list Move := repeat (Work k false) n.

(** The schedule of a job of [n] commands in which the first worker
    takes each trip through its loop without another thread in between,
    seven steps from the test of the loop back to it, and the [ok] of a
    command is processed at the end of its trip. *)
Fixpoint lockstep (n : nat) : list Move :=
  match n with
  | O => []
  | S k => steps 0 7 ++ Call (OpReceive (text "ok")) :: lockstep k
  end.

(** A move of the run of one job: a step of its worker, the first one,
    or a line that the RX worker processes. *)
Definition run_move (m : Move) : bool :=
  match m with
  | Work 0 _ => true
  | Call (OpReceive _) => true
  | _ => false
  end.

(** How many [ok] and [error] lines of the schedule find the job
    streaming and a command in SENT state. *)
Fixpoint useful_acks (ms : list Move) (p : Threads) : nat :=
  match ms with
  | [] => 0
  | m :: ms' =>
      match m with
      | Call (OpReceive line) =>
          if is_ack line && _streaming (shared p) && has_sent (shared p)
          then 1 else 0
      | _ => 0
      end + useful_acks ms' (move m p)
  end.

(** The worker has marked a command and not advanced the cursor yet. *)
Definition marked (pc : TxPc) : nat :=
  match pc with TxMarked => 1 | _ => 0 end.

(** The worker has appended a cost and not marked the command yet. *)
Definition appended (pc : TxPc) : nat :=
  match pc with TxAppended _ _ => 1 | _ => 0 end.

(** The command that the worker holds is the one under the cursor. *)
Definition holds (n : nat) (g : Controller) (pc : TxPc) : Prop :=
  match pc with
  | TxWaiting gen i _ _ | TxReady gen i _ _
  | TxWritten gen i _ | TxAppended gen i =>
      gen = n /\ i = _cmd_index g /\ _cmd_index g < length (program g)
  | _ => True
  end.

(** The invariant of the run of one job: the program [f] has kept its
    lines, the commands that the worker has marked are the first ones of
    the program, [a] commands are acknowledged, and the queue has no
    more entries than costs were appended. *)
Definition tracked (n : nat) (f : GCodeFile) (a : nat)
           (g : Controller) (pc : TxPc) : Prop :=
  exists f1,
    _file g = Some f1 /\
    map raw (commands f1) = map raw (commands f) /\
    _cmd_index g + marked pc <= total f1 /\
    Forall (fun c => status c <> QUEUED)
           (firstn (_cmd_index g + marked pc) (commands f1)) /\
    Forall (fun c => status c = QUEUED)
           (skipn (_cmd_index g + marked pc) (commands f1)) /\
    holds n g pc /\
    ok_count f1 + error_count f1 = a /\
    length (_buffer_fill g) <= _cmd_index g + marked pc + appended pc.

(** From [g] to [g'] what was written is still there and the program has
    kept its lines. *)
Definition same_lines (g g' : Controller) : Prop :=
  incl (written (trace g)) (written (trace g')) /\
  Forall2 (fun c c' => raw c' = raw c) (program g) (program g').

(** The invariant behind [sent_were_written], with every worker. *)
Definition all_recorded (p : Threads) : Prop :=
  sent_were_written (shared p) /\
  Forall (fun pc => recorded (mkSys (shared p) pc (loads p))) (workers p).

End Pool.

(* ================================================================== *)
(** ** The specification's words *)
(* ================================================================== *)

(** What the specification says of the parameter lookup, of the
    bounding box, of the tool path and of the order of acknowledgments,
    written after its sentences and not after the code. *)

Module Spec.
Import PyStr Num GCode Grbl Run.

(** *** Parameter lookup *)







(** *** Modal position, bounding box and tool path *)

Definition has_no (L : ascii) (l : list GCodeCommand) : Prop :=
  Forall (fun c => param L c = None) l.

(** The value of the axis [L] once the commands [l] are done: the
    parameter of the last of them that carries one, the origin if none
    does. *)
Definition modal_after (L : ascii) (l : list GCodeCommand) (v : xfloat) : Prop :=
  (exists l1 c l2,
      l = l1 ++ c :: l2 /\ param L c = Some v /\ has_no L l2) \/
  (v = Fin qzero /\ has_no L l).



Definition is_motion_at (cmds : list GCodeCommand) (i : nat) : bool :=
  match nth_error cmds i with
  | Some c => is_movement c
  | None => false
  end.

(** The indices of the motion commands, in program order. *)
Definition motion_indices (cmds : list GCodeCommand) : list nat :=
  filter (is_motion_at cmds) (seq 0 (length cmds)).

(** The commands up to and including the one at index [i]. *)
Definition upto (cmds : list GCodeCommand) (i : nat) : list GCodeCommand :=
  firstn (S i) cmds.

(** [(x, y)] is the end position of the command at index [i]. *)
Definition position_at (cmds : list GCodeCommand) (i : nat)
           (p : xfloat * xfloat) : Prop :=
  modal_after "X"%char (upto cmds i) (fst p) /\
  modal_after "Y"%char (upto cmds i) (snd p).



(** [a <= b] on floats. *)
Definition xle (a b : xfloat) : Prop := xlt b a = false.

(** The box is the component-wise minimum and maximum of the points
    [pts]: it contains them all and each of its sides is reached. *)
Definition is_bounding_box (pts : list (xfloat * xfloat))
           (x0 y0 x1 y1 : xfloat) : Prop :=
  Forall (fun p => xle x0 (fst p) /\ xle (fst p) x1 /\
                   xle y0 (snd p) /\ xle (snd p) y1) pts /\
  (exists p, In p pts /\ fst p = x0) /\
  (exists p, In p pts /\ snd p = y0) /\
  (exists p, In p pts /\ fst p = x1) /\
  (exists p, In p pts /\ snd p = y1).

(** The claim: the box of the end positions of the motion commands,
    (0, 0, 0, 0) when there is none. *)
Definition bounds_spec (cmds : list GCodeCommand)
           (b : xfloat * xfloat * xfloat * xfloat) : Prop :=
  exists pts,
    Forall2 (position_at cmds) (motion_indices cmds) pts /\
    match pts with
    | [] => b = (Fin qzero, Fin qzero, Fin qzero, Fin qzero)
    | _ :: _ =>
        exists x0 y0 x1 y1,
          b = (x0, y0, x1, y1) /\ is_bounding_box pts x0 y0 x1 y1
    end.

(** What [get_bounds] returns: the box of the end positions of the
    motion commands when one of them has an [x] below [inf], and
    (0, 0, 0, 0) otherwise. *)
Definition bounds_effect (cmds : list GCodeCommand)
           (b : xfloat * xfloat * xfloat * xfloat) : Prop :=
  exists pts,
    Forall2 (position_at cmds) (motion_indices cmds) pts /\
    ((Forall (fun p => fst p = PosInf) pts /\
      b = (Fin qzero, Fin qzero, Fin qzero, Fin qzero)) \/
     (Exists (fun p => fst p <> PosInf) pts /\
      exists x0 y0 x1 y1,
        b = (x0, y0, x1, y1) /\ is_bounding_box pts x0 y0 x1 y1)).

(** What the four accumulators of [get_bounds] hold, given the end
    positions [pts] of the motion commands met so far. *)
Definition box_so_far (pts : list (xfloat * xfloat)) (a : BoundsAcc) : Prop :=
  (pts = [] /\ min_x a = PosInf /\ min_y a = PosInf /\
   max_x a = NegInf /\ max_y a = NegInf) \/
  (pts <> [] /\
   is_bounding_box pts (min_x a) (min_y a) (max_x a) (max_y a)).

(** *** Order of the acknowledgments *)




End Spec.

(* ================================================================== *)
(** ** Facts about the string operations *)
(* ================================================================== *)

Module PyStrFacts.
#[local] Set Implicit Arguments.
Import PyStr.

Ltac each_char c :=
  destruct c as [[] [] [] [] [] [] [] []]; try reflexivity.

Lemma upper_char_idem : forall c, upper_char (upper_char c) = upper_char c.
Proof. intro c; each_char c. Qed.

Lemma isspace_upper_char : forall c, isspace (upper_char c) = isspace c.
Proof. intro c; each_char c. Qed.

Lemma eqb_upper_lparen : forall c,
  Ascii.eqb (upper_char c) ch_lparen = Ascii.eqb c ch_lparen.
Proof. intro c; each_char c. Qed.

Lemma eqb_upper_rparen : forall c,
  Ascii.eqb (upper_char c) ch_rparen = Ascii.eqb c ch_rparen.
Proof. intro c; each_char c. Qed.

Lemma eqb_upper_newline : forall c,
  Ascii.eqb (upper_char c) ch_newline = Ascii.eqb c ch_newline.
Proof. intro c; each_char c. Qed.

Lemma eqb_upper_semi : forall c,
  Ascii.eqb (upper_char c) ch_semi = Ascii.eqb c ch_semi.
Proof. intro c; each_char c. Qed.

Lemma upper_idem : forall s, upper (upper s) = upper s.
Proof.
  intro s; unfold upper; rewrite map_map.
  apply map_ext; intro; apply upper_char_idem.
Qed.

(** *** [take_while] and [drop_while] *)

Lemma take_drop_while : forall p s, take_while p s ++ drop_while p s = s.
Proof.
  induction s as [|c r IH]; simpl; [reflexivity|].
  destruct (p c); simpl; [now rewrite IH | reflexivity].
Qed.

Lemma drop_while_idem : forall p s,
  drop_while p (drop_while p s) = drop_while p s.
Proof.
  induction s as [|c r IH]; simpl; [reflexivity|].
  destruct (p c) eqn:E; [exact IH | simpl; now rewrite E].
Qed.

Lemma drop_while_snoc : forall p l c,
  p c = false -> drop_while p (l ++ [c]) = drop_while p l ++ [c].
Proof.
  induction l as [|x l IH]; intros c H; simpl.
  - now rewrite H.
  - destruct (p x); [now apply IH | reflexivity].
Qed.

Lemma drop_while_map : forall (p : ascii -> bool) f s,
  (forall c, p (f c) = p c) ->
  drop_while p (map f s) = map f (drop_while p s).
Proof.
  intros p f s H; induction s as [|c r IH]; simpl; [reflexivity|].
  rewrite H; destruct (p c); [exact IH | reflexivity].
Qed.

Lemma take_while_all : forall p s,
  forallb p s = true -> take_while p s = s.
Proof.
  induction s as [|c r IH]; simpl; [reflexivity|].
  intro H; apply andb_prop in H as [H1 H2]; rewrite H1, IH; auto.
Qed.

Lemma forallb_take_while : forall p s, forallb p (take_while p s) = true.
Proof.
  induction s as [|c r IH]; simpl; [reflexivity|].
  destruct (p c) eqn:E; simpl; [now rewrite E | reflexivity].
Qed.

Lemma forallb_app_l : forall (p : ascii -> bool) a b,
  forallb p (a ++ b) = true -> forallb p a = true.
Proof.
  intros p a b H; rewrite forallb_app in H; now apply andb_prop in H.
Qed.

Lemma forallb_app_r : forall (p : ascii -> bool) a b,
  forallb p (a ++ b) = true -> forallb p b = true.
Proof.
  intros p a b H; rewrite forallb_app in H; now apply andb_prop in H.
Qed.

(** *** [strip] *)

Lemma lstrip_suffix : forall s, exists w, s = w ++ lstrip s.
Proof.
  intro s; exists (take_while isspace s); symmetry; apply take_drop_while.
Qed.

Lemma rstrip_prefix : forall s, exists w, s = rstrip s ++ w.
Proof.
  intro s; exists (rev (take_while isspace (rev s))); unfold rstrip.
  rewrite <- rev_app_distr, take_drop_while; now rewrite rev_involutive.
Qed.

Lemma strip_infix : forall s, exists a b, s = a ++ strip s ++ b.
Proof.
  intro s; unfold strip.
  destruct (lstrip_suffix s) as [a Ha].
  destruct (rstrip_prefix (lstrip s)) as [b Hb].
  exists a, b; now rewrite <- Hb.
Qed.

Lemma rstrip_idem : forall s, rstrip (rstrip s) = rstrip s.
Proof.
  intro s; unfold rstrip; now rewrite rev_involutive, drop_while_idem.
Qed.

Lemma lstrip_rstrip : forall s, lstrip s = s -> lstrip (rstrip s) = rstrip s.
Proof.
  intros [|c r] H; [reflexivity|].
  unfold lstrip in H; simpl in H.
  destruct (isspace c) eqn:E.
  - exfalso.
    assert (L : length (drop_while isspace r) <= length r).
    { rewrite <- (take_drop_while isspace r) at 2.
      rewrite length_app; lia. }
    rewrite H in L; simpl in L; lia.
  - unfold rstrip; simpl rev.
    rewrite drop_while_snoc by exact E.
    rewrite rev_app_distr; simpl.
    unfold lstrip; simpl; now rewrite E.
Qed.

Lemma strip_idem : forall s, strip (strip s) = strip s.
Proof.
  intro s; unfold strip.
  rewrite lstrip_rstrip by apply drop_while_idem.
  apply rstrip_idem.
Qed.

Lemma strip_upper : forall s, strip (upper s) = upper (strip s).
Proof.
  intro s; unfold strip, rstrip, lstrip, upper.
  rewrite drop_while_map by apply isspace_upper_char.
  rewrite <- map_rev.
  rewrite drop_while_map by apply isspace_upper_char.
  now rewrite map_rev.
Qed.

(** *** Comments in parentheses *)

Lemma sub_parens_from_skipn : forall s k,
  sub_parens_from k s = sub_parens (skipn k s).
Proof.
  induction s as [|c r IH]; intros [|k]; try reflexivity.
  simpl; apply IH.
Qed.

Lemma sub_parens_id : forall s, has_comment s = false -> sub_parens s = s.
Proof.
  unfold sub_parens.
  induction s as [|c r IH]; simpl; [reflexivity|]; intro H.
  apply orb_false_elim in H as [H1 H2].
  destruct (Ascii.eqb c ch_lparen); simpl in H1.
  - destruct (close_idx r); [discriminate | now rewrite IH].
  - now rewrite IH.
Qed.

Lemma close_idx_sub_parens : forall s,
  close_idx s = None -> close_idx (sub_parens s) = None.
Proof.
  unfold sub_parens.
  induction s as [|c r IH]; simpl; [reflexivity|]; intro H.
  destruct (Ascii.eqb c ch_rparen) eqn:Er; [discriminate|].
  destruct (Ascii.eqb c ch_newline) eqn:En.
  - apply Ascii.eqb_eq in En; subst c; reflexivity.
  - destruct (close_idx r) as [n|] eqn:Ec; [discriminate|].
    destruct (Ascii.eqb c ch_lparen); simpl; rewrite Er, En, IH; auto.
Qed.

Lemma has_comment_sub_parens : forall s, has_comment (sub_parens s) = false.
Proof.
  intro s; remember (length s) as n eqn:Hn.
  revert s Hn; induction n as [n IH] using lt_wf_ind; intros s Hn.
  destruct s as [|c r]; [reflexivity|].
  unfold sub_parens; simpl.
  destruct (Ascii.eqb c ch_lparen) eqn:El.
  - destruct (close_idx r) as [k|] eqn:Ec.
    + rewrite sub_parens_from_skipn.
      apply (IH (length (skipn (S k) r))); [|reflexivity].
      subst n; rewrite length_skipn; simpl; lia.
    + simpl; rewrite El; simpl.
      fold (sub_parens r).
      rewrite close_idx_sub_parens by exact Ec; simpl.
      apply (IH (length r)); [subst n; simpl; lia | reflexivity].
  - simpl; rewrite El; simpl.
    apply (IH (length r)); [subst n; simpl; lia | reflexivity].
Qed.

Lemma close_idx_app : forall a b,
  is_some (close_idx a) = true -> is_some (close_idx (a ++ b)) = true.
Proof.
  induction a as [|c r IH]; simpl; intros b H; [discriminate|].
  destruct (Ascii.eqb c ch_rparen); [reflexivity|].
  destruct (Ascii.eqb c ch_newline); [discriminate|].
  specialize (IH b).
  destruct (close_idx r); [|discriminate].
  destruct (close_idx (r ++ b)); [reflexivity | now apply IH].
Qed.

Lemma has_comment_app_l : forall a b,
  has_comment (a ++ b) = false -> has_comment a = false.
Proof.
  induction a as [|c r IH]; simpl; intros b H; [reflexivity|].
  apply orb_false_elim in H as [H1 H2].
  rewrite (IH _ H2), orb_false_r.
  destruct (Ascii.eqb c ch_lparen); [simpl in *|reflexivity].
  destruct (is_some (close_idx r)) eqn:E; [|reflexivity].
  now rewrite (close_idx_app _ b E) in H1.
Qed.

Lemma has_comment_app_r : forall a b,
  has_comment (a ++ b) = false -> has_comment b = false.
Proof.
  induction a as [|c r IH]; simpl; intros b H; [exact H|].
  apply orb_false_elim in H as [_ H2]; now apply IH.
Qed.

Lemma close_idx_upper : forall s, close_idx (upper s) = close_idx s.
Proof.
  induction s as [|c r IH]; simpl; [reflexivity|].
  now rewrite eqb_upper_rparen, eqb_upper_newline, IH.
Qed.

Lemma has_comment_upper : forall s, has_comment (upper s) = has_comment s.
Proof.
  induction s as [|c r IH]; simpl; [reflexivity|].
  fold (upper r).
  now rewrite eqb_upper_lparen, close_idx_upper, IH.
Qed.

Lemma no_semi_upper : forall s, no_semi (upper s) = no_semi s.
Proof.
  induction s as [|c r IH]; simpl; [reflexivity|].
  fold (upper r) (no_semi r) (no_semi (upper r)).
  now rewrite eqb_upper_semi, IH.
Qed.

End PyStrFacts.

(* ================================================================== *)
(** ** Normalization *)
(* ================================================================== *)

Module NormalizeFacts.
#[local] Set Implicit Arguments.
Import PyStr PyStrFacts GCode.

Lemma split_head_prefix : forall sep s, exists w, s = split_head sep s ++ w.
Proof.
  intros sep s; eexists; symmetry; apply take_drop_while.
Qed.

Lemma normalize_has_no_comment : forall L, has_comment (normalize L) = false.
Proof.
  intro L; unfold normalize.
  rewrite has_comment_upper.
  destruct (strip_infix (split_head ch_semi (sub_parens L))) as (a & b & E).
  destruct (split_head_prefix ch_semi (sub_parens L)) as (w & E').
  pose proof (has_comment_sub_parens L) as H.
  rewrite E' in H; apply has_comment_app_l in H.
  rewrite E in H; apply has_comment_app_r in H.
  now apply has_comment_app_l in H.
Qed.

Lemma normalize_has_no_semi : forall L, no_semi (normalize L) = true.
Proof.
  intro L; unfold normalize.
  rewrite no_semi_upper.
  destruct (strip_infix (split_head ch_semi (sub_parens L))) as (a & b & E).
  pose proof (forallb_take_while (fun c => negb (Ascii.eqb c ch_semi))
                                 (sub_parens L)) as H.
  fold (split_head ch_semi (sub_parens L)) in H.
  rewrite E in H; apply forallb_app_r in H.
  now apply forallb_app_l in H.
Qed.

End NormalizeFacts.

Import PyStr PyStrFacts Num GCode.

(** C3.  Normalizing a line that is already normalized returns it
    unchanged: for every raw line [L],
    [normalize (normalize L) = normalize L], where [normalize] removes
    the comments in parentheses, cuts the line at the first [";"], trims
    the blanks at both ends and puts the text in upper case. *)
Theorem normalize_idempotent : forall L : str,
  normalize (normalize L) = normalize L.
Proof.
  intro L.
  pose proof (NormalizeFacts.normalize_has_no_comment L) as Hc.
  pose proof (NormalizeFacts.normalize_has_no_semi L) as Hs.
  unfold normalize at 1.
  rewrite (sub_parens_id _ Hc).
  unfold split_head; rewrite (take_while_all _ _ Hs).
  unfold normalize.
  now rewrite strip_upper, strip_idem, upper_idem.
Qed.

Example normalize_comment_stripping :
  normalize (text "G1 X5 (inline) Y6 ; tail") = text "G1 X5  Y6".
Proof. reflexivity. Qed.

(* ================================================================== *)
(** ** Parameter lookup *)
(* ================================================================== *)

Module ParamFacts.
#[local] Set Implicit Arguments.
Import PyStr PyStrFacts Num GCode Spec.



Lemma take_while_stuck : forall p s,
  match s with [] => True | c :: _ => p c = false end ->
  take_while p s = [].
Proof. intros p [|c r] H; simpl; [reflexivity | now rewrite H]. Qed.


Lemma strip_no_space : forall s,
  forallb (fun c => negb (isspace c)) s = true -> strip s = s.
Proof.
  intros s H.
  assert (L : forall t, forallb (fun c => negb (isspace c)) t = true ->
                        drop_while isspace t = t).
  { intros [|c r] Ht; simpl in *; [reflexivity|].
    apply andb_prop in Ht as [Hc _].
    now destruct (isspace c). }
  unfold strip, rstrip, lstrip.
  rewrite (L s H), L, rev_involutive; [reflexivity|].
  rewrite forallb_forall in *; intros x Hx; apply H; now apply in_rev.
Qed.






Lemma digit_not_dot : forall c,
  isdigit c = true -> Ascii.eqb c "."%char = false.
Proof. intro c; each_char c; discriminate. Qed.












(** *** Occurrences and the scan of [search_param] *)






End ParamFacts.

(* ================================================================== *)
(** ** Bounding box and tool path *)
(* ================================================================== *)

Module PathFacts.
#[local] Set Implicit Arguments.
Import PyStr Num GCode Spec.

Lemma qlt_true : forall a b, qlt a b = true <-> (a < b)%Q.
Proof.
  intros a b; unfold qlt; rewrite negb_true_iff.
  split; intro H.
  - apply Qnot_le_lt; intro L; apply Qle_bool_iff in L; congruence.
  - destruct (Qle_bool b a) eqn:E; [|reflexivity].
    apply Qle_bool_iff in E; exfalso; exact (Qlt_not_le _ _ H E).
Qed.

Lemma qlt_false : forall a b, qlt a b = false -> (b <= a)%Q.
Proof.
  intros a b H; unfold qlt in H; rewrite negb_false_iff in H.
  now apply Qle_bool_iff.
Qed.

(** *** Lists that grow at the end *)

Lemma snoc_split : forall A (l l1 l2 : list A) (c c0 : A),
  l ++ [c] = l1 ++ c0 :: l2 ->
  (l2 = [] /\ l = l1 /\ c = c0) \/
  (exists l2', l2 = l2' ++ [c] /\ l = l1 ++ c0 :: l2').
Proof.
  intros A l l1 l2 c c0 E.
  destruct l2 as [|y l2 _] using rev_ind.
  - left; apply app_inj_tail in E as [-> ->]; auto.
  - right; exists l2.
    change (l1 ++ c0 :: l2 ++ [y]) with (l1 ++ (c0 :: l2) ++ [y]) in E.
    rewrite app_assoc in E.
    apply app_inj_tail in E as [-> ->]; auto.
Qed.

Lemma modal_after_nil : forall L, modal_after L [] (Fin qzero).
Proof. intro L; right; split; [reflexivity | constructor]. Qed.

Lemma modal_after_snoc : forall L l c v,
  modal_after L l v -> modal_after L (l ++ [c]) (modal v (param L c)).
Proof.
  intros L l c v H.
  destruct (param L c) as [w|] eqn:E; simpl.
  - left; exists l, c, []; repeat split; [exact E | constructor].
  - destruct H as [(l1 & c0 & l2 & -> & Hv & Hn) | (-> & Hn)].
    + left; exists l1, c0, (l2 ++ [c]); repeat split; auto.
      * now rewrite <- app_assoc.
      * apply Forall_app; split; [exact Hn | now constructor].
    + right; split; [reflexivity|].
      apply Forall_app; split; [exact Hn | now constructor].
Qed.


(** *** Indices of the motion commands *)

Lemma is_motion_at_snoc_old : forall l c i,
  i < length l -> is_motion_at (l ++ [c]) i = is_motion_at l i.
Proof.
  intros l c i H; unfold is_motion_at; now rewrite nth_error_app1.
Qed.

Lemma nth_error_snoc_last : forall A (l : list A) (c : A),
  nth_error (l ++ [c]) (length l) = Some c.
Proof.
  intros A l c; rewrite nth_error_app2 by lia.
  now rewrite Nat.sub_diag.
Qed.

Lemma motion_indices_snoc : forall l c,
  motion_indices (l ++ [c]) =
  motion_indices l ++ (if is_movement c then [length l] else []).
Proof.
  intros l c; unfold motion_indices.
  rewrite length_app; simpl length.
  rewrite seq_app, filter_app; simpl.
  f_equal.
  - apply filter_ext_in; intros i Hi; apply in_seq in Hi.
    apply is_motion_at_snoc_old; lia.
  - unfold is_motion_at at 1; now rewrite nth_error_snoc_last.
Qed.

Lemma motion_indices_lt : forall l i, In i (motion_indices l) -> i < length l.
Proof.
  intros l i H; apply filter_In in H as [H _]; apply in_seq in H; lia.
Qed.

Lemma upto_snoc_old : forall l c i,
  i < length l -> upto (l ++ [c]) i = upto l i.
Proof.
  intros l c i H; unfold upto.
  rewrite firstn_app.
  replace (S i - length l) with 0 by lia.
  simpl; apply app_nil_r.
Qed.

Lemma upto_snoc_last : forall l c, upto (l ++ [c]) (length l) = l ++ [c].
Proof.
  intros l c; unfold upto; apply firstn_all2.
  rewrite length_app; simpl; lia.
Qed.

Lemma position_at_snoc_old : forall l c i p,
  i < length l -> position_at l i p -> position_at (l ++ [c]) i p.
Proof.
  intros l c i p H; unfold position_at; now rewrite upto_snoc_old.
Qed.


Lemma Forall2_snoc_old : forall B (P : list GCodeCommand -> nat -> B -> Prop) l c,
  (forall i t, i < length l -> P l i t -> P (l ++ [c]) i t) ->
  forall idx ts,
    (forall i, In i idx -> i < length l) ->
    Forall2 (P l) idx ts -> Forall2 (P (l ++ [c])) idx ts.
Proof.
  intros B P l c Hold idx ts Hlt H.
  induction H as [|i t idx ts Hi Hrest IH]; constructor.
  - apply Hold; [apply Hlt; now left | exact Hi].
  - apply IH; intros j Hj; apply Hlt; now right.
Qed.

(** *** The loop of [get_toolpath] *)



(** *** The order of the floats *)

Lemma xle_refl : forall a, xle a a.
Proof.
  intros [|q|]; unfold xle; simpl; try reflexivity.
  unfold qlt; rewrite negb_false_iff; apply Qle_bool_iff, Qle_refl.
Qed.

Lemma xlt_asym : forall a b, xlt a b = true -> xlt b a = false.
Proof.
  intros [|p|] [|q|] H; simpl in *; try reflexivity; try discriminate.
  apply qlt_true in H; unfold qlt; rewrite negb_false_iff.
  apply Qle_bool_iff, Qlt_le_weak, H.
Qed.

Lemma xle_trans : forall a b c, xle a b -> xle b c -> xle a c.
Proof.
  unfold xle; intros [|p|] [|q|] [|r|] H1 H2; simpl in *;
    try reflexivity; try discriminate.
  apply qlt_false in H1; apply qlt_false in H2.
  unfold qlt; rewrite negb_false_iff; apply Qle_bool_iff.
  eapply Qle_trans; eauto.
Qed.

Lemma xle_pos_inf : forall a, xle PosInf a -> a = PosInf.
Proof. intros [|q|] H; unfold xle in H; simpl in H; congruence. Qed.

Lemma py_min_le_l : forall a b, xle (py_min a b) a.
Proof.
  intros a b; unfold py_min; destruct (xlt b a) eqn:E.
  - now apply xlt_asym.
  - apply xle_refl.
Qed.

Lemma py_min_le_r : forall a b, xle (py_min a b) b.
Proof.
  intros a b; unfold py_min; destruct (xlt b a) eqn:E.
  - apply xle_refl.
  - exact E.
Qed.

Lemma py_max_ge_l : forall a b, xle a (py_max a b).
Proof.
  intros a b; unfold py_max; destruct (xlt a b) eqn:E.
  - now apply xlt_asym.
  - apply xle_refl.
Qed.

Lemma py_max_ge_r : forall a b, xle b (py_max a b).
Proof.
  intros a b; unfold py_max; destruct (xlt a b) eqn:E.
  - apply xle_refl.
  - exact E.
Qed.

Lemma py_min_cases : forall a b, py_min a b = a \/ py_min a b = b.
Proof. intros a b; unfold py_min; destruct (xlt b a); auto. Qed.

Lemma py_max_cases : forall a b, py_max a b = a \/ py_max a b = b.
Proof. intros a b; unfold py_max; destruct (xlt a b); auto. Qed.

(** The first value met replaces the sentinel. *)
Lemma py_min_first : forall x, py_min PosInf x = x.
Proof. now intros [|q|]. Qed.

Lemma py_max_first : forall x, py_max NegInf x = x.
Proof. now intros [|q|]. Qed.

(** *** The loop of [get_bounds] *)

Lemma box_single : forall x y, is_bounding_box [(x, y)] x y x y.
Proof.
  intros x y; unfold is_bounding_box; repeat split;
    try (exists (x, y); split; [now left | reflexivity]).
  constructor; [|constructor]; simpl; repeat split; apply xle_refl.
Qed.

Lemma reached_extend : forall (pr : xfloat * xfloat -> xfloat) pts p v w,
  (exists q, In q pts /\ pr q = v) ->
  w = v \/ w = pr p ->
  exists q, In q (pts ++ [p]) /\ pr q = w.
Proof.
  intros pr pts p v w (q & Hq & E) [-> | ->].
  - exists q; split; [apply in_or_app; now left | exact E].
  - exists p; split; [apply in_or_app; right; now left | reflexivity].
Qed.

Lemma box_extend : forall pts x0 y0 x1 y1 x y,
  is_bounding_box pts x0 y0 x1 y1 ->
  is_bounding_box (pts ++ [(x, y)])
                  (py_min x0 x) (py_min y0 y) (py_max x1 x) (py_max y1 y).
Proof.
  intros pts x0 y0 x1 y1 x y (Hall & Hx0 & Hy0 & Hx1 & Hy1).
  unfold is_bounding_box; repeat split.
  - apply Forall_app; split.
    + eapply Forall_impl; [|exact Hall].
      intros p (A & B & C & D); repeat split.
      * eapply xle_trans; [apply py_min_le_l | exact A].
      * eapply xle_trans; [exact B | apply py_max_ge_l].
      * eapply xle_trans; [apply py_min_le_l | exact C].
      * eapply xle_trans; [exact D | apply py_max_ge_l].
    + constructor; [|constructor]; simpl; repeat split.
      * apply py_min_le_r.
      * apply py_max_ge_r.
      * apply py_min_le_r.
      * apply py_max_ge_r.
  - apply (reached_extend fst) with (v := x0); [exact Hx0 | apply py_min_cases].
  - apply (reached_extend snd) with (v := y0); [exact Hy0 | apply py_min_cases].
  - apply (reached_extend fst) with (v := x1); [exact Hx1 | apply py_max_cases].
  - apply (reached_extend snd) with (v := y1); [exact Hy1 | apply py_max_cases].
Qed.

Lemma bounds_invariant : forall l,
  let a := fold_left bounds_step l bounds_init in
  modal_after "X"%char l (acc_x a) /\
  modal_after "Y"%char l (acc_y a) /\
  exists pts,
    Forall2 (position_at l) (motion_indices l) pts /\ box_so_far pts a.
Proof.
  induction l as [|c l IH] using rev_ind; cbv zeta.
  - simpl; repeat split; try apply modal_after_nil.
    exists []; split; [constructor | left; auto].
  - rewrite fold_left_app; simpl.
    set (a := fold_left bounds_step l bounds_init) in *.
    destruct IH as (Hx & Hy & pts & Hp & Hb).
    pose proof (modal_after_snoc c Hx) as Hx'.
    pose proof (modal_after_snoc c Hy) as Hy'.
    assert (Hold : Forall2 (position_at (l ++ [c])) (motion_indices l) pts).
    { apply Forall2_snoc_old; auto.
      - intros; now apply position_at_snoc_old.
      - apply motion_indices_lt. }
    unfold bounds_step.
    rewrite motion_indices_snoc.
    destruct (is_movement c); simpl.
    + repeat split; auto.
      exists (pts ++ [(modal (acc_x a) (param "X"%char c),
                       modal (acc_y a) (param "Y"%char c))]).
      split.
      * apply Forall2_app; [exact Hold|].
        constructor; [|constructor].
        split; simpl; rewrite upto_snoc_last; assumption.
      * right; split; [now destruct pts|].
        destruct Hb as [(-> & -> & -> & -> & ->) | (_ & Hbox)].
        -- rewrite !py_min_first, !py_max_first; apply box_single.
        -- now apply box_extend.
    + repeat split; auto.
      exists pts; rewrite app_nil_r; split; [exact Hold|].
      destruct Hb as [H | (Hne & H)];
        [left | right; split; [exact Hne|]]; exact H.
Qed.

(** *** The position of a command is one *)

Lemma modal_after_last : forall L l c v,
  modal_after L (l ++ [c]) v ->
  param L c = Some v \/ (param L c = None /\ modal_after L l v).
Proof.
  intros L l c v [(l1 & c0 & l2 & E & Hv & Hn) | (-> & Hn)].
  - apply snoc_split in E as [(-> & -> & ->) | (l2' & -> & ->)];
      [now left|].
    apply Forall_app in Hn as [Hn Hc]; right; split; [now inversion Hc|].
    left; exists l1, c0, l2'; auto.
  - apply Forall_app in Hn as [Hn Hc]; right; split; [now inversion Hc|].
    now right.
Qed.

Lemma modal_after_unique : forall L l v v',
  modal_after L l v -> modal_after L l v' -> v = v'.
Proof.
  intros L; induction l as [|c l IH] using rev_ind; intros v v' H H'.
  - destruct H as [(l1 & c0 & l2 & E & _) | (-> & _)];
      [now destruct l1|].
    destruct H' as [(l1 & c0 & l2 & E & _) | (-> & _)];
      [now destruct l1 | reflexivity].
  - apply modal_after_last in H as [H | [H Hm]];
      apply modal_after_last in H' as [H' | [H' Hm']]; try congruence.
    now apply IH.
Qed.

Lemma position_at_unique : forall l i p p',
  position_at l i p -> position_at l i p' -> p = p'.
Proof.
  intros l i [x y] [x' y'] [Hx Hy] [Hx' Hy']; simpl in *.
  f_equal; eapply modal_after_unique; eauto.
Qed.

Lemma positions_unique : forall l idx pts pts',
  Forall2 (position_at l) idx pts -> Forall2 (position_at l) idx pts' ->
  pts = pts'.
Proof.
  intros l idx pts pts' H; revert pts'.
  induction H as [|i p idx pts Hp _ IH]; intros pts' H'; inversion H'; subst;
    [reflexivity|].
  f_equal; [eapply position_at_unique; eauto | now apply IH].
Qed.

(** The sentinel test of [get_bounds]. *)
Lemma box_min_inf : forall pts x0 y0 x1 y1,
  is_bounding_box pts x0 y0 x1 y1 ->
  (x0 = PosInf -> Forall (fun p => fst p = PosInf) pts) /\
  (x0 <> PosInf -> Exists (fun p => fst p <> PosInf) pts).
Proof.
  intros pts x0 y0 x1 y1 (Hall & (p & Hp & E) & _); split.
  - intros ->; eapply Forall_impl; [|exact Hall].
    intros q (A & _); now apply xle_pos_inf.
  - intro N; apply Exists_exists; exists p; split; [exact Hp | congruence].
Qed.

Lemma bounds_meets_effect : forall l,
  bounds_effect l (get_bounds (mkFile l [])).
Proof.
  intros l; unfold bounds_effect, get_bounds; simpl.
  destruct (bounds_invariant l) as (_ & _ & pts & Hp & Hb).
  exists pts; split; [exact Hp|].
  destruct Hb as [(-> & E & _) | (Hne & Hbox)].
  - rewrite E; simpl; left; split; [constructor | reflexivity].
  - destruct (box_min_inf Hbox) as [Hinf Hfin].
    destruct (min_x (fold_left bounds_step l bounds_init)) eqn:E; simpl.
    + right; split; [apply Hfin; discriminate|].
      do 4 eexists; split; [reflexivity | exact Hbox].
    + right; split; [apply Hfin; discriminate|].
      do 4 eexists; split; [reflexivity | exact Hbox].
    + left; split; [now apply Hinf | reflexivity].
Qed.

End PathFacts.

Import Spec.

(** C5, the defect.  The program of the single line "G0 X99...9 Y1",
    the [X] number written with 400 digits, has one motion command; its
    end position is (inf, 1), since [float] reads a number of that size
    as [inf].  The box of its end positions is (inf, 1, inf, 1), and
    [get_bounds] returns (0, 0, 0, 0): it takes the [inf] that the
    minimum of [x] holds for the one it started from, the mark of a
    program with no motion command. *)
Theorem get_bounds_sentinel_misfires :
  let c := new_command (text "G0 X" ++ repeat "9"%char 400 ++ text " Y1") in
  is_movement c = true /\
  motion_indices [c] = [0] /\
  position_at [c] 0 (PosInf, Fin 1) /\
  is_bounding_box [(PosInf, Fin 1)] PosInf (Fin 1) PosInf (Fin 1) /\
  get_bounds (mkFile [c] []) = (Fin qzero, Fin qzero, Fin qzero, Fin qzero) /\
  ~ bounds_spec [c] (get_bounds (mkFile [c] [])).
Proof.
  cbv zeta.
  set (c := new_command (text "G0 X" ++ repeat "9"%char 400 ++ text " Y1")).
  assert (Hx : param "X"%char c = Some PosInf) by (vm_compute; reflexivity).
  assert (Hy : param "Y"%char c = Some (Fin 1)) by (vm_compute; reflexivity).
  assert (Hm : is_movement c = true) by (vm_compute; reflexivity).
  clearbody c.
  assert (Hi : motion_indices [c] = [0])
    by (unfold motion_indices, is_motion_at; simpl; now rewrite Hm).
  assert (Hp : position_at [c] 0 (PosInf, Fin 1)).
  { split; left; exists [], c, []; repeat split; auto; constructor. }
  assert (Hb : get_bounds (mkFile [c] []) =
               (Fin qzero, Fin qzero, Fin qzero, Fin qzero)).
  { unfold get_bounds, bounds_step; simpl; rewrite Hx, Hy, Hm; reflexivity. }
  split; [exact Hm|]; split; [exact Hi|]; split; [exact Hp|].
  split; [apply PathFacts.box_single|]; split; [exact Hb|].
  rewrite Hb; intros (pts & Hpts & H); rewrite Hi in Hpts.
  assert (E : pts = [(PosInf, Fin 1)]).
  { eapply PathFacts.positions_unique; [exact Hpts|].
    constructor; [exact Hp | constructor]. }
  subst pts.
  destruct H as (x0 & y0 & x1 & y1 & E & _ & (p & Hin & Hr) & _).
  injection E as <- _ _ _.
  destruct Hin as [<- | []]; discriminate.
Qed.


(** Two lines whose numbers a float cannot hold: an [S] that rounds to
    zero does not cut, an [X] that rounds to [inf] is an end position. *)
Example get_toolpath_rounds :
  get_toolpath
    (from_lines [text "G1 X1 S0." ++ repeat "0"%char 400 ++ text "1";
                 text "G1 X-" ++ repeat "9"%char 400 ++ text " Y0.1 S0.5"]
                (text "job")) =
  [ (Fin 1, Fin qzero, false);
    (NegInf, Fin (3602879701896397 # 36028797018963968), true) ].
Proof. vm_compute; reflexivity. Qed.




(* ================================================================== *)
(** ** Acknowledgments, one at a time *)
(* ================================================================== *)

Module ControllerFacts.
#[local] Set Implicit Arguments.
Import PyStr Num GCode Grbl.

Lemma file_eta : forall f : GCodeFile, mkFile (commands f) (filename f) = f.
Proof. now intros []. Qed.

Lemma mark_oldest_sent_none : forall h cmds,
  existsb is_sent cmds = false -> mark_oldest_sent h cmds = cmds.
Proof.
  induction cmds as [|c r IH]; simpl; [reflexivity|]; intro H.
  apply orb_false_elim in H as [H1 H2]; unfold is_sent in H1.
  now rewrite H1, IH.
Qed.

Lemma update_commands_id : forall h g,
  (forall f, _file g = Some f -> h (commands f) = commands f) ->
  update_commands h g = g.
Proof.
  intros h g H; unfold update_commands.
  destruct (_file g) as [f|] eqn:E; [|reflexivity].
  rewrite (H f eq_refl), file_eta, <- E; now destruct g.
Qed.

Lemma mark_none_in_state : forall h g,
  has_sent g = false -> update_commands (mark_oldest_sent h) g = g.
Proof.
  intros h g H; apply update_commands_id; intros f E.
  unfold has_sent in H; rewrite E in H.
  now apply mark_oldest_sent_none.
Qed.

Lemma startswith_head : forall a p s,
  startswith (a :: p) s = true ->
  exists s', s = a :: s' /\ startswith p s' = true.
Proof.
  intros a p [|b s] H; [discriminate|].
  simpl in H; apply andb_prop in H as [Hb Hs].
  apply Ascii.eqb_eq in Hb; subst b; eauto.
Qed.

Lemma str_eqb_eq : forall a b, str_eqb a b = true <-> a = b.
Proof.
  induction a as [|x a IH]; intros [|y b]; simpl; split; intro H;
    try discriminate; try reflexivity.
  - apply andb_prop in H as [H1 H2].
    apply Ascii.eqb_eq in H1; apply IH in H2; now subst.
  - injection H as -> ->; rewrite Ascii.eqb_refl; now apply IH.
Qed.

Lemma acked_raw : forall line c, raw (acked line c) = raw c.
Proof. intros line c; unfold acked; now destruct (classify line). Qed.




(** What processing an acknowledgment does to the streaming state. *)
Lemma process_ack_effect : forall g line,
  is_ack line = true ->
  let g' := exec (_process_response line) g in
  _buffer_fill g' = pop0 (_buffer_fill g) /\
  _cmd_index g' = _cmd_index g /\
  _streaming g' = _streaming g /\
  _paused g' = _paused g /\
  _abort_flag g' = _abort_flag g /\
  _alive g' = _alive g /\
  _port g' = _port g /\
  _file g' = match _file g with
             | Some f =>
                 if _streaming g
                 then Some (mkFile (mark_oldest_sent (acked line) (commands f))
                                   (filename f))
                 else Some f
             | None => None
             end.
Proof.
  intros g line Hack; cbv zeta.
  unfold is_ack in Hack; unfold exec, _process_response, acked.
  destruct (classify line) eqn:E; try discriminate.
  - unfold _handle_ok, bind, modify, read, when, ret, has_file,
      update_commands; simpl.
    destruct (_file g) as [f|] eqn:Ef; destruct (_streaming g) eqn:Es;
      simpl; rewrite ?Ef; simpl; rewrite ?Ef, ?Es; simpl; tauto.
  - unfold _handle_error, bind, modify, read, when, ret, has_file,
      update_commands; simpl.
    destruct (_file g) as [f|] eqn:Ef; destruct (_streaming g) eqn:Es;
      simpl; rewrite ?Ef; simpl; rewrite ?Ef, ?Es; simpl; tauto.
Qed.

End ControllerFacts.

(* ================================================================== *)
(** ** What the methods leave alone *)
(* ================================================================== *)

Module Frame.
#[local] Set Implicit Arguments.
Import PyStr Num GCode Grbl Stream Run.
Local Open Scope grbl_scope.

Section Respect.
Variable R : Controller -> Controller -> Prop.
Hypothesis R_refl : forall g, R g g.
Hypothesis R_trans : forall a b c, R a b -> R b c -> R a c.

Lemma respects_ret : forall A (a : A), respects R (ret a).
Proof. intros A a g; apply R_refl. Qed.

Lemma respects_raise : forall A e, respects R (@raise A e).
Proof. intros A e g; apply R_refl. Qed.

Lemma respects_read : forall A (f : Controller -> A), respects R (read f).
Proof. intros A f g; apply R_refl. Qed.

Lemma respects_modify : forall f,
  (forall g, R g (f g)) -> respects R (modify f).
Proof. intros f H g; apply H. Qed.

Lemma respects_bind : forall A B (m : M A) (k : A -> M B),
  respects R m -> (forall a, respects R (k a)) -> respects R (bind m k).
Proof.
  intros A B m k Hm Hk g; unfold bind.
  specialize (Hm g); destruct (m g) as [[a|e] g']; simpl in *.
  - eapply R_trans; [exact Hm | apply Hk].
  - exact Hm.
Qed.

Lemma respects_when : forall b m, respects R m -> respects R (when b m).
Proof. intros [] m H; [exact H | apply respects_ret]. Qed.

Lemma respects_swallow : forall e m,
  respects R m -> respects R (swallow e m).
Proof.
  intros e m H g; unfold swallow; specialize (H g).
  destruct (m g) as [[a|e'] g']; simpl in *; [exact H|].
  destruct e, e'; exact H.
Qed.

Lemma respects_block : forall stmts,
  Forall (respects R) stmts -> respects R (block stmts).
Proof.
  induction 1 as [|m rest Hm _ IH]; simpl.
  - apply respects_ret.
  - apply respects_bind; [exact Hm | intro; exact IH].
Qed.
End Respect.

(** *** Methods that leave the streaming state alone *)

Lemma same_stream_refl : forall g, same_stream g g.
Proof. reflexivity. Qed.

Lemma same_stream_trans : forall a b c,
  same_stream a b -> same_stream b c -> same_stream a c.
Proof. unfold same_stream; intros a b c H1 H2; congruence. Qed.

Ltac keeps :=
  repeat match goal with
    | |- respects _ (ret _) => apply (@respects_ret _ same_stream_refl)
    | |- respects _ (raise _) => apply (@respects_raise _ same_stream_refl)
    | |- respects _ (read _) => apply (@respects_read _ same_stream_refl)
    | |- respects _ (modify _) => apply respects_modify; intro; reflexivity
    | |- respects _ (when _ _) => apply (@respects_when _ same_stream_refl)
    | |- respects _ (swallow _ _) => apply respects_swallow
    | |- respects _ (bind _ _) =>
        apply (@respects_bind _ same_stream_trans); [|intro]
    | |- respects _ (if ?b then _ else _) => destruct b
    | |- respects _ (match ?o with Some _ => _ | None => _ end) => destruct o
    | |- respects _ (match ?l with [] => _ | _ :: _ => _ end) => destruct l
    | |- respects _ (let _ := _ in _) => cbv zeta
    end.

Lemma keeps_set_status_prop : forall st, respects same_stream (set_status_prop st).
Proof. intro st; unfold set_status_prop; keeps. Qed.

Lemma keeps_port_write : forall data, respects same_stream (port_write data).
Proof. intro data; unfold port_write; keeps. Qed.

Lemma keeps_send_realtime : forall data,
  respects same_stream (_send_realtime data).
Proof.
  intro data; unfold _send_realtime; keeps; apply keeps_port_write.
Qed.

Lemma keeps_send_command : forall line, respects same_stream (send_command line).
Proof.
  intro line; unfold send_command; keeps; apply keeps_port_write.
Qed.

Lemma keeps_to_float : forall t, respects same_stream (to_float t).
Proof. intro t; unfold to_float; keeps. Qed.

Lemma keeps_parse_field : forall part, respects same_stream (parse_field part).
Proof.
  intro part; unfold parse_field.
  keeps; try apply keeps_to_float.
Qed.

Lemma keeps_parse_fields : forall parts, respects same_stream (parse_fields parts).
Proof.
  induction parts as [|part rest IH]; simpl; keeps;
    [apply keeps_parse_field | exact IH].
Qed.

Lemma keeps_parse_status_report : forall line,
  respects same_stream (_parse_status_report line).
Proof.
  intro line; unfold _parse_status_report; keeps;
    [apply keeps_set_status_prop | apply keeps_parse_fields].
Qed.

(** A line that is not an acknowledgment leaves the streaming state
    alone. *)
Lemma keeps_process_other : forall line,
  is_ack line = false -> respects same_stream (_process_response line).
Proof.
  intros line H; unfold _process_response, is_ack in *.
  destruct (classify line); try discriminate; keeps.
  - apply keeps_parse_status_report.
  - apply keeps_set_status_prop.
Qed.

End Frame.

(* ================================================================== *)
(** ** Flow control *)
(* ================================================================== *)

Module StreamFacts.
#[local] Set Implicit Arguments.
Import PyStr Num GCode Grbl Stream Run Frame.
Local Open Scope grbl_scope.

Lemma sum_pop0 : forall l, sum (pop0 l) <= sum l.
Proof. intros [|x l]; unfold sum; simpl; lia. Qed.

Lemma sum_snoc : forall l x, sum (l ++ [x]) = sum l + x.
Proof. intros l x; unfold sum; rewrite list_sum_app; simpl; lia. Qed.

Lemma rely_refl : forall g, rely g g.
Proof. intro g; unfold rely; auto. Qed.

Lemma rely_trans : forall a b c, rely a b -> rely b c -> rely a c.
Proof.
  unfold rely; intros a b c (H1 & H2 & H3) (K1 & K2 & K3).
  repeat split; auto; lia.
Qed.

Lemma same_stream_rely : forall g g', same_stream g g' -> rely g g'.
Proof.
  unfold same_stream, stream_part, rely; intros g g' H.
  injection H as _ _ _ Ha _ Hb Hl _.
  rewrite Ha, Hb, Hl; auto.
Qed.

Lemma keeps_obeys : forall A (m : M A),
  respects same_stream m -> respects rely m.
Proof. intros A m H g; apply same_stream_rely, H. Qed.

Ltac rely_leaf :=
  unfold rely, sum; simpl; repeat split; auto; try lia; try discriminate.

Ltac obeys :=
  repeat match goal with
    | |- respects _ (ret _) => apply (@respects_ret _ rely_refl)
    | |- respects _ (raise _) => apply (@respects_raise _ rely_refl)
    | |- respects _ (read _) => apply (@respects_read _ rely_refl)
    | |- respects _ (modify _) => apply respects_modify; intro; rely_leaf
    | |- respects _ (when _ _) => apply (@respects_when _ rely_refl)
    | |- respects _ (swallow _ _) => apply respects_swallow
    | |- respects _ (bind _ _) => apply (@respects_bind _ rely_trans); [|intro]
    | |- respects _ (block _) => apply (@respects_block _ rely_refl rely_trans)
    | |- Forall (respects _) (_ :: _) => constructor
    | |- Forall (respects _) [] => constructor
    | |- respects _ (if ?b then _ else _) => destruct b
    | |- respects _ (_send_realtime _) => apply keeps_obeys, keeps_send_realtime
    | |- respects _ (send_command _) => apply keeps_obeys, keeps_send_command
    | |- respects _ (set_status_prop _) =>
        apply keeps_obeys, keeps_set_status_prop
    | |- respects _ (sleep _) => unfold sleep
    end.

Lemma obeys_feed_hold : respects rely feed_hold.
Proof. unfold feed_hold; obeys. Qed.

Lemma obeys_cycle_resume : respects rely cycle_resume.
Proof. unfold cycle_resume; obeys. Qed.

Lemma obeys_soft_reset : respects rely soft_reset.
Proof. unfold soft_reset, soft_reset_body; obeys. Qed.

Lemma obeys_abort_stream : respects rely abort_stream.
Proof. unfold abort_stream; obeys; apply obeys_soft_reset. Qed.

Lemma obeys_load_file : forall f, respects rely (load_file f).
Proof. intro f; unfold load_file; obeys. Qed.

Lemma obeys_disconnect : respects rely disconnect.
Proof. unfold disconnect; obeys. Qed.

(** The RX worker only removes entries from the inflight queue. *)
Lemma obeys_process_response : forall line,
  respects rely (_process_response line).
Proof.
  intros line g; destruct (is_ack line) eqn:E.
  - destruct (ControllerFacts.process_ack_effect g line E)
      as (Hb & _ & _ & _ & Ha & Hl & _).
    unfold exec in *; unfold rely; rewrite Hb, Ha, Hl.
    repeat split; auto; apply sum_pop0.
  - now apply keeps_obeys, keeps_process_other.
Qed.

Lemma tx_write_buffer : forall cmd g,
  same_stream g (snd (tx_write cmd g)).
Proof. intros cmd g; apply keeps_port_write. Qed.

(** *** The invariant *)

Lemma safe_rely : forall s g' gen',
  safe s -> rely (ctl s) g' -> safe (mkSys g' (tx s) gen').
Proof.
  intros s g' gen' [H1 H2] (R1 & R2 & R3); unfold safe in *; simpl.
  split; [lia|].
  destruct (tx s); auto; try lia.
  destruct H2 as [H2 [H3 | [H3 | H3]]]; (split; [lia|]); auto.
Qed.

Lemma safe_tx_step : forall timeout s, safe s -> safe (tx_step timeout s).
Proof.
  intros timeout s [H1 H2]; unfold tx_step.
  destruct (tx s) as [| |gen i cmd bu|gen i cmd bu|gen i cmd|gen i| | | | |] eqn:Epc.
  - split; [exact H1 | now rewrite Epc].
  - (* TxLoop *)
    destruct (_streaming (ctl s) && _alive (ctl s));
      [|split; simpl; auto].
    destruct (_file (ctl s)) as [f|]; [|split; simpl; auto].
    destruct (_cmd_index (ctl s) <? total f); [|split; simpl; auto].
    destruct (_abort_flag (ctl s)); [split; simpl; auto|].
    destruct (_paused (ctl s)); [split; simpl; auto|].
    destruct (nth_error (commands f) (_cmd_index (ctl s)));
      split; simpl; auto.
  - (* TxWaiting *)
    destruct (RX_BUFFER_SIZE <? bu + byte_count cmd) eqn:Efull.
    + destruct (_abort_flag (ctl s) || negb (_alive (ctl s))) eqn:Estop.
      * split; simpl; [exact H1 | split; [exact H2|]].
        apply orb_prop in Estop as [E | E]; [auto|].
        right; right; now apply negb_true_iff.
      * split; simpl; auto.
    + apply Nat.ltb_ge in Efull.
      split; simpl; [exact H1 | split; [exact H2 | now left]].
  - (* TxReady *)
    destruct H2 as [H2 H3].
    destruct (_abort_flag (ctl s) || negb (_alive (ctl s))) eqn:Estop;
      [split; simpl; auto|].
    apply orb_false_elim in Estop as [Ea El].
    apply negb_false_iff in El.
    assert (Hroom : bu + byte_count cmd <= RX_BUFFER_SIZE)
      by (destruct H3 as [H3 | [H3 | H3]]; [exact H3 | congruence | congruence]).
    pose proof (tx_write_buffer cmd (ctl s)) as Hw.
    unfold same_stream, stream_part in Hw.
    injection Hw as _ _ _ _ _ Hb _ _.
    destruct (tx_write cmd (ctl s)) as [[u|[| |]] g']; simpl in *;
      split; simpl; auto; rewrite ?Hb; auto; lia.
  - (* TxWritten *)
    split; simpl; auto.
    rewrite sum_snoc; exact H2.
  - (* TxAppended *)
    split; simpl; auto.
    destruct (gen =? file_gen s); [|exact H1].
    unfold tx_mark, update_commands.
    destruct (_file (ctl s)); exact H1.
  - split; simpl; auto.
  - split; simpl; auto.
    destruct (0 <? tx_short_ms (_threading_mode (ctl s))); exact H1.
  - destruct (_abort_flag (ctl s)); split; simpl; auto.
  - destruct (_buffer_fill (ctl s)) eqn:Eb; [split; simpl; auto; now rewrite Eb|].
    destruct timeout; split; simpl; auto; now rewrite Eb.
  - split; simpl; auto.
Qed.

Lemma safe_op_step : forall o s,
  safe s -> enabled o s = true -> safe (op_step o s).
Proof.
  intros o s Hs He.
  destruct o; unfold op_step;
    [apply safe_rely; [exact Hs|] .. | | ].
  - apply obeys_process_response.
  - destruct (_alive (ctl s)); [|apply rely_refl].
    unfold exec; eapply rely_trans;
      [|apply keeps_obeys, keeps_set_status_prop].
    rely_leaf.
  - apply keeps_obeys, keeps_send_realtime.
  - apply obeys_feed_hold.
  - apply obeys_cycle_resume.
  - apply obeys_soft_reset.
  - apply obeys_abort_stream.
  - apply keeps_obeys, keeps_send_command.
  - apply obeys_load_file.
  - apply obeys_disconnect.
  - destruct (_port (ctl s)); [rely_leaf | apply rely_refl].
  - apply keeps_obeys, keeps_send_realtime.
  - unfold exec, set_threading_mode.
    destruct (THREADING_MODES mode_name); [rely_leaf | apply rely_refl].
  - (* OpConnected *)
    destruct Hs as [H1 _]; unfold enabled in He.
    destruct (tx s); try discriminate; split; simpl; auto.
  - (* OpStart *)
    destruct Hs as [H1 _]; unfold enabled in He.
    destruct (tx s); try discriminate.
    assert (Hb : sum (_buffer_fill (exec start_stream (ctl s))) <= RX_BUFFER_SIZE).
    { unfold exec, start_stream, bind, read, ret, modify.
      destruct (negb (has_file (ctl s)) || negb (is_connected (ctl s)));
        simpl; [exact H1|].
      destruct (_streaming (ctl s)); simpl; [exact H1|].
      unfold sum; simpl; unfold RX_BUFFER_SIZE; lia. }
    destruct (has_file (ctl s) && is_connected (ctl s) &&
              negb (_streaming (ctl s))); split; simpl; auto.
Qed.

Lemma safe_start : safe start.
Proof. split; simpl; [unfold sum, RX_BUFFER_SIZE; simpl; lia | exact I]. Qed.

(** With one TX worker at a time the occupancy stays within the buffer
    size. *)
Lemma reachable_safe : forall s, reachable s -> safe s.
Proof.
  induction 1 as [|s s' _ IH Hstep]; [apply safe_start|].
  destruct Hstep as [timeout s Hpc | o s He].
  - now apply safe_tx_step.
  - now apply safe_op_step.
Qed.

End StreamFacts.

(* ================================================================== *)
(** ** Lists of commands *)
(* ================================================================== *)

Module RunFacts.
#[local] Set Implicit Arguments.
Import PyStr Num GCode Grbl Stream Run Frame ControllerFacts.
Local Open Scope grbl_scope.

Lemma update_nth_app : forall A (h : A -> A) (l r : list A) j,
  update_nth (length l + j) h (l ++ r) = l ++ update_nth j h r.
Proof.
  induction l as [|x l IH]; intros r j; simpl; [reflexivity|].
  now rewrite IH.
Qed.

Lemma mark_oldest_sent_app : forall h l c r,
  Forall (fun c => is_sent c = false) l -> is_sent c = true ->
  mark_oldest_sent h (l ++ c :: r) = l ++ h c :: r.
Proof.
  induction l as [|x l IH]; intros c r Hl Hc; simpl.
  - unfold is_sent in Hc; now rewrite Hc.
  - inversion Hl as [|? ? Hx Hl']; subst.
    unfold is_sent in Hx; rewrite Hx; now rewrite IH.
Qed.

Lemma existsb_false_Forall : forall l,
  Forall (fun c => is_sent c = false) l -> existsb is_sent l = false.
Proof.
  induction 1 as [|x l Hx _ IH]; simpl; [reflexivity|].
  now rewrite Hx, IH.
Qed.

Lemma queued_not_sent : forall l,
  Forall (fun c => status c = QUEUED) l ->
  Forall (fun c => is_sent c = false) l.
Proof.
  intros l H; eapply Forall_impl; [|exact H].
  intros c E; unfold is_sent; now rewrite E.
Qed.

(** A trip of [send_one] is six steps of the TX worker, from the test of
    its loop to the pause that ends the trip. *)
Lemma send_one_is_tx_trip : forall s g',
  tx s = TxLoop -> send_one (ctl s) = Some g' ->
  tx_step false (tx_step false (tx_step false
    (tx_step false (tx_step false (tx_step false s))))) =
  at_pc TxPacing g' s.
Proof.
  intros [g pc gen] g' Hpc; simpl in Hpc; subst pc.
  unfold send_one, current; simpl.
  destruct (_streaming g && _alive g && negb (_abort_flag g) &&
            negb (_paused g)) eqn:E; [|discriminate].
  apply andb_prop in E as [E Hp]; apply andb_prop in E as [E Ha].
  apply andb_prop in E as [Hs Hl].
  apply negb_true_iff in Hp, Ha.
  destruct (_file g) as [f|] eqn:Ef; [|discriminate].
  destruct (nth_error (commands f) (_cmd_index g)) as [cmd|] eqn:En;
    [|discriminate].
  destruct (sum (_buffer_fill g) + byte_count cmd <=? RX_BUFFER_SIZE) eqn:Er;
    [|discriminate].
  destruct (tx_write cmd g) as [[u|e] g1] eqn:Ew; [|discriminate].
  intro H; injection H as <-.
  assert (Hlt : (_cmd_index g <? total f) = true).
  { apply Nat.ltb_lt; unfold total.
    apply nth_error_Some; congruence. }
  assert (Hfull : (RX_BUFFER_SIZE <? sum (_buffer_fill g) + byte_count cmd) = false).
  { apply Nat.ltb_ge; now apply Nat.leb_le. }
  unfold tx_step at 6; simpl.
  rewrite Hs, Hl, Ef, Hlt, Ha, Hp, En; simpl.
  unfold tx_step at 5; simpl; rewrite Hfull.
  unfold tx_step at 4; simpl; rewrite Ha, Hl, Ew; simpl.
  unfold tx_step; simpl.
  now rewrite Nat.eqb_refl.
Qed.

End RunFacts.

(* ================================================================== *)
(** ** The controller, one method at a time *)
(* ================================================================== *)

Import Grbl.
Local Open Scope grbl_scope.


(** C10.  When no program is loaded, or the port is not connected, or a
    stream is already in progress, [start_stream] returns at once and
    leaves the controller as it was: nothing is written, no command
    status is reset, and the cursor, the inflight queue and the flags
    keep their values. *)
Theorem start_stream_refused : forall g : Controller,
  has_file g = false \/ is_connected g = false \/ _streaming g = true ->
  start_stream g = (Return tt, g).
Proof.
  intros g H; unfold start_stream, bind, read, ret.
  destruct (has_file g), (is_connected g); simpl; try reflexivity.
  destruct H as [H | [H | H]]; try discriminate.
  now rewrite H.
Qed.

Lemma start_stream_refused_witness :
  (has_file Grbl.init = false \/ is_connected Grbl.init = false \/
   _streaming Grbl.init = true) /\
  start_stream Grbl.init = (Return tt, Grbl.init).
Proof.
  split; [left; reflexivity|].
  apply (start_stream_refused Grbl.init); left; reflexivity.
Defined.

(** C9.  An [ok] or [error:N] line that is processed when no command is
    in SENT state and the inflight queue is empty leaves the program
    (the status and the error code of every command), the inflight
    queue, the cursor and the three streaming flags as they were. *)
Theorem stray_ack_is_dropped : forall (g : Controller) (line : str),
  is_ack line = true ->
  has_sent g = false ->
  _buffer_fill g = [] ->
  let g' := exec (_process_response line) g in
  _file g' = _file g /\
  _buffer_fill g' = _buffer_fill g /\
  _cmd_index g' = _cmd_index g /\
  _streaming g' = _streaming g /\
  _paused g' = _paused g /\
  _abort_flag g' = _abort_flag g.
Proof.
  intros g line Hack Hsent Hbuf; cbv zeta.
  destruct (ControllerFacts.process_ack_effect g line Hack)
    as (Hb & Hc & Hs & Hp & Ha & _ & _ & Hf).
  rewrite Hb, Hc, Hs, Hp, Ha, Hf, Hbuf.
  repeat split.
  unfold has_sent in Hsent.
  destruct (_file g) as [f|]; [|reflexivity].
  destruct (_streaming g); [|reflexivity].
  now rewrite ControllerFacts.mark_oldest_sent_none, ControllerFacts.file_eta.
Qed.

Lemma stray_ack_is_dropped_witness :
  let g := exec (load_file (from_lines [text "G0 X10"] (text "job")))
                Grbl.init in
  let g' := exec (_process_response (text "error:20")) g in
  _file g' = _file g /\
  _buffer_fill g' = _buffer_fill g /\
  _cmd_index g' = _cmd_index g /\
  _streaming g' = _streaming g /\
  _paused g' = _paused g /\
  _abort_flag g' = _abort_flag g.
Proof.
  apply (stray_ack_is_dropped
           (exec (load_file (from_lines [text "G0 X10"] (text "job")))
                 Grbl.init)
           (text "error:20")); reflexivity.
Defined.

(** C8.  With the port open and accepting writes, [abort_stream] goes
    through these states, in this order: the abort flag is set (and the
    streaming flag cleared); the byte 0x18 is written; (the streaming
    flag is cleared again;) the inflight queue is emptied; the status is
    set to IDLE; 500 ms pass; the line "M5" is written; the line
    "G0 X0 Y0" is written.  The two lines go out through
    [send_command]: nothing is added to the inflight queue for them. *)
Theorem abort_stream_sequence : forall (g : Controller) (p : Port),
  _port g = Some p -> is_open p = true -> healthy p = true ->
  let g1 := with_abort_flag true g in
  let g2 := with_streaming false g1 in
  let g3 := emit (EvWrite [ascii_of_nat 24]) g2 in
  let g4 := with_streaming false g3 in
  let g5 := with_buffer_fill [] g4 in
  let g6 := exec (set_status_prop IDLE) g5 in
  let g7 := emit (EvSleep 500) g6 in
  let g8 := emit (EvWrite (text "M5" ++ [ch_newline])) g7 in
  let g9 := emit (EvWrite (text "G0 X0 Y0" ++ [ch_newline])) g8 in
  history abort_stream_statements g = [g1; g2; g3; g4; g5; g6; g7; g8; g9] /\
  abort_stream g = (Return tt, g9) /\
  _status g9 = IDLE /\ _buffer_fill g9 = [] /\
  _abort_flag g9 = true /\ _streaming g9 = false.
Proof.
  intros g p Hp Ho Hh.
  destruct g as [port st mode mx my mz wx wy wz ver fr sp file str pau ab
                 idx buf al ev tr].
  simpl in Hp; subst port; destruct p as [o h]; simpl in Ho, Hh; subst o h.
  cbv zeta.
  destruct st; vm_compute; repeat split.
Qed.

Lemma abort_stream_sequence_witness :
  let g := with_port (Some (mkPort true true)) Grbl.init in
  trace (exec abort_stream g) =
  [ EvWrite [ascii_of_nat 24]; EvStatusChange IDLE; EvSleep 500;
    EvWrite (text "M5" ++ [ch_newline]);
    EvWrite (text "G0 X0 Y0" ++ [ch_newline]) ].
Proof.
  pose proof (abort_stream_sequence
                (with_port (Some (mkPort true true)) Grbl.init)
                (mkPort true true) eq_refl eq_refl eq_refl) as H.
  cbv zeta in H; destruct H as (_ & H & _).
  cbv zeta; unfold exec; rewrite H; reflexivity.
Defined.

(** C4, the defect.  On a fresh controller the report
    "<Run|MPos:10.000,5.000,7.000|WCO:1.000,2.000,3.000>" sets the
    machine position to (10, 5, 7) and the work position to (9, 3, 0):
    the [WCO] branch computes [work_x] and [work_y] and leaves
    [work_z], which is not machine z minus offset z = 4. *)
Theorem wco_report_leaves_work_z :
  let g := exec (_process_response
                   (text "<Run|MPos:10.000,5.000,7.000|WCO:1.000,2.000,3.000>"))
                Grbl.init in
  _status g = RUN /\
  (machine_x g, machine_y g, machine_z g) = (10%Q, 5%Q, 7%Q) /\
  (work_x g, work_y g, work_z g) = (9%Q, 3%Q, 0%Q) /\
  work_z g <> qsub (machine_z g) 3%Q.
Proof.
  cbv zeta; repeat split; try reflexivity.
  vm_compute; discriminate.
Qed.

(** The sixth scenario of the specification holds as it is written. *)
Lemma wco_report_scenario :
  let g := exec (_process_response
                   (text "<Run|MPos:10.000,5.000,0.000|WCO:1.000,2.000,0.000>"))
                Grbl.init in
  _status g = RUN /\
  (machine_x g, machine_y g, machine_z g) = (10%Q, 5%Q, 0%Q) /\
  (work_x g, work_y g, work_z g) = (9%Q, 3%Q, 0%Q).
Proof. cbv zeta; repeat split; reflexivity. Qed.

(** In every state, a [WCO] field with two coordinates or more that
    [float] reads sets [work_x] and [work_y] from the machine position
    and keeps [work_z]. *)
Lemma wco_field_effect : forall (g : Controller) (part : str) (wx wy : Q),
  startswith (text "WCO:") part = true ->
  let coords := split ","%char (skipn 4 part) in
  2 <= length coords ->
  py_float (item coords 0) = Some wx ->
  py_float (item coords 1) = Some wy ->
  let g' := exec (parse_field part) g in
  work_x g' = qsub (machine_x g) wx /\
  work_y g' = qsub (machine_y g) wy /\
  work_z g' = work_z g.
Proof.
  intros g part wx wy Hs coords Hlen Hx Hy; cbv zeta.
  assert (Hhead : exists rest, part = "W"%char :: "C"%char :: rest).
  { change (text "WCO:") with ("W"%char :: "C"%char :: text "O:") in Hs.
    destruct (ControllerFacts.startswith_head _ _ _ Hs) as (r1 & -> & H1).
    destruct (ControllerFacts.startswith_head _ _ _ H1) as (r2 & -> & _).
    now exists r2. }
  assert (E1 : startswith (text "MPos:") part = false)
    by (destruct Hhead as [rest ->]; reflexivity).
  assert (E2 : startswith (text "WPos:") part = false)
    by (destruct Hhead as [rest ->]; reflexivity).
  unfold exec, parse_field; rewrite E1, E2, Hs.
  fold coords.
  apply Nat.leb_le in Hlen; rewrite Hlen.
  unfold when, bind, to_float; rewrite Hx, Hy; simpl; auto.
Qed.

(* ================================================================== *)
(** ** Schedules *)
(* ================================================================== *)

Module PoolFacts.
Import PyStr Num GCode Grbl Stream Run Surface Pool.

Lemma play_reached : forall ms p, reached p -> reached (play ms p).
Proof.
  induction ms as [|m ms IH]; intros p H; simpl; [exact H|].
  apply IH; now constructor.
Qed.

Lemma play_app : forall ms ms' p, play (ms ++ ms') p = play ms' (play ms p).
Proof. intros ms ms' p; unfold play; apply fold_left_app. Qed.

Lemma play_cons : forall m ms p, play (m :: ms) p = play ms (move m p).
Proof. reflexivity. Qed.

(** The steps when one worker is there. *)
Lemma worker_alone : forall t g pc n,
  worker_step 0 t (mkThreads g [pc] n) =
  mkThreads (ctl (worker_tx t (mkSys g pc n)))
            [tx (worker_tx t (mkSys g pc n))] n.
Proof. reflexivity. Qed.

Lemma receive_alone : forall line g pc n,
  method_step (OpReceive line) (mkThreads g [pc] n) =
  mkThreads (exec (_process_response line) g) [pc] n.
Proof. reflexivity. Qed.

(** The failure of [byte_count] is at the fetch. *)
Lemma worker_tx_dies : forall t s,
  worker_tx t s = tx_step t s \/
  (tx s = TxLoop /\ worker_tx t s = at_pc TxNone (ctl s) s).
Proof.
  intros t s; unfold worker_tx.
  destruct (tx s); auto.
  destruct (tx (tx_step t s)); auto.
  destruct (encodable cmd); auto.
Qed.

End PoolFacts.

(* ================================================================== *)
(** ** Streaming *)
(* ================================================================== *)

Import Stream Run Surface Pool.

(** C1, the defect.  A job of five lines of 30 bytes is started, and its
    TX worker fetches the first command, reads an occupancy of 0 and
    finds room.  [soft_reset] turns [_streaming] off and [start_stream]
    starts the job again, with a second worker, while the first one is
    still in [_tx_loop].  The second worker sends four commands, 120
    bytes; the first worker, past its test, then writes its command and
    appends its cost.  The job is streaming and the costs in the inflight
    queue add up to 150, more than [RX_BUFFER_SIZE] = 128. *)
Theorem inflight_exceeds_rx_buffer :
  let job := from_lines (repeat (text "G1 X10.000 Y20.000 F1000 S500") 5)
                        (text "job") in
  let schedule :=
    [Call (OpConnected (mkPort true true)); Call (OpLoad job); Call OpStart]
    ++ steps 0 2
    ++ [Call OpSoftReset; Call OpStart]
    ++ steps 1 28
    ++ steps 0 2 in
  let p := play schedule begin in
  reached p /\
  _streaming (shared p) = true /\
  workers p = [TxAppended 1 0; TxLoop] /\
  _buffer_fill (shared p) = [30; 30; 30; 30; 30] /\
  RX_BUFFER_SIZE < sum (_buffer_fill (shared p)).
Proof.
  cbv zeta; split; [apply PoolFacts.play_reached; constructor|].
  vm_compute; repeat split; repeat constructor.
Qed.




(* ================================================================== *)
(** ** Further properties of the program model *)
(* ================================================================== *)

Import Surface.

Module ProgramFacts.
Import PyStr PyStrFacts Num GCode Grbl Spec Surface.

Lemma count_reset : forall (p : GCodeCommand -> bool) l,
  (forall c, p (mkCommand (raw c) QUEUED None) = false) ->
  length (filter p (map (fun c => mkCommand (raw c) QUEUED None) l)) = 0.
Proof.
  intros p l H; induction l as [|c l IH]; simpl; [reflexivity|].
  now rewrite H.
Qed.

(** The steps of the two loops look at the raw text only. *)
Lemma stripped_raw : forall c c', raw c = raw c' -> stripped c = stripped c'.
Proof. intros c c' H; unfold stripped; now rewrite H. Qed.

Lemma get_param_raw : forall L c c',
  raw c = raw c' -> get_param L c = get_param L c'.
Proof. intros L c c' H; unfold get_param; now rewrite (stripped_raw _ _ H). Qed.

Lemma param_raw : forall L c c',
  raw c = raw c' -> param L c = param L c'.
Proof. intros L c c' H; unfold param; now rewrite (get_param_raw L _ _ H). Qed.

Lemma is_movement_raw : forall c c',
  raw c = raw c' -> is_movement c = is_movement c'.
Proof. intros c c' H; unfold is_movement; now rewrite (stripped_raw _ _ H). Qed.

Lemma bounds_step_raw : forall a c c',
  raw c = raw c' -> bounds_step a c = bounds_step a c'.
Proof.
  intros a c c' H; unfold bounds_step.
  now rewrite (param_raw "X"%char _ _ H), (param_raw "Y"%char _ _ H),
    (is_movement_raw _ _ H).
Qed.

Lemma toolpath_step_raw : forall a c c',
  raw c = raw c' -> toolpath_step a c = toolpath_step a c'.
Proof.
  intros a c c' H; unfold toolpath_step, is_laser_on, is_laser_off.
  now rewrite (param_raw "X"%char _ _ H), (param_raw "Y"%char _ _ H),
    (param_raw "S"%char _ _ H), (is_movement_raw _ _ H), (stripped_raw _ _ H).
Qed.

Lemma fold_left_raw : forall A (step : A -> GCodeCommand -> A),
  (forall a c c', raw c = raw c' -> step a c = step a c') ->
  forall l l' a, map raw l = map raw l' ->
                 fold_left step l a = fold_left step l' a.
Proof.
  intros A step H; induction l as [|c l IH]; intros [|c' l'] a E;
    try discriminate; [reflexivity|].
  simpl in *; injection E as E1 E2.
  rewrite (H a c c' E1); now apply IH.
Qed.

Lemma toolpath_length : forall l a,
  length (points (fold_left toolpath_step l a)) =
  length (points a) + length (filter is_movement l).
Proof.
  induction l as [|c l IH]; intro a; simpl; [lia|].
  rewrite IH; unfold toolpath_step.
  destruct (is_movement c); simpl; [rewrite length_app; simpl; lia | lia].
Qed.

Lemma filter_length_le : forall A (p : A -> bool) l,
  length (filter p l) <= length l.
Proof.
  induction l as [|x l IH]; simpl; [lia|].
  destruct (p x); simpl; lia.
Qed.

End ProgramFacts.

(** X1.  [reset_status] puts every command back to QUEUED with no error
    code and keeps the raw lines: the three counters are 0 afterwards
    and the number of commands is what it was. *)
Theorem reset_status_clears_counters : forall f : GCodeFile,
  total (reset_status f) = total f /\
  sent_count (reset_status f) = 0 /\
  ok_count (reset_status f) = 0 /\
  error_count (reset_status f) = 0 /\
  map raw (commands (reset_status f)) = map raw (commands f) /\
  Forall (fun c => status c = QUEUED /\ error_code c = None)
         (commands (reset_status f)).
Proof.
  intro f; unfold total, sent_count, ok_count, error_count, count, reset_status;
    simpl.
  repeat split.
  - apply length_map.
  - now apply ProgramFacts.count_reset.
  - now apply ProgramFacts.count_reset.
  - now apply ProgramFacts.count_reset.
  - rewrite map_map; apply map_ext; reflexivity.
  - apply Forall_map, Forall_forall; intros; simpl; auto.
Qed.

(** X2.  The counters split the program: a command counted as sent is
    OK, ERROR or still SENT, so [sent_count] is the sum of [ok_count],
    [error_count] and the number of SENT commands, and it never exceeds
    [total]. *)
Theorem counters_partition : forall f : GCodeFile,
  sent_count f =
  ok_count f + error_count f + length (filter is_sent (commands f)) /\
  sent_count f <= total f.
Proof.
  intro f; unfold sent_count, ok_count, error_count, count, total; split.
  - induction (commands f) as [|c l IH]; simpl; [reflexivity|].
    unfold is_sent in *; destruct (status c); simpl; lia.
  - apply ProgramFacts.filter_length_le.
Qed.

(** X3.  The bounding box and the tool path depend on the raw lines
    only: two programs with the same raw lines, whatever the status and
    error code of their commands, have the same bounds and the same tool
    path. *)
Theorem preview_ignores_status : forall f f' : GCodeFile,
  map raw (commands f) = map raw (commands f') ->
  get_bounds f = get_bounds f' /\ get_toolpath f = get_toolpath f'.
Proof.
  intros f f' H; unfold get_bounds, get_toolpath.
  rewrite (ProgramFacts.fold_left_raw _ _ ProgramFacts.bounds_step_raw _ _ _ H).
  now rewrite (ProgramFacts.fold_left_raw _ _ ProgramFacts.toolpath_step_raw _ _ _ H).
Qed.

Lemma preview_ignores_status_witness :
  let f := from_lines [text "G0 X10 Y5"; text "M3 S100"; text "G1 X-2.5"]
                      (text "job") in
  let f' := mkFile (map (set_status OK) (commands f)) (filename f) in
  get_bounds f = get_bounds f' /\ get_toolpath f = get_toolpath f'.
Proof.
  cbv zeta.
  apply (preview_ignores_status
           (from_lines [text "G0 X10 Y5"; text "M3 S100"; text "G1 X-2.5"]
                       (text "job"))
           (mkFile (map (set_status OK)
                        (commands (from_lines [text "G0 X10 Y5";
                                               text "M3 S100";
                                               text "G1 X-2.5"] (text "job"))))
                   (text "job"))).
  vm_compute; reflexivity.
Defined.

(** X4.  What [get_bounds] returns, for every program: when some motion
    command ends at an [x] below [inf], the component-wise minimum and
    maximum of the end positions of the motion commands (a side is
    infinite when a number of the program is too large for a float);
    otherwise, when there is no motion command or every one of them ends
    at [x = inf], (0, 0, 0, 0).  In both cases the minimum of an axis is
    at most its maximum. *)
Theorem get_bounds_effect : forall f : GCodeFile,
  bounds_effect (commands f) (get_bounds f) /\
  let '(x0, y0, x1, y1) := get_bounds f in xle x0 x1 /\ xle y0 y1.
Proof.
  intros [l nm].
  pose proof (PathFacts.bounds_meets_effect l) as H.
  change (get_bounds (mkFile l nm)) with (get_bounds (mkFile l [])).
  split; [exact H|].
  destruct H as (pts & _ & [[_ ->] | [_ (x0 & y0 & x1 & y1 & -> & Hbox)]]);
    [split; apply PathFacts.xle_refl|].
  destruct Hbox as (Hall & (p & Hp & <-) & (q & Hq & <-) & _).
  rewrite Forall_forall in Hall.
  destruct (Hall p Hp) as (_ & A & _), (Hall q Hq) as (_ & _ & _ & B).
  now split.
Qed.

(** X5.  The tool path has one point for each command whose normalized
    text begins with G0, G1, G2 or G3, so it is never longer than the
    program. *)
Theorem get_toolpath_length : forall f : GCodeFile,
  length (get_toolpath f) = length (filter is_movement (commands f)) /\
  length (get_toolpath f) <= total f.
Proof.
  intro f; unfold get_toolpath, total.
  rewrite ProgramFacts.toolpath_length; simpl; split; [reflexivity|].
  apply ProgramFacts.filter_length_le.
Qed.

(* ------------------------------------------------------------------ *)
(** *** Loading a program *)
(* ------------------------------------------------------------------ *)

Module LoadFacts.
Import PyStr PyStrFacts Num GCode Grbl Spec Surface.

Lemma space_not_lparen : forall c,
  isspace c = true -> Ascii.eqb c ch_lparen = false.
Proof. intro c; each_char c; discriminate. Qed.

Lemma space_not_rparen : forall c,
  isspace c = true -> Ascii.eqb c ch_rparen = false.
Proof. intro c; each_char c; discriminate. Qed.

Lemma space_not_semi : forall c,
  isspace c = true -> Ascii.eqb c ch_semi = false.
Proof. intro c; each_char c; discriminate. Qed.

Lemma drop_while_blanks : forall a s,
  blanks a -> drop_while isspace (a ++ s) = drop_while isspace s.
Proof.
  unfold blanks; induction a as [|c a IH]; intros s H; simpl in *;
    [reflexivity|].
  apply andb_prop in H as [Hc Ha]; rewrite Hc; now apply IH.
Qed.

Lemma blanks_rev : forall b, blanks b -> blanks (rev b).
Proof.
  unfold blanks; intros b H; rewrite forallb_forall in *.
  intros x Hx; apply H; now apply in_rev.
Qed.

Lemma rstrip_blanks : forall s b, blanks b -> rstrip (s ++ b) = rstrip s.
Proof.
  intros s b H; unfold rstrip.
  rewrite rev_app_distr, drop_while_blanks; [reflexivity|].
  now apply blanks_rev.
Qed.

Lemma drop_while_app_blanks : forall s b,
  blanks b ->
  exists b', blanks b' /\
             drop_while isspace (s ++ b) = drop_while isspace s ++ b'.
Proof.
  induction s as [|c s IH]; intros b H; simpl.
  - exists []; split; [reflexivity|].
    rewrite <- (app_nil_r b) at 1.
    now rewrite drop_while_blanks.
  - destruct (isspace c); [now apply IH|].
    exists b; now split.
Qed.

Lemma strip_blanks : forall a s b,
  blanks a -> blanks b -> strip (a ++ s ++ b) = strip s.
Proof.
  intros a s b Ha Hb; unfold strip, lstrip.
  rewrite (drop_while_blanks _ _ Ha).
  destruct (drop_while_app_blanks s _ Hb) as (b' & Hb' & E).
  rewrite E; now apply rstrip_blanks.
Qed.

(** The text around [strip s] is blank. *)
Lemma drop_while_prefix_blanks : forall s,
  exists a, blanks a /\ s = a ++ drop_while isspace s.
Proof.
  induction s as [|c s (a & Ha & E)]; simpl.
  - exists []; now split.
  - destruct (isspace c) eqn:Ec.
    + exists (c :: a); split; [unfold blanks in *; simpl; now rewrite Ec|].
      simpl; now rewrite <- E.
    + exists []; now split.
Qed.

Lemma strip_infix_blanks : forall s,
  exists a b, blanks a /\ blanks b /\ s = a ++ strip s ++ b.
Proof.
  intro s; unfold strip, lstrip, rstrip.
  destruct (drop_while_prefix_blanks s) as (a & Ha & E).
  destruct (drop_while_prefix_blanks (rev (drop_while isspace s)))
    as (b & Hb & E').
  exists a, (rev b); split; [exact Ha|]; split; [now apply blanks_rev|].
  rewrite <- rev_app_distr, <- E', rev_involutive; exact E.
Qed.

Lemma close_idx_lt : forall s n, close_idx s = Some n -> n < length s.
Proof.
  induction s as [|c r IH]; simpl; intros n H; [discriminate|].
  destruct (Ascii.eqb c ch_rparen); [injection H as <-; lia|].
  destruct (Ascii.eqb c ch_newline); [discriminate|].
  destruct (close_idx r) as [m|]; [|discriminate].
  injection H as <-; specialize (IH m eq_refl); lia.
Qed.

Lemma close_idx_blanks : forall b, blanks b -> close_idx b = None.
Proof.
  unfold blanks; induction b as [|c b IH]; simpl; intro H; [reflexivity|].
  apply andb_prop in H as [Hc Hb].
  rewrite (space_not_rparen _ Hc), (IH Hb).
  now destruct (Ascii.eqb c ch_newline).
Qed.

Lemma close_idx_app_blanks : forall s b,
  blanks b -> close_idx (s ++ b) = close_idx s.
Proof.
  induction s as [|c r IH]; intros b H; simpl;
    [now apply close_idx_blanks|].
  now rewrite IH.
Qed.

Lemma sub_parens_blanks_l : forall a s,
  blanks a -> sub_parens (a ++ s) = a ++ sub_parens s.
Proof.
  unfold blanks, sub_parens; induction a as [|c a IH]; intros s H; simpl in *;
    [reflexivity|].
  apply andb_prop in H as [Hc Ha].
  rewrite (space_not_lparen _ Hc); f_equal; now apply IH.
Qed.

Lemma sub_parens_blanks : forall b, blanks b -> sub_parens b = b.
Proof.
  intros b H; rewrite <- (app_nil_r b) at 1.
  rewrite (sub_parens_blanks_l _ _ H); apply app_nil_r.
Qed.

Lemma sub_parens_blanks_r : forall b, blanks b ->
  forall n s, length s <= n -> sub_parens (s ++ b) = sub_parens s ++ b.
Proof.
  intros b Hb; induction n as [|n IH]; intros [|c r] Hl; simpl in Hl;
    try lia; try (simpl; now apply sub_parens_blanks).
  unfold sub_parens; simpl.
  rewrite (close_idx_app_blanks _ _ Hb).
  fold (sub_parens (r ++ b)); fold (sub_parens r).
  assert (Hr : sub_parens (r ++ b) = sub_parens r ++ b) by (apply IH; lia).
  destruct (Ascii.eqb c ch_lparen); [|now rewrite Hr].
  destruct (close_idx r) as [m|] eqn:Em; [|now rewrite Hr].
  apply close_idx_lt in Em.
  rewrite !sub_parens_from_skipn.
  rewrite skipn_app.
  replace (S m - length r) with 0 by lia; simpl skipn at 2.
  apply IH.
  rewrite length_skipn; lia.
Qed.

Lemma split_head_blanks_l : forall a s,
  blanks a -> split_head ch_semi (a ++ s) = a ++ split_head ch_semi s.
Proof.
  unfold blanks, split_head; induction a as [|c a IH]; intros s H; simpl in *;
    [reflexivity|].
  apply andb_prop in H as [Hc Ha].
  rewrite (space_not_semi _ Hc); simpl; f_equal; now apply IH.
Qed.

Lemma split_head_blanks_r : forall s b,
  blanks b ->
  exists b', blanks b' /\
             split_head ch_semi (s ++ b) = split_head ch_semi s ++ b'.
Proof.
  unfold split_head; induction s as [|c s IH]; intros b H; simpl.
  - exists b; split; [exact H|].
    apply take_while_all.
    unfold blanks in H; rewrite forallb_forall in *; intros x Hx.
    now rewrite (space_not_semi _ (H x Hx)).
  - destruct (Ascii.eqb c ch_semi); simpl.
    + exists []; now split.
    + destruct (IH b H) as (b' & Hb' & E).
      exists b'; split; [exact Hb'|]; now rewrite E.
Qed.

(** Blanks around a line do not change its normalized text. *)
Lemma normalize_blanks : forall a s b,
  blanks a -> blanks b -> normalize (a ++ s ++ b) = normalize s.
Proof.
  intros a s b Ha Hb; unfold normalize.
  rewrite (sub_parens_blanks_l _ _ Ha).
  rewrite (sub_parens_blanks_r b Hb (length s) s (le_n _)).
  rewrite (split_head_blanks_l _ _ Ha).
  destruct (split_head_blanks_r (sub_parens s) _ Hb) as (b' & Hb' & E).
  rewrite E, (strip_blanks _ _ _ Ha Hb'); reflexivity.
Qed.

Lemma normalize_strip : forall l, normalize (strip l) = normalize l.
Proof.
  intro l.
  destruct (strip_infix_blanks l) as (a & b & Ha & Hb & E).
  rewrite E at 2; symmetry; now apply normalize_blanks.
Qed.


Lemma keep_line_some : forall l c,
  keep_line l = Some c ->
  c = new_command (strip l) /\ nonempty (normalize l) = true.
Proof.
  intros l c; unfold keep_line.
  destruct (strip l) as [|x r] eqn:E; [discriminate|].
  unfold is_empty, stripped, nonempty; simpl raw.
  rewrite <- (normalize_strip l), E.
  destruct (Nat.eqb _ 0); [discriminate|].
  intro H; injection H as <-; now split.
Qed.


Lemma keep_line_again : forall l c,
  keep_line l = Some c -> keep_line (raw c) = Some c.
Proof.
  intros l c H.
  pose proof H as H'; apply keep_line_some in H' as [-> _].
  simpl raw; unfold keep_line in *.
  rewrite strip_idem.
  destruct (strip l); [discriminate | exact H].
Qed.

Lemma upper_char_not_lower : forall c, is_lower (upper_char c) = false.
Proof. intro c; each_char c. Qed.

Lemma upper_char_newline : forall c,
  not_newline (upper_char c) = not_newline c.
Proof. intro c; each_char c. Qed.

Lemma forallb_infix : forall (p : ascii -> bool) a s b,
  forallb p (a ++ s ++ b) = true -> forallb p s = true.
Proof.
  intros p a s b H.
  rewrite !forallb_app in H.
  apply andb_prop in H as [_ H]; now apply andb_prop in H as [H _].
Qed.

Lemma forallb_sub_parens : forall (p : ascii -> bool) n s,
  length s <= n -> forallb p s = true -> forallb p (sub_parens s) = true.
Proof.
  intros p; induction n as [|n IH]; intros [|c r] Hl H; simpl in Hl;
    try lia; try reflexivity.
  simpl in H; apply andb_prop in H as [Hc Hr].
  unfold sub_parens; simpl.
  assert (Hk : forallb p (c :: sub_parens_from 0 r) = true).
  { simpl; rewrite Hc; apply IH; [lia | exact Hr]. }
  destruct (Ascii.eqb c ch_lparen); [|exact Hk].
  destruct (close_idx r) as [m|]; [|exact Hk].
  rewrite sub_parens_from_skipn; apply IH.
  - rewrite length_skipn; lia.
  - rewrite <- (firstn_skipn (S m) r), forallb_app in Hr.
    now apply andb_prop in Hr as [_ Hr].
Qed.

Lemma forallb_take_while_of : forall (p q : ascii -> bool) s,
  forallb p s = true -> forallb p (take_while q s) = true.
Proof.
  intros p q; induction s as [|c r IH]; simpl; intro H; [reflexivity|].
  apply andb_prop in H as [Hc Hr].
  destruct (q c); simpl; [rewrite Hc; now apply IH | reflexivity].
Qed.

(** Normalizing keeps no character that the raw line does not have, up
    to the change of case. *)
Lemma forallb_normalize : forall (p : ascii -> bool) L,
  (forall c, p (upper_char c) = p c) ->
  forallb p L = true -> forallb p (normalize L) = true.
Proof.
  intros p L Hp H; unfold normalize.
  destruct (strip_infix (split_head ch_semi (sub_parens L))) as (a & b & E).
  assert (Hs : forallb p (strip (split_head ch_semi (sub_parens L))) = true).
  { apply (forallb_infix p a _ b); rewrite <- E.
    apply forallb_take_while_of.
    now apply (forallb_sub_parens p (length L) L (le_n _)). }
  unfold upper; rewrite forallb_forall in *.
  intros x Hx; apply in_map_iff in Hx as (y & <- & Hy).
  rewrite Hp; now apply Hs.
Qed.


(** *** The bytes of a command *)

Lemma upper_char_ascii : forall c, is_ascii (upper_char c) = is_ascii c.
Proof. intro c; each_char c. Qed.

Lemma take_while_length : forall (q : ascii -> bool) s,
  length (take_while q s) <= length s.
Proof.
  intros q; induction s as [|c r IH]; simpl; [lia|].
  destruct (q c); simpl; lia.
Qed.

Lemma sub_parens_length : forall n s,
  length s <= n -> length (sub_parens s) <= length s.
Proof.
  induction n as [|n IH]; intros [|c r] Hl; simpl in Hl; try lia;
    try (simpl; lia).
  unfold sub_parens; simpl.
  assert (Hk : length (c :: sub_parens_from 0 r) <= S (length r)).
  { simpl; apply le_n_S; apply IH; lia. }
  destruct (Ascii.eqb c ch_lparen); [|exact Hk].
  destruct (close_idx r) as [m|]; [|exact Hk].
  rewrite sub_parens_from_skipn.
  assert (H := IH (skipn (S m) r)).
  rewrite length_skipn in H.
  fold (sub_parens (skipn (S m) r)); lia.
Qed.

Lemma normalize_length : forall l, length (normalize l) <= length l.
Proof.
  intro l; unfold normalize, upper; rewrite length_map.
  destruct (strip_infix (split_head ch_semi (sub_parens l))) as (a & b & E).
  pose proof (take_while_length (fun c => negb (Ascii.eqb c ch_semi)) (sub_parens l)) as H1.
  pose proof (sub_parens_length (length l) l (le_n _)) as H2.
  unfold split_head in *.
  apply (f_equal (@length _)) in E; rewrite !length_app in E.
  lia.
Qed.

End LoadFacts.

(** X6.  The normalized text of a line has no [";"], no comment in
    parentheses, no lower-case letter and no blank at either end. *)
Theorem normalize_output_shape : forall L : str,
  no_semi (normalize L) = true /\
  has_comment (normalize L) = false /\
  forallb (fun c => negb (is_lower c)) (normalize L) = true /\
  strip (normalize L) = normalize L.
Proof.
  intro L; split; [apply NormalizeFacts.normalize_has_no_semi|].
  split; [apply NormalizeFacts.normalize_has_no_comment|].
  unfold normalize; split.
  - unfold upper; rewrite forallb_forall; intros x Hx.
    apply in_map_iff in Hx as (y & <- & _).
    now rewrite LoadFacts.upper_char_not_lower.
  - now rewrite strip_upper, strip_idem.
Qed.

(** X7.  Blanks around a raw line do not matter: the normalized text of
    the trimmed line is that of the line, also when the blanks are line
    breaks next to a comment in parentheses. *)
Theorem normalize_ignores_outer_blanks : forall l : str,
  normalize (strip l) = normalize l.
Proof. exact LoadFacts.normalize_strip. Qed.


(** X9.  Loading is stable: building a program again from the raw lines
    of a program that [from_lines] built gives the same program. *)
Theorem from_lines_reload : forall (lines : list str) (name : str),
  from_lines (map raw (commands (from_lines lines name))) name =
  from_lines lines name.
Proof.
  intros lines name; unfold from_lines; simpl; f_equal.
  induction lines as [|l ls IH]; simpl; [reflexivity|].
  destruct (keep_line l) as [c|] eqn:E; [|exact IH].
  simpl; rewrite (LoadFacts.keep_line_again _ _ E); now rewrite IH.
Qed.

(** X10.  A command made from one line of ASCII text goes out as one
    line: when the raw text has no character above 127 and no line
    break, [encode] accepts the normalized text, [serial_bytes] is that
    text, which has no line break either, followed by a single newline,
    all of it ASCII, and [byte_count] is one more than the length of the
    normalized text, at most one more than the length of the raw
    line. *)
Theorem serial_bytes_one_line : forall c : GCodeCommand,
  forallb is_ascii (raw c) = true ->
  forallb not_newline (raw c) = true ->
  encodable c = true /\
  serial_bytes c = stripped c ++ [ch_newline] /\
  forallb is_ascii (serial_bytes c) = true /\
  forallb not_newline (stripped c) = true /\
  byte_count c = S (length (stripped c)) /\
  byte_count c <= S (length (raw c)).
Proof.
  intros c Ha H.
  assert (He : forallb is_ascii (stripped c) = true)
    by (apply LoadFacts.forallb_normalize;
        [apply LoadFacts.upper_char_ascii | exact Ha]).
  unfold encodable, byte_count, serial_bytes.
  split; [exact He|]; split; [reflexivity|]; split.
  { rewrite forallb_app, He; reflexivity. }
  split.
  { apply LoadFacts.forallb_normalize;
      [apply LoadFacts.upper_char_newline | exact H]. }
  rewrite length_app; simpl; unfold stripped.
  pose proof (LoadFacts.normalize_length (raw c)); lia.
Qed.

Lemma serial_bytes_one_line_witness :
  let c := new_command (text "g1 x10 (cut) y5 ; first pass") in
  encodable c = true /\
  serial_bytes c = stripped c ++ [ch_newline] /\
  forallb is_ascii (serial_bytes c) = true /\
  forallb not_newline (stripped c) = true /\
  byte_count c = S (length (stripped c)) /\
  byte_count c <= S (length (raw c)).
Proof.
  cbv zeta.
  apply (serial_bytes_one_line
           (new_command (text "g1 x10 (cut) y5 ; first pass")));
    vm_compute; reflexivity.
Defined.

(* ================================================================== *)
(** ** Further properties of the controller *)
(* ================================================================== *)

Module MethodFacts.
Import PyStr PyStrFacts Num GCode Grbl Stream Run Surface.
Local Open Scope grbl_scope.

Lemma written_app : forall a b, written (a ++ b) = written a ++ written b.
Proof.
  induction a as [|e a IH]; intro b; simpl; [reflexivity|].
  destruct e; simpl; now rewrite IH.
Qed.

Lemma reset_status_idem : forall f,
  reset_status (reset_status f) = reset_status f.
Proof.
  intro f; unfold reset_status; simpl; f_equal.
  rewrite map_map; reflexivity.
Qed.

(** The counters after the oldest SENT command is given the status
    [st]. *)
Lemma count_mark_oldest : forall (p : CommandStatus -> bool) h st l,
  (forall c, status (h c) = st) ->
  existsb is_sent l = true ->
  length (filter (fun c => p (status c)) (mark_oldest_sent h l)) +
  (if p SENT then 1 else 0) =
  length (filter (fun c => p (status c)) l) + (if p st then 1 else 0).
Proof.
  intros p h st l Hh; induction l as [|c l IH]; simpl; intro H;
    [discriminate|].
  unfold is_sent in H.
  destruct (status_eqb (status c) SENT) eqn:E; simpl.
  - rewrite Hh.
    assert (Ec : status c = SENT) by (destruct (status c); now try discriminate).
    rewrite Ec; destruct (p SENT), (p st); simpl; lia.
  - simpl in H; specialize (IH H).
    destruct (p (status c)); simpl; lia.
Qed.

Lemma mark_oldest_raw : forall h l,
  (forall c, raw (h c) = raw c) ->
  map raw (mark_oldest_sent h l) = map raw l.
Proof.
  intros h l Hh; induction l as [|c l IH]; simpl; [reflexivity|].
  destruct (status_eqb (status c) SENT); simpl; [now rewrite Hh|].
  now rewrite IH.
Qed.

Lemma mark_oldest_length : forall h l,
  length (mark_oldest_sent h l) = length l.
Proof.
  intros h l; induction l as [|c l IH]; simpl; [reflexivity|].
  destruct (status_eqb (status c) SENT); simpl; [reflexivity|].
  now rewrite IH.
Qed.

(** [send_command] in one equation. *)
Lemma send_command_run : forall (line : str) (g : Controller),
  send_command line g =
  (Return tt,
   if can_write g && negb (blank line)
   then emit (EvWrite (strip line ++ [ch_newline])) g else g).
Proof.
  intros line g.
  cbv [send_command bind read is_connected can_write blank swallow
       port_write ret raise modify].
  destruct (strip line) as [|c r];
    destruct (_port g) as [[[] []]|] eqn:E; simpl; rewrite ?E; reflexivity.
Qed.

End MethodFacts.

(** X11.  Only [ok] and [error:N] lines touch the job: any other
    received line, a status report whose numbers do not parse included,
    leaves the program, the cursor, the inflight queue, the streaming
    flags and the port as they were. *)
Theorem non_ack_keeps_stream : forall (line : str) (g : Controller),
  is_ack line = false ->
  stream_part (exec (_process_response line) g) = stream_part g.
Proof.
  intros line g H.
  exact (Frame.keeps_process_other line H g).
Qed.

Lemma non_ack_keeps_stream_witness :
  let g := exec (load_file (from_lines [text "G0 X10"] (text "job")))
                Grbl.init in
  stream_part (exec (_process_response (text "<Run|MPos:1.0,oops>")) g) =
  stream_part g.
Proof.
  cbv zeta.
  apply (non_ack_keeps_stream
           (text "<Run|MPos:1.0,oops>")
           (exec (load_file (from_lines [text "G0 X10"] (text "job")))
                 Grbl.init)).
  vm_compute; reflexivity.
Defined.

(** X12.  [send_command] never raises.  It writes the trimmed line and
    a newline when the port takes the bytes and the trimmed line is not
    empty, and does nothing otherwise; a write that fails is dropped
    without a trace. *)
Theorem send_command_effect : forall (line : str) (g : Controller),
  send_command line g =
  (Return tt,
   if can_write g && negb (blank line)
   then emit (EvWrite (strip line ++ [ch_newline])) g else g).
Proof. exact MethodFacts.send_command_run. Qed.

(** X13.  The methods that go through [send_command] neither raise nor
    touch the job: the program, the cursor, the inflight queue and the
    flags are as before, so no cost is entered in the inflight queue for
    the line they write. *)
Theorem manual_commands_bypass_queue :
  forall (line : str) (x y z : bool) (g : Controller),
  Forall (fun m : M unit =>
            fst (m g) = Return tt /\ stream_part (exec m g) = stream_part g)
         [ send_command line; send_immediate line; kill_alarm; homing;
           request_settings; request_parser_state; request_build_info;
           set_zero x y z ].
Proof.
  intros line x y z g.
  assert (H : forall l, fst (send_command l g) = Return tt /\
                        stream_part (exec (send_command l) g) = stream_part g).
  { intro l; unfold exec; rewrite MethodFacts.send_command_run; simpl.
    split; [reflexivity|].
    now destruct (can_write g && negb (blank l)). }
  repeat (apply Forall_cons; [try apply H|]); [|apply Forall_nil].
  unfold set_zero; destruct x, y, z; simpl; try apply H; now split.
Qed.

Module OfflineFacts.
Import PyStr PyStrFacts Num GCode Grbl Stream Run Surface.
Local Open Scope grbl_scope.

(** Without a connection nothing is sent. *)
Lemma start_stream_offline : forall g,
  is_connected g = false -> start_stream g = (Return tt, g).
Proof.
  intros g H; unfold start_stream, bind, read, ret.
  rewrite H; now destruct (has_file g).
Qed.

Lemma send_command_offline : forall line g,
  is_connected g = false -> send_command line g = (Return tt, g).
Proof.
  intros line g H; unfold send_command, bind, read, ret.
  now rewrite H.
Qed.

Lemma send_realtime_offline : forall data g,
  is_connected g = false -> _send_realtime data g = (Return tt, g).
Proof.
  intros data g H; unfold _send_realtime, bind, read, when, ret.
  now rewrite H.
Qed.

End OfflineFacts.

(** X14.  When the port is open and a write to it fails, the methods
    that send a realtime byte raise [SerialException] before they assign
    anything: [feed_hold] does not set the pause flag, [cycle_resume]
    does not clear it, [soft_reset] neither clears the streaming flag
    nor empties the inflight queue.  The status poller alone swallows
    the failure. *)
Theorem realtime_write_failure : forall g : Controller,
  is_connected g = true -> can_write g = false ->
  Forall (fun m : M unit => m g = (Raise SerialException, g))
         [ feed_hold; cycle_resume; soft_reset; jog_cancel;
           pause_stream; resume_stream ] /\
  fst (status_poll g) = Return tt.
Proof.
  intros g Hc Hw.
  destruct g as [port st mode mx my mz wx wy wz ver fr sp file str pau ab
                 idx buf al ev tr].
  unfold is_connected, can_write in *; simpl in *.
  destruct port as [[o h]|]; [|discriminate]; simpl in *.
  subst o; simpl in Hw; subst h.
  split; [|reflexivity].
  repeat (apply Forall_cons; [reflexivity|]); apply Forall_nil.
Qed.

Lemma realtime_write_failure_witness :
  let g := with_paused false
             (with_port (Some (mkPort true false)) Grbl.init) in
  feed_hold g = (Raise SerialException, g) /\ _paused g = false.
Proof.
  cbv zeta; split; [|reflexivity].
  pose proof (realtime_write_failure
                (with_paused false
                   (with_port (Some (mkPort true false)) Grbl.init))
                eq_refl eq_refl) as [H _].
  inversion H as [|? ? H1 _]; exact H1.
Defined.

(** X15.  When the port is open and a write to it fails,
    [abort_stream] raises [SerialException] out of [soft_reset]: the
    abort flag is set and the streaming flag cleared, but the inflight
    queue is not emptied, the status is not set, and neither "M5" nor
    "G0 X0 Y0" is written. *)
Theorem abort_stream_write_failure : forall g : Controller,
  is_connected g = true -> can_write g = false ->
  abort_stream g =
  (Raise SerialException, with_streaming false (with_abort_flag true g)).
Proof.
  intros g Hc Hw.
  destruct g as [port st mode mx my mz wx wy wz ver fr sp file str pau ab
                 idx buf al ev tr].
  unfold is_connected, can_write in *; simpl in *.
  destruct port as [[o h]|]; [|discriminate]; simpl in *.
  subst o; simpl in Hw; subst h.
  reflexivity.
Qed.

Lemma abort_stream_write_failure_witness :
  let g := with_buffer_fill [7]
             (with_port (Some (mkPort true false)) Grbl.init) in
  abort_stream g =
  (Raise SerialException, with_streaming false (with_abort_flag true g)) /\
  written (trace (exec abort_stream g)) = [] /\
  _buffer_fill (exec abort_stream g) = [7].
Proof.
  cbv zeta.
  pose proof (abort_stream_write_failure
                (with_buffer_fill [7]
                   (with_port (Some (mkPort true false)) Grbl.init))
                eq_refl eq_refl) as H.
  split; [exact H|].
  unfold exec; rewrite H; split; reflexivity.
Defined.

(** X16.  Without a connection [abort_stream] returns normally and
    writes nothing; it still sets the abort flag, clears the streaming
    flag, empties the inflight queue, waits 500 ms and sets the status
    to IDLE. *)
Theorem abort_stream_disconnected : forall g : Controller,
  is_connected g = false ->
  let g' := exec abort_stream g in
  fst (abort_stream g) = Return tt /\
  written (trace g') = written (trace g) /\
  _abort_flag g' = true /\ _streaming g' = false /\
  _buffer_fill g' = [] /\ _status g' = IDLE /\
  _file g' = _file g /\ _cmd_index g' = _cmd_index g /\
  _port g' = _port g.
Proof.
  intros g Hc.
  destruct g as [port st mode mx my mz wx wy wz ver fr sp file str pau ab
                 idx buf al ev tr].
  unfold is_connected in Hc; simpl in Hc.
  assert (E : forall evs, written (tr ++ EvStatusChange IDLE :: evs) =
                          written (tr ++ evs))
    by (intro evs; now rewrite !MethodFacts.written_app).
  destruct port as [[o h]|]; simpl in Hc; [subst o|];
    destruct st; cbv zeta; unfold exec; simpl;
    rewrite ?MethodFacts.written_app; simpl; rewrite ?app_nil_r;
    repeat split; reflexivity.
Qed.

Lemma abort_stream_disconnected_witness :
  let g := with_buffer_fill [7] (with_streaming true Grbl.init) in
  let g' := exec abort_stream g in
  written (trace g') = [] /\ _streaming g' = false /\
  _buffer_fill g' = [] /\ _status g' = IDLE.
Proof.
  cbv zeta.
  pose proof (abort_stream_disconnected
                (with_buffer_fill [7] (with_streaming true Grbl.init))
                eq_refl) as H.
  cbv zeta in H; destruct H as (_ & H1 & _ & H2 & H3 & H4 & _).
  repeat split; assumption.
Defined.

(** X17.  After [disconnect] the controller is not connected, its
    status is DISCONNECTED, the stream is off with the abort flag set,
    and the version text is empty; from there [start_stream],
    [send_command] and the realtime sends return at once and change
    nothing. *)
Theorem after_disconnect : forall (g : Controller) (line data : str),
  let g' := exec disconnect g in
  fst (disconnect g) = Return tt /\
  is_connected g' = false /\ _status g' = DISCONNECTED /\
  is_streaming g' = false /\ _abort_flag g' = true /\ _alive g' = false /\
  grbl_version g' = [] /\
  start_stream g' = (Return tt, g') /\
  send_command line g' = (Return tt, g') /\
  _send_realtime data g' = (Return tt, g').
Proof.
  intros g line data.
  destruct g as [port st mode mx my mz wx wy wz ver fr sp file str pau ab
                 idx buf al ev tr].
  cbv zeta.
  set (g0 := mkController port st mode mx my mz wx wy wz ver fr sp file str
                          pau ab idx buf al ev tr).
  assert (Hc : is_connected (exec disconnect g0) = false)
    by (destruct st; reflexivity).
  split; [destruct st; reflexivity|].
  split; [exact Hc|].
  split; [destruct st; reflexivity|].
  split; [destruct st; reflexivity|].
  split; [destruct st; reflexivity|].
  split; [destruct st; reflexivity|].
  split; [destruct st; reflexivity|].
  split; [apply OfflineFacts.start_stream_offline; exact Hc|].
  split; [apply OfflineFacts.send_command_offline; exact Hc|].
  apply OfflineFacts.send_realtime_offline; exact Hc.
Qed.

(** X18.  The status setter notifies on change only: after
    [self.status = v] the status is [v], one [on_status_change] call was
    made if the status was different before and none otherwise, and
    assigning [v] again changes nothing. *)
Theorem status_setter_notifies_on_change :
  forall (v : MachineStatus) (g : Controller),
  let g' := exec (set_status_prop v) g in
  _status g' = v /\
  trace g' = trace g ++
             (if machine_status_eqb (_status g) v then []
              else [EvStatusChange v]) /\
  stream_part g' = stream_part g /\
  set_status_prop v g' = (Return tt, g').
Proof.
  intros v g.
  destruct g as [port st mode mx my mz wx wy wz ver fr sp file str pau ab
                 idx buf al ev tr].
  cbv zeta; unfold exec.
  destruct st, v; simpl; rewrite ?app_nil_r; repeat split; reflexivity.
Qed.

(** X19.  [load_file] followed by [start_stream], on a connected
    controller that is not streaming, starts a fresh run of that
    program: every command QUEUED with no error code, the raw lines
    kept, the cursor at 0, the inflight queue empty, the stream on,
    neither paused nor aborted, and one TX worker started. *)
Theorem load_then_start : forall (f : GCodeFile) (g : Controller),
  is_connected g = true -> _streaming g = false ->
  let g' := exec (load_file f ;; start_stream) g in
  fst ((load_file f ;; start_stream) g) = Return tt /\
  _file g' = Some (reset_status f) /\
  _cmd_index g' = 0 /\ _buffer_fill g' = [] /\
  _streaming g' = true /\ _paused g' = false /\ _abort_flag g' = false /\
  trace g' = trace g ++ [EvStartTx] /\
  ready g' = false.
Proof.
  intros f g Hc Hs.
  destruct g as [port st mode mx my mz wx wy wz ver fr sp file str pau ab
                 idx buf al ev tr].
  unfold is_connected in Hc; simpl in Hc, Hs; subst str.
  destruct port as [[o h]|]; simpl in Hc; [subst o | discriminate].
  cbv zeta; unfold exec, ready, has_file, is_connected; simpl.
  rewrite MethodFacts.reset_status_idem.
  repeat split; reflexivity.
Qed.

Lemma load_then_start_witness :
  let f := mkFile [mkCommand (text "G0 X10") OK None;
                   mkCommand (text "bad") ERROR (Some 20%Z)] (text "job") in
  let g := with_port (Some (mkPort true true)) Grbl.init in
  let g' := exec (load_file f ;; start_stream) g in
  _file g' = Some (reset_status f) /\ _streaming g' = true /\
  trace g' = [EvStartTx].
Proof.
  cbv zeta.
  pose proof (load_then_start
                (mkFile [mkCommand (text "G0 X10") OK None;
                         mkCommand (text "bad") ERROR (Some 20%Z)]
                        (text "job"))
                (with_port (Some (mkPort true true)) Grbl.init)
                eq_refl eq_refl) as H.
  cbv zeta in H; destruct H as (_ & H1 & _ & _ & H2 & _ & _ & H3 & _).
  repeat split; assumption.
Defined.

Module AckFacts.
Import PyStr PyStrFacts Num GCode Grbl Stream Run Surface.
Local Open Scope grbl_scope.

Lemma startswith_split : forall p s,
  startswith p s = true -> s = p ++ skipn (length p) s.
Proof.
  induction p as [|a p IH]; intros [|b s] H; simpl in *;
    try discriminate; try reflexivity.
  apply andb_prop in H as [H1 H2]; apply Ascii.eqb_eq in H1; subst b.
  f_equal; now apply IH.
Qed.

Lemma take_while_head : forall p s c r,
  take_while p s = c :: r -> exists s', s = c :: s' /\ p c = true.
Proof.
  intros p [|x s] c r H; simpl in H; [discriminate|].
  destruct (p x) eqn:E; [|discriminate].
  injection H as -> _; eauto.
Qed.

End AckFacts.

(** X20.  An acknowledgment that finds a SENT command moves exactly one
    command out of SENT: [ok] raises [ok_count] by one, [error:N] raises
    [error_count] by one, and [total], [sent_count] and the raw lines
    stay as they are. *)
Theorem ack_advances_one_counter :
  forall (g : Controller) (f : GCodeFile) (line : str),
  _file g = Some f -> _streaming g = true -> has_sent g = true ->
  is_ack line = true ->
  exists f',
    _file (exec (_process_response line) g) = Some f' /\
    total f' = total f /\ sent_count f' = sent_count f /\
    map raw (commands f') = map raw (commands f) /\
    S (length (filter is_sent (commands f'))) =
      length (filter is_sent (commands f)) /\
    ok_count f' + error_count f' = S (ok_count f + error_count f) /\
    (line = text "ok" ->
       ok_count f' = S (ok_count f) /\ error_count f' = error_count f) /\
    (line <> text "ok" ->
       ok_count f' = ok_count f /\ error_count f' = S (error_count f)).
Proof.
  intros g f line Hf Hs Hsent Hack.
  destruct (ControllerFacts.process_ack_effect g line Hack)
    as (_ & _ & _ & _ & _ & _ & _ & Ef).
  rewrite Hf, Hs in Ef.
  unfold has_sent in Hsent; rewrite Hf in Hsent.
  eexists; split; [exact Ef|].
  unfold total, sent_count, ok_count, error_count, count; simpl.
  assert (Hst : exists st, (forall c, status (acked line c) = st) /\
                           (st = OK \/ st = ERROR) /\
                           (line = text "ok" -> st = OK) /\
                           (line <> text "ok" -> st = ERROR)).
  { unfold is_ack in Hack; unfold acked.
    unfold classify in *.
    destruct (match_welcome line); [discriminate|].
    destruct (startswith (text "<") line && endswith (text ">") line);
      [discriminate|].
    destruct (str_eqb line (text "ok")) eqn:E.
    - exists OK; repeat split; auto; intro N.
      apply ControllerFacts.str_eqb_eq in E; contradiction.
    - destruct (match_code (text "error:") line).
      + exists ERROR; repeat split; auto; intro N.
        apply ControllerFacts.str_eqb_eq in N; congruence.
      + destruct (match_code (text "ALARM:") line); discriminate. }
  destruct Hst as (st & Hh & Hcase & Hok & Herr).
  pose proof (MethodFacts.count_mark_oldest
                (fun s => negb (status_eqb s QUEUED)) (acked line) st
                (commands f) Hh Hsent) as Hq.
  pose proof (MethodFacts.count_mark_oldest
                (fun s => status_eqb s OK) (acked line) st
                (commands f) Hh Hsent) as Ho.
  pose proof (MethodFacts.count_mark_oldest
                (fun s => status_eqb s ERROR) (acked line) st
                (commands f) Hh Hsent) as He.
  pose proof (MethodFacts.count_mark_oldest
                (fun s => status_eqb s SENT) (acked line) st
                (commands f) Hh Hsent) as Hn.
  simpl in Hq, Ho, He, Hn.
  change (fun c : GCodeCommand => status_eqb (status c) SENT)
    with is_sent in Hn.
  split; [apply MethodFacts.mark_oldest_length|].
  split; [destruct Hcase; subst st; simpl in Hq; lia|].
  split; [apply MethodFacts.mark_oldest_raw; apply ControllerFacts.acked_raw|].
  split; [destruct Hcase; subst st; simpl in Hn; lia|].
  split; [destruct Hcase; subst st; simpl in Ho, He; lia|].
  split; intro C.
  - rewrite (Hok C) in *; simpl in Ho, He; lia.
  - rewrite (Herr C) in *; simpl in Ho, He; lia.
Qed.

Lemma ack_advances_one_counter_witness :
  let f := mkFile [mkCommand (text "G0 X1") OK None;
                   mkCommand (text "G0 X2") SENT None;
                   mkCommand (text "G0 X3") SENT None] (text "job") in
  let g := with_streaming true (with_file (Some f) Grbl.init) in
  exists f',
    _file (exec (_process_response (text "error:9")) g) = Some f' /\
    error_count f' = 1 /\ ok_count f' = 1 /\ sent_count f' = 3.
Proof.
  cbv zeta.
  destruct (ack_advances_one_counter
              (with_streaming true
                 (with_file
                    (Some (mkFile [mkCommand (text "G0 X1") OK None;
                                   mkCommand (text "G0 X2") SENT None;
                                   mkCommand (text "G0 X3") SENT None]
                                  (text "job")))
                    Grbl.init))
              (mkFile [mkCommand (text "G0 X1") OK None;
                       mkCommand (text "G0 X2") SENT None;
                       mkCommand (text "G0 X3") SENT None] (text "job"))
              (text "error:9") eq_refl eq_refl eq_refl eq_refl)
    as (f' & Hf & _ & Hs & _ & _ & _ & _ & He).
  exists f'; split; [exact Hf|].
  destruct He as [Ho He]; [vm_compute; discriminate|].
  rewrite Ho, He, Hs; repeat split.
Defined.

(** X21.  The lines taken for acknowledgments are exactly the line
    "ok" and the lines that begin with "error:" and a digit, whatever
    follows the digits. *)
Theorem is_ack_iff : forall line : str,
  is_ack line = true <->
  line = text "ok" \/
  exists d rest, isdigit d = true /\ line = text "error:" ++ d :: rest.
Proof.
  intro line; split.
  - unfold is_ack, classify.
    destruct (match_welcome line); [discriminate|].
    destruct (startswith (text "<") line && endswith (text ">") line);
      [discriminate|].
    destruct (str_eqb line (text "ok")) eqn:E;
      [left; now apply ControllerFacts.str_eqb_eq|].
    unfold match_code at 1.
    destruct (startswith (text "error:") line) eqn:Es.
    + destruct (take_while isdigit (skipn (length (text "error:")) line))
        as [|d r] eqn:Et.
      * destruct (match_code (text "ALARM:") line); discriminate.
      * intros _; right.
        destruct (AckFacts.take_while_head _ _ _ _ Et) as (s' & Hs' & Hd).
        exists d, s'; split; [exact Hd|].
        rewrite <- Hs'; now apply AckFacts.startswith_split.
    + destruct (match_code (text "ALARM:") line); discriminate.
  - intros [-> | (d & rest & Hd & ->)]; [reflexivity|].
    unfold is_ack, classify, match_code; simpl.
    rewrite Hd; reflexivity.
Qed.

(** X22.  [pause_stream] then [resume_stream], on a controller that is
    not connected or whose port takes the bytes: in between the
    controller does not count as streaming; afterwards the pause flag is
    clear, [is_streaming] is the streaming flag, and the program, the
    cursor, the inflight queue and the other flags are as before.  The
    bytes "!" and "~" were written, in this order, when there is a
    connection, and nothing otherwise. *)
Theorem pause_then_resume : forall g : Controller,
  is_connected g = false \/ can_write g = true ->
  let g1 := exec pause_stream g in
  let g2 := exec resume_stream g1 in
  fst (pause_stream g) = Return tt /\
  fst (resume_stream g1) = Return tt /\
  is_streaming g1 = false /\
  _paused g2 = false /\ is_streaming g2 = _streaming g /\
  (_file g2, _streaming g2, _abort_flag g2, _cmd_index g2, _buffer_fill g2,
   _port g2) =
  (_file g, _streaming g, _abort_flag g, _cmd_index g, _buffer_fill g,
   _port g) /\
  written (trace g2) =
  written (trace g) ++
  (if is_connected g then [text "!"; text "~"] else []).
Proof.
  intros g H.
  destruct g as [port st mode mx my mz wx wy wz ver fr sp file str pau ab
                 idx buf al ev tr].
  unfold is_connected, can_write in H; simpl in H.
  assert (E : forall b, b && false = false) by (now intros []).
  assert (E' : forall b, b && true = b) by (now intros []).
  destruct port as [[[] []]|]; simpl in H;
    try (destruct H; discriminate);
    cbv zeta; unfold exec, is_streaming, is_connected; simpl;
    rewrite ?MethodFacts.written_app, ?app_nil_r, ?E, ?E'; simpl;
    rewrite <- ?app_assoc; simpl; repeat split; reflexivity.
Qed.

Lemma pause_then_resume_witness :
  let g := with_streaming true
             (with_port (Some (mkPort true true)) Grbl.init) in
  let g1 := exec pause_stream g in
  let g2 := exec resume_stream g1 in
  is_streaming g1 = false /\ is_streaming g2 = true /\
  written (trace g2) = [text "!"; text "~"].
Proof.
  cbv zeta.
  pose proof (pause_then_resume
                (with_streaming true
                   (with_port (Some (mkPort true true)) Grbl.init))
                (or_intror eq_refl)) as H.
  cbv zeta in H; destruct H as (_ & _ & H1 & _ & H2 & _ & H3).
  repeat split; assumption.
Defined.

Module WorkerFacts.
Import PyStr PyStrFacts Num GCode Grbl Stream Run Surface.
Local Open Scope grbl_scope.

Lemma written_emit_sleep : forall ms g,
  written (trace (emit (EvSleep ms) g)) = written (trace g).
Proof.
  intros ms g; unfold emit; simpl.
  rewrite MethodFacts.written_app; simpl; apply app_nil_r.
Qed.

Lemma written_emit_finished : forall g,
  written (trace (emit EvJobFinished g)) = written (trace g).
Proof.
  intros g; unfold emit; simpl.
  rewrite MethodFacts.written_app; simpl; apply app_nil_r.
Qed.

Lemma written_emit_write : forall data g,
  written (trace (emit (EvWrite data) g)) = written (trace g) ++ [data].
Proof.
  intros data g; unfold emit; simpl.
  now rewrite MethodFacts.written_app.
Qed.

Lemma tx_write_cases : forall cmd g,
  (tx_write cmd g = (Return tt, emit (EvWrite (serial_bytes cmd)) g) /\
   can_write g = true) \/
  (exists e, tx_write cmd g = (Raise e, g) /\ can_write g = false).
Proof.
  intros cmd g; unfold tx_write, port_write, bind, read, can_write, modify,
    raise.
  destruct (_port g) as [[[] []]|]; simpl; eauto.
Qed.

(** One step of the worker while the pause flag is set. *)
Lemma paused_step : forall t s,
  _paused (ctl s) = true ->
  let s' := tx_step t s in
  _paused (ctl s') = true /\
  exists extra,
    written (trace (ctl s')) = written (trace (ctl s)) ++ extra /\
    length extra + (if holds_command (tx s') then 1 else 0) <=
    (if holds_command (tx s) then 1 else 0).
Proof.
  intros t [g pc gen] Hp; simpl in Hp; cbv zeta.
  destruct pc; unfold tx_step; cbn [tx ctl file_gen at_pc].
  - split; [exact Hp|]; exists []; rewrite app_nil_r; simpl; auto.
  - rewrite Hp.
    destruct (_streaming g && _alive g);
      [destruct (_file g) as [f|];
       [destruct (_cmd_index g <? total f); [destruct (_abort_flag g)|]|]|];
      cbn [tx ctl at_pc holds_command];
      rewrite ?written_emit_sleep;
      (split; [try exact Hp; reflexivity|]);
      exists []; rewrite app_nil_r; simpl; auto.
  - destruct (RX_BUFFER_SIZE <? buffer_used + byte_count cmd);
      [destruct (_abort_flag g || negb (_alive g))|];
      cbn [tx ctl at_pc holds_command];
      (split; [exact Hp|]); exists []; rewrite app_nil_r; simpl; auto.
  - destruct (_abort_flag g || negb (_alive g)).
    + cbn [tx ctl at_pc holds_command].
      split; [exact Hp|]; exists []; rewrite app_nil_r; simpl; auto.
    + destruct (tx_write_cases cmd g) as [[-> _] | (e & -> & _)].
      * cbn [tx ctl at_pc holds_command].
        split; [exact Hp|].
        exists [serial_bytes cmd]; rewrite written_emit_write; simpl; auto.
      * destruct e; cbn [tx ctl at_pc holds_command];
          (split; [exact Hp|]); exists []; rewrite app_nil_r; simpl; auto.
  - cbn [tx ctl at_pc holds_command].
    split; [exact Hp|]; exists []; rewrite app_nil_r; simpl; auto.
  - cbn [tx ctl at_pc holds_command].
    destruct (Nat.eqb gen0 gen); [unfold tx_mark, update_commands;
                                   destruct (_file g)|];
      (split; [exact Hp|]); exists []; rewrite app_nil_r; simpl; auto.
  - cbn [tx ctl at_pc holds_command].
    split; [exact Hp|]; exists []; rewrite app_nil_r; simpl; auto.
  - cbn [tx ctl at_pc holds_command].
    destruct (0 <? tx_short_ms (_threading_mode g));
      rewrite ?written_emit_sleep;
      (split; [exact Hp|]); exists []; rewrite app_nil_r; simpl; auto.
  - destruct (_abort_flag g); cbn [tx ctl at_pc holds_command];
      (split; [exact Hp|]); exists []; rewrite app_nil_r; simpl; auto.
  - destruct (_buffer_fill g); [|destruct t];
      cbn [tx ctl at_pc holds_command]; rewrite ?written_emit_sleep;
      (split; [exact Hp|]); exists []; rewrite app_nil_r; simpl; auto.
  - cbn [tx ctl at_pc holds_command]; rewrite written_emit_finished.
    split; [exact Hp|]; exists []; rewrite app_nil_r; simpl; auto.
Qed.

End WorkerFacts.

(** X23.  Pausing holds the job back: while the pause flag is set the
    TX worker, left to itself for any number of steps, writes at most
    the one command that it had fetched before it saw the flag, and
    nothing at all when it had fetched none. *)
Theorem paused_worker_sends_at_most_one :
  forall (timeouts : list bool) (s : Sys),
  _paused (ctl s) = true ->
  let s' := tx_run timeouts s in
  _paused (ctl s') = true /\
  exists extra,
    written (trace (ctl s')) = written (trace (ctl s)) ++ extra /\
    length extra <= (if holds_command (tx s) then 1 else 0).
Proof.
  induction timeouts as [|t ts IH]; intros s Hp; cbv zeta.
  - split; [exact Hp|]; exists []; rewrite app_nil_r; simpl; split; [auto|lia].
  - unfold tx_run; simpl; fold (tx_run ts (tx_step t s)).
    destruct (WorkerFacts.paused_step t s Hp) as (Hp1 & e1 & E1 & L1).
    destruct (IH _ Hp1) as (Hp2 & e2 & E2 & L2).
    split; [exact Hp2|].
    exists (e1 ++ e2); rewrite E2, E1, app_assoc, length_app.
    split; [reflexivity | lia].
Qed.

Lemma paused_worker_sends_at_most_one_witness :
  let s1 := op_step (OpConnected (mkPort true true)) start in
  let s2 := op_step (OpLoad (from_lines [text "G0 X10"; text "G1 X20 F500"]
                                        (text "job"))) s1 in
  let s3 := op_step OpFeedHold (op_step OpStart s2) in
  let s' := tx_run [false; false; false; false; false; false; false; false] s3 in
  written (trace (ctl s3)) = [text "!"] /\
  written (trace (ctl s')) = [text "!"] /\
  _cmd_index (ctl s') = 0.
Proof.
  cbv zeta.
  split; [vm_compute; reflexivity|].
  split; [|vm_compute; reflexivity].
  match goal with
  | |- written (trace (ctl (tx_run ?ts ?s))) = _ =>
      pose proof (paused_worker_sends_at_most_one ts s) as H
  end.
  cbv zeta in H.
  destruct H as (_ & extra & E & L); [vm_compute; reflexivity|].
  rewrite E.
  replace extra with (@nil str).
  - vm_compute; reflexivity.
  - vm_compute in L; destruct extra; [reflexivity | simpl in L; lia].
Defined.

Module AbortFacts.
Import PyStr PyStrFacts Num GCode Grbl Stream Run Surface.
Local Open Scope grbl_scope.

(** One step of the worker once the abort flag is set. *)
Lemma abort_step : forall t s,
  _abort_flag (ctl s) = true -> tx s <> TxDraining ->
  let s' := tx_step t s in
  _abort_flag (ctl s') = true /\ tx s' <> TxDraining /\
  written (trace (ctl s')) = written (trace (ctl s)) /\
  stop_distance (tx s') <= pred (stop_distance (tx s)).
Proof.
  intros t [g pc gen] Ha Hd; simpl in Ha, Hd; cbv zeta.
  destruct pc; unfold tx_step; cbn [tx ctl file_gen at_pc];
    try contradiction.
  - repeat split; auto; discriminate.
  - rewrite Ha.
    destruct (_streaming g && _alive g);
      [destruct (_file g) as [f|];
       [destruct (_cmd_index g <? total f)|]|];
      cbn [tx ctl at_pc stop_distance pred];
      repeat split; auto; discriminate.
  - rewrite Ha; simpl orb.
    destruct (RX_BUFFER_SIZE <? buffer_used + byte_count cmd);
      cbn [tx ctl at_pc stop_distance pred];
      repeat split; auto; discriminate.
  - rewrite Ha; simpl orb; cbn [tx ctl at_pc stop_distance pred].
    repeat split; auto; discriminate.
  - cbn [tx ctl at_pc stop_distance pred].
    repeat split; auto; discriminate.
  - cbn [tx ctl at_pc stop_distance pred].
    destruct (Nat.eqb gen0 gen); [unfold tx_mark, update_commands;
                                   destruct (_file g)|];
      repeat split; auto; discriminate.
  - cbn [tx ctl at_pc stop_distance pred].
    repeat split; auto; discriminate.
  - cbn [tx ctl at_pc stop_distance pred].
    destruct (0 <? tx_short_ms (_threading_mode g));
      rewrite ?WorkerFacts.written_emit_sleep;
      repeat split; auto; discriminate.
  - rewrite Ha; cbn [tx ctl at_pc stop_distance pred].
    repeat split; auto; discriminate.
  - cbn [tx ctl at_pc stop_distance pred].
    rewrite WorkerFacts.written_emit_finished.
    repeat split; auto; discriminate.
Qed.

Lemma abort_run : forall ts s,
  _abort_flag (ctl s) = true -> tx s <> TxDraining ->
  stop_distance (tx s) <= length ts ->
  tx (tx_run ts s) = TxNone /\
  _abort_flag (ctl (tx_run ts s)) = true /\
  written (trace (ctl (tx_run ts s))) = written (trace (ctl s)).
Proof.
  induction ts as [|t ts IH]; intros s Ha Hd Hn; simpl in Hn.
  - unfold tx_run; simpl.
    destruct (tx s); simpl in Hn; try lia; auto.
  - unfold tx_run; simpl; fold (tx_run ts (tx_step t s)).
    destruct (abort_step t s Ha Hd) as (Ha1 & Hd1 & Hw1 & Hs1).
    destruct (IH (tx_step t s) Ha1 Hd1) as (E1 & E2 & E3); [lia|].
    rewrite E3, Hw1; auto.
Qed.

End AbortFacts.

(** X24.  Once the abort flag is set, a TX worker that is not in its
    final wait ends within seven of its steps, wherever it stands, and
    writes nothing more on the way: the command it had fetched but not
    yet written is not sent. *)
Theorem abort_stops_worker :
  forall (timeouts : list bool) (s : Sys),
  _abort_flag (ctl s) = true -> tx s <> TxDraining ->
  7 <= length timeouts ->
  let s' := tx_run timeouts s in
  tx s' = TxNone /\
  written (trace (ctl s')) = written (trace (ctl s)) /\
  _abort_flag (ctl s') = true.
Proof.
  intros ts s Ha Hd Hn; cbv zeta.
  destruct (AbortFacts.abort_run ts s Ha Hd) as (E1 & E2 & E3).
  - destruct (tx s); simpl; lia.
  - auto.
Qed.

Lemma abort_stops_worker_witness :
  let s1 := op_step (OpConnected (mkPort true true)) start in
  let s2 := op_step (OpLoad (from_lines [text "G0 X10"; text "G1 X20 F500"]
                                        (text "job"))) s1 in
  let s3 := tx_step false (op_step OpStart s2) in
  let s4 := mkSys (with_abort_flag true (ctl s3)) (tx s3) (file_gen s3) in
  let s' := tx_run [false; false; false; false; false; false; false] s4 in
  holds_command (tx s4) = true /\
  tx s' = TxNone /\ written (trace (ctl s')) = [].
Proof.
  cbv zeta.
  split; [vm_compute; reflexivity|].
  match goal with
  | |- tx (tx_run ?ts ?s) = _ /\ _ =>
      pose proof (abort_stops_worker ts s) as H
  end.
  cbv zeta in H.
  destruct H as (H1 & H2 & _);
    [ vm_compute; reflexivity
    | intro E; vm_compute in E; discriminate E
    | simpl; lia
    | ].
  split; [exact H1|].
  rewrite H2; vm_compute; reflexivity.
Defined.

Module StallFacts.
Import PyStr PyStrFacts Num GCode Grbl Stream Run Surface.
Local Open Scope grbl_scope.

(** The wait for room, when the command is larger than the buffer. *)
Lemma stall_step : forall t s gen i cmd bu,
  tx s = TxWaiting gen i cmd bu ->
  _abort_flag (ctl s) = false -> _alive (ctl s) = true ->
  RX_BUFFER_SIZE < byte_count cmd ->
  let s' := tx_step t s in
  (exists bu', tx s' = TxWaiting gen i cmd bu') /\
  _abort_flag (ctl s') = false /\ _alive (ctl s') = true /\
  trace (ctl s') = trace (ctl s) /\
  _cmd_index (ctl s') = _cmd_index (ctl s) /\
  _file (ctl s') = _file (ctl s) /\
  _buffer_fill (ctl s') = _buffer_fill (ctl s).
Proof.
  intros t [g pc gn] gen i cmd bu E Ha Hl Hbig; simpl in *; subst pc.
  unfold tx_step; cbn [tx ctl file_gen at_pc].
  replace (RX_BUFFER_SIZE <? bu + byte_count cmd) with true
    by (symmetry; apply Nat.ltb_lt; lia).
  rewrite Ha, Hl; simpl; eauto 10.
Qed.

Lemma stall_run : forall ts s gen i cmd bu,
  tx s = TxWaiting gen i cmd bu ->
  _abort_flag (ctl s) = false -> _alive (ctl s) = true ->
  RX_BUFFER_SIZE < byte_count cmd ->
  let s' := tx_run ts s in
  (exists bu', tx s' = TxWaiting gen i cmd bu') /\
  trace (ctl s') = trace (ctl s) /\
  _cmd_index (ctl s') = _cmd_index (ctl s) /\
  _file (ctl s') = _file (ctl s) /\
  _buffer_fill (ctl s') = _buffer_fill (ctl s).
Proof.
  induction ts as [|t ts IH]; intros s gen i cmd bu E Ha Hl Hbig; cbv zeta.
  - unfold tx_run; simpl; eauto 10.
  - unfold tx_run; simpl; fold (tx_run ts (tx_step t s)).
    destruct (stall_step t s gen i cmd bu E Ha Hl Hbig)
      as ((bu' & E') & Ha' & Hl' & T & I & F & B).
    destruct (IH (tx_step t s) gen i cmd bu' E' Ha' Hl' Hbig)
      as (X & T' & I' & F' & B').
    rewrite T', I', F', B'; auto.
Qed.

End StallFacts.

(** X25.  A command that costs more than [RX_BUFFER_SIZE] bytes is never
    sent and stalls the job: when the cursor comes to it in a running
    stream the TX worker, left to itself, stays in its wait for room for
    ever, whatever the inflight queue holds; it writes nothing and the
    cursor does not move. *)
Theorem overlong_command_stalls :
  forall (timeouts : list bool) (s : Sys) (f : GCodeFile) (cmd : GCodeCommand),
  tx s = TxLoop ->
  _streaming (ctl s) = true -> _alive (ctl s) = true ->
  _abort_flag (ctl s) = false -> _paused (ctl s) = false ->
  _file (ctl s) = Some f ->
  nth_error (commands f) (_cmd_index (ctl s)) = Some cmd ->
  RX_BUFFER_SIZE < byte_count cmd ->
  timeouts <> [] ->
  let s' := tx_run timeouts s in
  (exists bu, tx s' = TxWaiting (file_gen s) (_cmd_index (ctl s)) cmd bu) /\
  trace (ctl s') = trace (ctl s) /\
  _cmd_index (ctl s') = _cmd_index (ctl s) /\
  _file (ctl s') = _file (ctl s) /\
  _buffer_fill (ctl s') = _buffer_fill (ctl s).
Proof.
  intros [|t ts] [g pc gn] f cmd E Hs Hl Ha Hp Hf Hn Hbig Hts;
    [contradiction|]; simpl in *; subst pc.
  cbv zeta; unfold tx_run; simpl fold_left.
  fold (tx_run ts (tx_step t (mkSys g TxLoop gn))).
  assert (Hi : (_cmd_index g <? total f) = true).
  { apply Nat.ltb_lt; unfold total; apply nth_error_Some; congruence. }
  assert (E1 : tx_step t (mkSys g TxLoop gn) =
               mkSys g (TxWaiting gn (_cmd_index g) cmd (sum (_buffer_fill g)))
                     gn).
  { unfold tx_step; cbn [tx ctl file_gen at_pc].
    now rewrite Hs, Hl, Hf, Hi, Ha, Hp, Hn. }
  rewrite E1.
  exact (StallFacts.stall_run
           ts (mkSys g (TxWaiting gn (_cmd_index g) cmd (sum (_buffer_fill g)))
                     gn)
           gn (_cmd_index g) cmd (sum (_buffer_fill g))
           eq_refl Ha Hl Hbig).
Qed.

Lemma overlong_command_stalls_witness :
  let long := text "G1 X1" ++ repeat "0"%char 130 in
  let s1 := op_step (OpConnected (mkPort true true)) start in
  let s2 := op_step (OpLoad (from_lines [long; text "M5"] (text "job"))) s1 in
  let s3 := op_step OpStart s2 in
  let s' := tx_run [false; false; true; false; true] s3 in
  trace (ctl s') = trace (ctl s3) /\ _cmd_index (ctl s') = 0 /\
  written (trace (ctl s')) = [].
Proof.
  cbv zeta.
  match goal with
  | |- trace (ctl (tx_run ?ts ?s)) = _ /\ _ =>
      pose proof (overlong_command_stalls
                    ts s
                    (reset_status
                       (from_lines [text "G1 X1" ++ repeat "0"%char 130;
                                    text "M5"] (text "job")))
                    (new_command (text "G1 X1" ++ repeat "0"%char 130))) as H
  end.
  cbv zeta in H.
  destruct H as (_ & H1 & H2 & _);
    try (vm_compute; reflexivity);
    [ apply Nat.ltb_lt; vm_compute; reflexivity
    | discriminate
    | ].
  split; [exact H1|]; split; [exact H2|].
  rewrite H1; vm_compute; reflexivity.
Defined.


Module TripFacts.
Import PyStr PyStrFacts Num GCode Grbl Stream Run Surface Pool.
Local Open Scope grbl_scope.

Lemma firstn_update_nth : forall (P : GCodeCommand -> Prop) h l i,
  (forall c, P (h c)) ->
  Forall P (firstn i l) -> Forall P (firstn (S i) (update_nth i h l)).
Proof.
  intros P h; induction l as [|x l IH]; intros i Hh H.
  - destruct i; constructor.
  - destruct i as [|i].
    + simpl; constructor; [apply Hh|].
      destruct l; constructor.
    + change (Forall P (x :: firstn (S i) (update_nth i h l))).
      simpl in H; inversion H; subst.
      constructor; [assumption|]; now apply IH.
Qed.

Lemma firstn_mark_oldest : forall (P : GCodeCommand -> Prop) h l k,
  (forall c, P (h c)) ->
  Forall P (firstn k l) -> Forall P (firstn k (mark_oldest_sent h l)).
Proof.
  intros P h; induction l as [|x l IH]; intros k Hh H; [exact H|].
  destruct k as [|k]; [constructor|].
  simpl in *; inversion H; subst.
  destruct (status_eqb (status x) SENT); simpl.
  - constructor; [apply Hh | assumption].
  - constructor; [assumption | now apply IH].
Qed.

Lemma update_nth_raw : forall h l i,
  (forall c, raw (h c) = raw c) -> map raw (update_nth i h l) = map raw l.
Proof.
  intros h; induction l as [|x l IH]; intros i Hh;
    [destruct i; reflexivity|].
  destruct i; simpl; [now rewrite Hh | now rewrite IH].
Qed.

Lemma acked_settles : forall line c,
  is_ack line = true -> status (acked line c) <> QUEUED.
Proof.
  intros line c H; unfold is_ack, acked in *.
  destruct (classify line); try discriminate; simpl; discriminate.
Qed.

Lemma filter_all : forall (p : GCodeCommand -> bool) l,
  Forall (fun c => p c = true) l -> length (filter p l) = length l.
Proof.
  induction 1 as [|x l Hx _ IH]; simpl; [reflexivity|].
  rewrite Hx; simpl; now rewrite IH.
Qed.

Lemma filter_none : forall (p : GCodeCommand -> bool) l,
  Forall (fun c => p c = false) l -> length (filter p l) = 0.
Proof.
  induction 1 as [|x l Hx _ IH]; simpl; [reflexivity|].
  now rewrite Hx.
Qed.

(** *** The run of one job, step by step *)

Lemma skipn_update_nth : forall (h : GCodeCommand -> GCodeCommand) l i,
  skipn (S i) (update_nth i h l) = skipn (S i) l.
Proof.
  intros h; induction l as [|x l IH]; intros i; [destruct i; reflexivity|].
  destruct i as [|i]; [reflexivity|].
  change (skipn (S i) (update_nth i h l) = skipn (S i) l); apply IH.
Qed.

Lemma skipn_tail : forall (P : GCodeCommand -> Prop) l i,
  Forall P (skipn i l) -> Forall P (skipn (S i) l).
Proof.
  intros P; induction l as [|x l IH]; intros i H; [constructor|].
  destruct i as [|i]; simpl in *.
  - now inversion H.
  - now apply IH.
Qed.

Lemma skipn_head : forall (P : GCodeCommand -> Prop) l i c,
  Forall P (skipn i l) -> nth_error l i = Some c -> P c.
Proof.
  intros P; induction l as [|x l IH]; intros i c H Hn;
    [destruct i; discriminate|].
  destruct i as [|i]; simpl in *.
  - injection Hn as <-; now inversion H.
  - now apply (IH i).
Qed.

Lemma skipn_mark_oldest : forall h l k,
  Forall (fun c => status c = QUEUED) (skipn k l) ->
  Forall (fun c => status c = QUEUED) (skipn k (mark_oldest_sent h l)).
Proof.
  intros h; induction l as [|x l IH]; intros k H; [exact H|].
  destruct k as [|k].
  - simpl in H |- *.
    rewrite ControllerFacts.mark_oldest_sent_none.
    + inversion H as [|? ? Hx Hl]; subst.
      replace (status_eqb (status x) SENT) with false
        by (now rewrite Hx).
      exact H.
    + apply RunFacts.existsb_false_Forall, RunFacts.queued_not_sent.
      now inversion H.
  - simpl in H |- *.
    destruct (status_eqb (status x) SENT); simpl; [exact H | now apply IH].
Qed.

(** Marking a QUEUED command SENT leaves the counts of OK and ERROR. *)
Lemma count_update_sent : forall (p : CommandStatus -> bool) l i c,
  nth_error l i = Some c -> p (status c) = p SENT ->
  length (filter (fun c => p (status c)) (update_nth i (set_status SENT) l)) =
  length (filter (fun c => p (status c)) l).
Proof.
  intros p; induction l as [|x l IH]; intros i c Hn Hp;
    [destruct i; discriminate|].
  destruct i as [|i]; simpl in *.
  - injection Hn as ->; rewrite Hp; destruct (p SENT); reflexivity.
  - destruct (p (status x)); simpl; now rewrite (IH i c Hn Hp).
Qed.

Lemma update_nth_length : forall (h : GCodeCommand -> GCodeCommand) l i,
  length (update_nth i h l) = length l.
Proof.
  intros h; induction l as [|x l IH]; intros i; [destruct i; reflexivity|].
  destruct i; simpl; [reflexivity | now rewrite IH].
Qed.

(** A step that keeps the program, the cursor and the queue. *)
Lemma tracked_same : forall n f a g pc g' pc',
  tracked n f a g pc ->
  _file g' = _file g -> _cmd_index g' = _cmd_index g ->
  length (_buffer_fill g') <= length (_buffer_fill g) ->
  marked pc' = marked pc -> appended pc <= appended pc' ->
  holds n g' pc' ->
  tracked n f a g' pc'.
Proof.
  intros n f a g pc g' pc' (f1 & Hf & Hr & Hk & HP & HQ & _ & Ha & Hb)
         Ef Ei Eb Em Eap Hh.
  exists f1; rewrite Ef, Ei, Em.
  repeat split; auto; lia.
Qed.

Lemma holds_same : forall n g g' pc,
  _cmd_index g' = _cmd_index g ->
  length (program g') = length (program g) ->
  holds n g pc -> holds n g' pc.
Proof.
  intros n g g' pc Ei El H; destruct pc; simpl in *; auto;
    rewrite Ei, El; exact H.
Qed.

Lemma tracked_tx_step : forall n f a t g pc,
  tracked n f a g pc ->
  tracked n f a (ctl (tx_step t (mkSys g pc n))) (tx (tx_step t (mkSys g pc n))).
Proof.
  intros n f a t g pc H.
  pose proof H as (f1 & Hf & Hr & Hk & HP & HQ & Hh & Ha & Hb).
  assert (Hemit : forall e pc', marked pc' = marked pc ->
                    appended pc <= appended pc' ->
                    holds n g pc' -> tracked n f a (emit e g) pc').
  { intros e pc' E1 E2 E3.
    apply (tracked_same n f a g pc); auto. }
  assert (Hstay : forall pc', marked pc' = marked pc ->
                    appended pc <= appended pc' ->
                    holds n g pc' -> tracked n f a g pc').
  { intros pc' E1 E2 E3.
    apply (tracked_same n f a g pc); auto. }
  unfold tx_step; cbn [tx ctl file_gen at_pc].
  destruct pc as [| |gn i cmd bu|gn i cmd bu|gn i cmd|gn i| | | | |];
    cbn [ctl tx].
  - exact H.
  - (* TxLoop *)
    destruct (_streaming g && _alive g); cbn [ctl tx];
      [|apply Hstay; simpl; auto].
    rewrite Hf.
    destruct (_cmd_index g <? total f1) eqn:Hlt; cbn [ctl tx];
      [|apply Hstay; simpl; auto].
    destruct (_abort_flag g); cbn [ctl tx]; [apply Hstay; simpl; auto|].
    destruct (_paused g); cbn [ctl tx]; [apply Hemit; simpl; auto|].
    destruct (nth_error (commands f1) (_cmd_index g)) as [cmd|];
      cbn [ctl tx]; apply Hstay; simpl; auto.
    apply Nat.ltb_lt in Hlt; unfold program; rewrite Hf.
    repeat split; auto.
  - (* TxWaiting *)
    destruct (RX_BUFFER_SIZE <? bu + byte_count cmd);
      [destruct (_abort_flag g || negb (_alive g))|]; cbn [ctl tx];
      apply Hstay; simpl; auto.
  - (* TxReady *)
    destruct (_abort_flag g || negb (_alive g)); cbn [ctl tx];
      [apply Hstay; simpl; auto|].
    destruct (WorkerFacts.tx_write_cases cmd g) as [[-> _] | (e & -> & _)].
    + cbn [ctl tx]; apply Hemit; simpl; auto.
    + destruct e; cbn [ctl tx]; apply Hstay; simpl; auto.
  - (* TxWritten *)
    exists f1; unfold tx_append; simpl in *.
    rewrite length_app; simpl.
    repeat split; auto; try tauto; lia.
  - (* TxAppended *)
    simpl in Hh; destruct Hh as (-> & -> & Hlt).
    rewrite Nat.eqb_refl.
    unfold program in Hlt; rewrite Hf in Hlt.
    destruct (nth_error (commands f1) (_cmd_index g)) as [c|] eqn:Hn;
      [|apply nth_error_None in Hn; lia].
    simpl in Hk, HP, HQ, Hb; rewrite Nat.add_0_r in Hk, HP, HQ.
    assert (Hq : status c = QUEUED) by exact (skipn_head _ _ _ _ HQ Hn).
    exists (mkFile (update_nth (_cmd_index g) (set_status SENT) (commands f1))
                   (filename f1)).
    unfold tx_mark, update_commands; rewrite Hf; simpl.
    unfold total, ok_count, error_count, count in *; simpl.
    rewrite update_nth_length, Nat.add_1_r.
    split; [reflexivity|].
    split; [rewrite update_nth_raw; [exact Hr | reflexivity]|].
    split; [lia|].
    split; [apply firstn_update_nth; [discriminate | exact HP]|].
    split; [rewrite skipn_update_nth; now apply skipn_tail|].
    split; [exact I|].
    split; [|lia].
    rewrite (count_update_sent (fun s => status_eqb s OK) _ _ c Hn),
            (count_update_sent (fun s => status_eqb s ERROR) _ _ c Hn);
      [exact Ha | now rewrite Hq | now rewrite Hq].
  - (* TxMarked *)
    exists f1; unfold tx_advance; simpl in *.
    rewrite Nat.add_0_r; rewrite Nat.add_1_r in Hk, HP, HQ.
    repeat split; auto; lia.
  - (* TxPacing *)
    destruct (0 <? tx_short_ms (_threading_mode g));
      [apply Hemit | apply Hstay]; simpl; auto.
  - destruct (_abort_flag g); apply Hstay; simpl; auto.
  - destruct (_buffer_fill g); [apply Hstay; simpl; auto|].
    destruct t; [apply Hstay | apply Hemit]; simpl; auto.
  - apply (tracked_same n f a g TxFinish); simpl; auto.
Qed.

Lemma tracked_worker_tx : forall n f a t g pc,
  tracked n f a g pc ->
  tracked n f a (ctl (worker_tx t (mkSys g pc n)))
                (tx (worker_tx t (mkSys g pc n))).
Proof.
  intros n f a t g pc H.
  destruct (PoolFacts.worker_tx_dies t (mkSys g pc n)) as [-> | [E ->]].
  - now apply tracked_tx_step.
  - simpl in E; subst pc; cbn [ctl tx at_pc].
    apply (tracked_same n f a g TxLoop); simpl; auto.
Qed.

Lemma acked_status : forall line,
  is_ack line = true ->
  exists st, (forall c, status (acked line c) = st) /\ (st = OK \/ st = ERROR).
Proof.
  intros line H; unfold is_ack, acked in *.
  destruct (classify line); try discriminate;
    [exists OK | exists ERROR]; split; auto.
Qed.

Lemma tracked_receive : forall n f a line g pc,
  tracked n f a g pc ->
  tracked n f
          (a + if is_ack line && _streaming g && has_sent g then 1 else 0)
          (exec (_process_response line) g) pc.
Proof.
  intros n f a line g pc H.
  destruct (is_ack line) eqn:Hack.
  - destruct (ControllerFacts.process_ack_effect g line Hack)
      as (Eb & Ei & _ & _ & _ & _ & _ & Ef).
    set (g' := exec (_process_response line) g) in *.
    destruct H as (f1 & Hf & Hr & Hk & HP & HQ & Hh & Ha & Hb).
    rewrite Hf in Ef.
    assert (Hpop : length (_buffer_fill g') <= length (_buffer_fill g))
      by (rewrite Eb; destruct (_buffer_fill g); simpl; lia).
    assert (Hkeep : _file g' = Some f1 -> tracked n f a g' pc).
    { intro E; exists f1; rewrite Ei.
      repeat split; auto; try lia.
      apply (holds_same n g); auto.
      unfold program; now rewrite E, Hf. }
    destruct (_streaming g) eqn:Hs; cbn [andb];
      [|rewrite Nat.add_0_r; now apply Hkeep].
    destruct (has_sent g) eqn:Hsent;
      [|rewrite Nat.add_0_r; apply Hkeep; rewrite Ef;
        unfold has_sent in Hsent; rewrite Hf in Hsent;
        rewrite (ControllerFacts.mark_oldest_sent_none _ _ Hsent);
        now rewrite ControllerFacts.file_eta].
    unfold has_sent in Hsent; rewrite Hf in Hsent.
    destruct (acked_status line Hack) as (st & Hst & Hcase).
    pose proof (MethodFacts.count_mark_oldest
                  (fun s => status_eqb s OK) (acked line) st
                  (commands f1) Hst Hsent) as Ho.
    pose proof (MethodFacts.count_mark_oldest
                  (fun s => status_eqb s ERROR) (acked line) st
                  (commands f1) Hst Hsent) as He.
    simpl in Ho, He.
    exists (mkFile (mark_oldest_sent (acked line) (commands f1)) (filename f1)).
    rewrite Ei; unfold total, ok_count, error_count, count in *; simpl.
    rewrite MethodFacts.mark_oldest_length.
    split; [exact Ef|].
    split; [rewrite MethodFacts.mark_oldest_raw;
            [exact Hr | apply ControllerFacts.acked_raw]|].
    split; [exact Hk|].
    split; [apply firstn_mark_oldest;
            [intro c; now apply acked_settles | exact HP]|].
    split; [now apply skipn_mark_oldest|].
    split.
    { apply (holds_same n g); auto.
      unfold program; rewrite Ef, Hf; simpl.
      apply MethodFacts.mark_oldest_length. }
    split; [destruct Hcase; subst st; simpl in Ho, He; lia | lia].
  - cbn [andb]; rewrite Nat.add_0_r.
    pose proof (Frame.keeps_process_other line Hack g) as Hk.
    unfold same_stream, stream_part in Hk.
    injection Hk as Ef _ _ _ Ei Eb _ _.
    apply (tracked_same n f a g pc); auto.
    + unfold exec in *; rewrite Eb; lia.
    + destruct H as (f1 & Hf & _ & _ & _ & _ & Hh & _).
      apply (holds_same n g); auto.
      unfold program, exec in *; now rewrite Ef.
Qed.

Lemma tracked_start : forall n f g,
  ready g = true -> _file g = Some f ->
  move (Call OpStart) (mkThreads g [] n) =
    mkThreads (exec start_stream g) [TxLoop] n /\
  tracked n f 0 (exec start_stream g) TxLoop.
Proof.
  intros n f g Hready Hf.
  split.
  { unfold move, method_step, op_step; cbn [ctl tx file_gen shared workers loads].
    unfold ready in Hready; rewrite Hready; reflexivity. }
  unfold ready in Hready.
  apply andb_prop in Hready as [H Hs]; apply andb_prop in H as [_ Hc].
  apply negb_true_iff in Hs.
  assert (E : (_file (exec start_stream g), _cmd_index (exec start_stream g),
               _buffer_fill (exec start_stream g)) =
              (Some (reset_status f), 0, [])).
  { unfold exec, start_stream, bind, read, ret, modify, has_file.
    rewrite Hf, Hc; simpl; rewrite Hs; simpl; rewrite Hf; reflexivity. }
  injection E as E1 E2 E3.
  exists (reset_status f); rewrite E2, E3; simpl.
  split; [exact E1|].
  split; [rewrite map_map; reflexivity|].
  split; [lia|].
  split; [constructor|].
  split; [apply Forall_map, Forall_forall; reflexivity|].
  split; [exact I|].
  split; [|lia].
  unfold ok_count, error_count, count; simpl.
  rewrite !filter_none; auto;
    apply Forall_map, Forall_forall; reflexivity.
Qed.

Lemma tracked_play : forall n f ms a g pc,
  forallb run_move ms = true ->
  tracked n f a g pc ->
  exists g' pc',
    play ms (mkThreads g [pc] n) = mkThreads g' [pc'] n /\
    tracked n f (a + useful_acks ms (mkThreads g [pc] n)) g' pc'.
Proof.
  intros n f; induction ms as [|m ms IH]; intros a g pc Hms H.
  - exists g, pc; simpl; rewrite Nat.add_0_r; auto.
  - simpl in Hms; apply andb_prop in Hms as [Hm Hms].
    destruct m as [[|k] t | []]; try discriminate.
    + (* the worker *)
      change (play (Work 0 t :: ms) (mkThreads g [pc] n))
        with (play ms (worker_step 0 t (mkThreads g [pc] n))).
      cbn [useful_acks move].
      rewrite PoolFacts.worker_alone.
      destruct (IH a _ _ Hms (tracked_worker_tx n f a t g pc H))
        as (g' & pc' & E & T).
      exists g', pc'; split; [exact E | exact T].
    + (* a line *)
      change (play (Call (OpReceive line) :: ms) (mkThreads g [pc] n))
        with (play ms (method_step (OpReceive line) (mkThreads g [pc] n))).
      cbn [useful_acks move shared].
      rewrite PoolFacts.receive_alone.
      destruct (IH _ _ _ Hms (tracked_receive n f a line g pc H))
        as (g' & pc' & E & T).
      exists g', pc'; split; [exact E|].
      rewrite Nat.add_assoc; exact T.
Qed.

Lemma count_split : forall l k,
  k <= length l ->
  Forall (fun c => status c <> QUEUED) (firstn k l) ->
  Forall (fun c => status c = QUEUED) (skipn k l) ->
  length (filter (fun c => negb (status_eqb (status c) QUEUED)) l) = k.
Proof.
  intros l k Hk HP HQ.
  rewrite <- (firstn_skipn k l) at 1.
  rewrite filter_app, length_app.
  rewrite filter_all, filter_none.
  - rewrite length_firstn; lia.
  - eapply Forall_impl; [|exact HQ]; intros c E; simpl; now rewrite E.
  - eapply Forall_impl; [|exact HP]; intros c E; simpl in *.
    destruct (status c); simpl; congruence.
Qed.

End TripFacts.

(** X26.  The counters follow the run.  Take the run of one job, from
    the call of [start_stream] that begins it: the steps of its worker,
    one statement of [_tx_loop] at a time, and the lines that the RX
    worker processes, in any order.  At every moment the program has the
    lines it was loaded with; the commands that are not QUEUED are the
    first [sent_count] ones; [sent_count] is the cursor, plus one while
    the worker stands between its SENT mark and the advance of the
    cursor; [ok_count] plus [error_count] is the number of
    acknowledgments that found the job streaming and a command SENT; and
    the inflight queue has no more entries than [sent_count], plus one
    while the worker stands between its append and its SENT mark. *)
Theorem counters_track_run :
  forall (g : Controller) (f : GCodeFile) (n : nat) (ms : list Move),
  ready g = true -> _file g = Some f ->
  forallb run_move ms = true ->
  let p0 := move (Call OpStart) (mkThreads g [] n) in
  let p := play ms p0 in
  exists pc f1,
    workers p = [pc] /\
    _file (shared p) = Some f1 /\
    map raw (commands f1) = map raw (commands f) /\
    sent_count f1 = _cmd_index (shared p) + marked pc /\
    sent_count f1 <= total f /\
    Forall (fun c => status c <> QUEUED)
           (firstn (sent_count f1) (commands f1)) /\
    Forall (fun c => status c = QUEUED)
           (skipn (sent_count f1) (commands f1)) /\
    ok_count f1 + error_count f1 = useful_acks ms p0 /\
    length (_buffer_fill (shared p)) <= sent_count f1 + appended pc.
Proof.
  intros g f n ms Hready Hf Hms; cbv zeta.
  destruct (TripFacts.tracked_start n f g Hready Hf) as [-> H0].
  destruct (TripFacts.tracked_play n f ms 0 _ _ Hms H0) as (g' & pc' & -> & T).
  destruct T as (f1 & Hf1 & Hr & Hk & HP & HQ & _ & Ha & Hb).
  pose proof (TripFacts.count_split _ _ Hk HP HQ) as Hc.
  exists pc', f1; cbn [workers shared].
  unfold sent_count, count; rewrite Hc.
  assert (Lf : total f1 = total f).
  { unfold total; rewrite <- (length_map raw (commands f1)), Hr.
    apply length_map. }
  repeat split; auto; lia.
Qed.

Lemma counters_track_run_witness :
  let f := from_lines [text "G0 X0"; text "GARBAGE"; text "G0 X1"]
                      (text "job") in
  let g := exec (load_file f)
                (with_alive true
                   (with_port (Some (mkPort true true)) Grbl.init)) in
  let ms := steps 0 4 ++ Call (OpReceive (text "ok")) :: steps 0 1 in
  let p := play ms (move (Call OpStart) (mkThreads g [] 1)) in
  workers p = [TxMarked] /\ _cmd_index (shared p) = 0 /\
  exists f1,
    _file (shared p) = Some f1 /\ sent_count f1 = 1 /\
    ok_count f1 + error_count f1 = 0 /\
    length (_buffer_fill (shared p)) <= 1.
Proof.
  cbv zeta.
  match goal with
  | |- workers (play ?ms (move _ (mkThreads ?g [] 1))) = _ /\ _ =>
      destruct (counters_track_run
                  g (reset_status
                       (from_lines [text "G0 X0"; text "GARBAGE";
                                    text "G0 X1"] (text "job"))) 1 ms)
        as (pc & f1 & Hw & Hf1 & _ & Hs & _ & _ & _ & Ha & Hb);
        [ vm_compute; reflexivity | vm_compute; reflexivity
        | vm_compute; reflexivity | ]
  end.
  assert (Hpc : pc = TxMarked)
    by (vm_compute in Hw; now injection Hw as <-).
  subst pc; split; [exact Hw|].
  split; [vm_compute; reflexivity|].
  exists f1; split; [exact Hf1|].
  split; [rewrite Hs; vm_compute; reflexivity|].
  split; [rewrite Ha; vm_compute; reflexivity|].
  rewrite Hs in Hb; vm_compute in Hb |- *; exact Hb.
Defined.

Module QuietFacts.
Import PyStr PyStrFacts Num GCode Grbl Stream Run Surface Frame.
Local Open Scope grbl_scope.

Lemma silent_refl : forall g, silent g g.
Proof. reflexivity. Qed.

Lemma silent_trans : forall a b c, silent a b -> silent b c -> silent a c.
Proof. unfold silent; intros a b c H1 H2; congruence. Qed.

Ltac quiet_leaf :=
  intro; unfold silent, emit, update_commands, progress_event; simpl;
  repeat match goal with
    | |- context [match _file ?g with _ => _ end] => destruct (_file g)
    end;
  simpl; rewrite ?MethodFacts.written_app; simpl; rewrite ?app_nil_r;
  reflexivity.

Ltac quiet :=
  repeat match goal with
    | |- respects _ (ret _) => apply (@respects_ret _ silent_refl)
    | |- respects _ (raise _) => apply (@respects_raise _ silent_refl)
    | |- respects _ (read _) => apply (@respects_read _ silent_refl)
    | |- respects _ (modify _) => apply respects_modify; quiet_leaf
    | |- respects _ (when _ _) => apply (@respects_when _ silent_refl)
    | |- respects _ (bind _ _) =>
        apply (@respects_bind _ silent_trans); [|intro]
    | |- respects _ (if ?b then _ else _) => destruct b
    | |- respects _ (match ?o with Some _ => _ | None => _ end) => destruct o
    | |- respects _ (match ?l with [] => _ | _ :: _ => _ end) => destruct l
    | |- respects _ (let _ := _ in _) => cbv zeta
    end.

Lemma quiet_set_status_prop : forall st, respects silent (set_status_prop st).
Proof. intro st; unfold set_status_prop; quiet. Qed.

Lemma quiet_to_float : forall t, respects silent (to_float t).
Proof. intro t; unfold to_float; quiet. Qed.

Lemma quiet_parse_field : forall part, respects silent (parse_field part).
Proof.
  intro part; unfold parse_field.
  quiet; try apply quiet_to_float.
Qed.

Lemma quiet_parse_fields : forall parts, respects silent (parse_fields parts).
Proof.
  induction parts as [|part rest IH]; simpl; quiet;
    [apply quiet_parse_field | exact IH].
Qed.

Lemma quiet_parse_status_report : forall line,
  respects silent (_parse_status_report line).
Proof.
  intro line; unfold _parse_status_report; quiet;
    [apply quiet_set_status_prop | apply quiet_parse_fields].
Qed.

Lemma quiet_process_response : forall line,
  respects silent (_process_response line).
Proof.
  intros line; unfold _process_response, _handle_ok, _handle_error.
  destruct (classify line); quiet.
  - apply quiet_parse_status_report.
  - apply quiet_set_status_prop.
Qed.

End QuietFacts.

(** X27.  The RX side never writes to the port: whatever lines are
    received and processed, in whatever state, the bytes written so far
    stay the same. *)
Theorem receive_never_writes : forall (lines : list str) (g : Controller),
  written (trace (process_all lines g)) = written (trace g).
Proof.
  unfold process_all.
  induction lines as [|line lines IH]; intro g; simpl; [reflexivity|].
  rewrite IH; apply (QuietFacts.quiet_process_response line g).
Qed.

Module LockstepFacts.
Import PyStr PyStrFacts Num GCode Grbl Stream Run Surface Pool.
Local Open Scope grbl_scope.

(** One trip of a worker that nothing holds back, no other thread
    running in between. *)
Lemma worker_trip : forall g n f cmd,
  _streaming g = true -> _alive g = true ->
  _abort_flag g = false -> _paused g = false ->
  _file g = Some f ->
  nth_error (commands f) (_cmd_index g) = Some cmd ->
  encodable cmd = true ->
  sum (_buffer_fill g) + byte_count cmd <= RX_BUFFER_SIZE ->
  can_write g = true ->
  exists g',
    play (steps 0 7) (mkThreads g [TxLoop] n) = mkThreads g' [TxLoop] n /\
    _file g' = Some (mkFile (update_nth (_cmd_index g) (set_status SENT)
                                        (commands f)) (filename f)) /\
    _cmd_index g' = S (_cmd_index g) /\
    _buffer_fill g' = _buffer_fill g ++ [byte_count cmd] /\
    (_streaming g', _paused g', _abort_flag g', _alive g', _port g') =
    (_streaming g, _paused g, _abort_flag g, _alive g, _port g) /\
    written (trace g') = written (trace g) ++ [serial_bytes cmd].
Proof.
  intros g n f cmd Hs Hl Ha Hp Hf Hn He Hb Hw.
  assert (Hlt : (_cmd_index g <? total f) = true).
  { apply Nat.ltb_lt; unfold total; apply nth_error_Some; congruence. }
  assert (Hfull : (RX_BUFFER_SIZE <? sum (_buffer_fill g) + byte_count cmd) = false)
    by (now apply Nat.ltb_ge).
  destruct (WorkerFacts.tx_write_cases cmd g) as [[Ew _] | (e & _ & E)];
    [|congruence].
  unfold steps; cbn [repeat].
  (* fetch *)
  rewrite PoolFacts.play_cons; cbn [move]; rewrite PoolFacts.worker_alone.
  assert (E1 : worker_tx false (mkSys g TxLoop n) =
               mkSys g (TxWaiting n (_cmd_index g) cmd (sum (_buffer_fill g))) n).
  { unfold worker_tx, tx_step; cbn [tx ctl file_gen at_pc].
    rewrite Hs, Hl, Hf, Hlt, Ha, Hp, Hn; cbn [andb tx at_pc]. now rewrite He. }
  rewrite E1; cbn [ctl tx].
  (* room *)
  rewrite PoolFacts.play_cons; cbn [move]; rewrite PoolFacts.worker_alone.
  assert (E2 : worker_tx false
                 (mkSys g (TxWaiting n (_cmd_index g) cmd (sum (_buffer_fill g))) n) =
               mkSys g (TxReady n (_cmd_index g) cmd (sum (_buffer_fill g))) n).
  { unfold worker_tx, tx_step; cbn [tx ctl file_gen at_pc]. now rewrite Hfull. }
  rewrite E2; cbn [ctl tx].
  (* write *)
  rewrite PoolFacts.play_cons; cbn [move]; rewrite PoolFacts.worker_alone.
  set (g1 := emit (EvWrite (serial_bytes cmd)) g).
  assert (E3 : worker_tx false
                 (mkSys g (TxReady n (_cmd_index g) cmd (sum (_buffer_fill g))) n) =
               mkSys g1 (TxWritten n (_cmd_index g) cmd) n).
  { unfold worker_tx, tx_step; cbn [tx ctl file_gen at_pc].
    rewrite Ha, Hl, Ew; reflexivity. }
  rewrite E3; cbn [ctl tx].
  (* append, mark, advance, pause *)
  rewrite PoolFacts.play_cons; cbn [move]; rewrite PoolFacts.worker_alone.
  change (worker_tx false (mkSys g1 (TxWritten n (_cmd_index g) cmd) n))
    with (mkSys (tx_append (byte_count cmd) g1) (TxAppended n (_cmd_index g)) n).
  cbn [ctl tx].
  set (g2 := tx_append (byte_count cmd) g1).
  rewrite PoolFacts.play_cons; cbn [move]; rewrite PoolFacts.worker_alone.
  assert (E5 : worker_tx false (mkSys g2 (TxAppended n (_cmd_index g)) n) =
               mkSys (tx_mark (_cmd_index g) g2) TxMarked n).
  { unfold worker_tx, tx_step; cbn [tx ctl file_gen at_pc].
    now rewrite Nat.eqb_refl. }
  rewrite E5; cbn [ctl tx].
  set (g3 := tx_mark (_cmd_index g) g2).
  rewrite PoolFacts.play_cons; cbn [move]; rewrite PoolFacts.worker_alone.
  change (worker_tx false (mkSys g3 TxMarked n))
    with (mkSys (tx_advance g3) TxPacing n).
  cbn [ctl tx].
  set (g4 := tx_advance g3).
  rewrite PoolFacts.play_cons; cbn [move]; rewrite PoolFacts.worker_alone.
  change (worker_tx false (mkSys g4 TxPacing n))
    with (mkSys (if 0 <? tx_short_ms (_threading_mode g4)
                 then emit (EvSleep (tx_short_ms (_threading_mode g4))) g4
                 else g4) TxLoop n).
  cbn [ctl tx play fold_left].
  eexists; split; [reflexivity|].
  unfold g4, g3, g2, g1, tx_advance, tx_mark, tx_append, update_commands, emit.
  destruct (0 <? tx_short_ms _); simpl; rewrite Hf; simpl;
    rewrite ?MethodFacts.written_app; simpl; rewrite ?app_nil_r; auto 10.
Qed.

Lemma all_ok_not_sent : forall l,
  Forall (fun c => status c = OK) l ->
  Forall (fun c => is_sent c = false) l.
Proof.
  intros l H; eapply Forall_impl; [|exact H].
  intros c E; unfold is_sent; now rewrite E.
Qed.

(** The rest of a lockstep run, from a state in which the commands of
    [A] are acknowledged and those of [Qd] are still to send. *)
Lemma lockstep_from : forall Qd A g nm n,
  _file g = Some (mkFile (A ++ Qd) nm) ->
  Forall (fun c => status c = OK) A ->
  Forall (fun c => encodable c = true /\ byte_count c <= RX_BUFFER_SIZE) Qd ->
  _cmd_index g = length A -> _buffer_fill g = [] ->
  _streaming g = true -> _alive g = true ->
  _abort_flag g = false -> _paused g = false -> can_write g = true ->
  exists g1,
    play (lockstep (length Qd)) (mkThreads g [TxLoop] n) =
      mkThreads g1 [TxLoop] n /\
    _file g1 = Some (mkFile (A ++ map (set_status OK) Qd) nm) /\
    _cmd_index g1 = length A + length Qd /\ _buffer_fill g1 = [] /\
    _streaming g1 = true /\ _alive g1 = true /\ _abort_flag g1 = false /\
    written (trace g1) = written (trace g) ++ map serial_bytes Qd.
Proof.
  induction Qd as [|c Qd IH]; intros A g nm n Hf HA Hfit Hi Hb Hs Hl Ha Hp Hw.
  - exists g; simpl; rewrite app_nil_r in Hf |- *.
    rewrite app_nil_r, Nat.add_0_r; repeat split; auto.
  - apply Forall_cons_iff in Hfit as [[Hce Hc] Hfit].
    assert (Hn : nth_error (commands (mkFile (A ++ c :: Qd) nm))
                           (_cmd_index g) = Some c).
    { simpl; rewrite Hi, nth_error_app2, Nat.sub_diag by lia; reflexivity. }
    destruct (worker_trip g n _ c Hs Hl Ha Hp Hf Hn Hce)
      as (g' & Hplay & Hf' & Hi' & Hb' & Hflags & Ht');
      [rewrite Hb; simpl; exact Hc | exact Hw |].
    injection Hflags as Hs' Hp' Ha' Hl' Hport'.
    simpl in Hf'.
    rewrite Hi, <- (Nat.add_0_r (length A)), RunFacts.update_nth_app in Hf'.
    simpl in Hf'.
    set (g2 := exec (_process_response (text "ok")) g').
    destruct (ControllerFacts.process_ack_effect g' (text "ok") eq_refl)
      as (Eb & Ei & Es & Ep & Ea & El & Eport & Ef).
    fold g2 in Eb, Ei, Es, Ep, Ea, El, Eport, Ef.
    rewrite Hf', Hs', Hs in Ef; cbn [commands filename] in Ef.
    rewrite (@RunFacts.mark_oldest_sent_app (acked (text "ok")) A
               (set_status SENT c) Qd (all_ok_not_sent A HA) eq_refl) in Ef.
    change (acked (text "ok") (set_status SENT c)) with (set_status OK c) in Ef.
    destruct (IH (A ++ [set_status OK c]) g2 nm n)
      as (g1 & R1 & F1 & I1 & B1 & S1 & L1 & A1 & W1).
    + rewrite Ef, <- app_assoc; reflexivity.
    + apply Forall_app; split; [exact HA | repeat constructor].
    + exact Hfit.
    + rewrite Ei, Hi', Hi, length_app; simpl; lia.
    + rewrite Eb, Hb', Hb; reflexivity.
    + congruence.
    + congruence.
    + congruence.
    + congruence.
    + unfold can_write in *; rewrite Eport, Hport'; exact Hw.
    + exists g1.
      split.
      { cbn [length lockstep].
        rewrite PoolFacts.play_app, Hplay, PoolFacts.play_cons; cbn [move].
        rewrite PoolFacts.receive_alone; fold g2; exact R1. }
      rewrite <- app_assoc in F1; simpl in F1.
      split; [exact F1|].
      split; [rewrite I1, length_app; simpl; lia|].
      split; [exact B1|].
      split; [exact S1|]; split; [exact L1|]; split; [exact A1|].
      rewrite W1.
      assert (Wq : written (trace g2) = written (trace g'))
        by exact (QuietFacts.quiet_process_response (text "ok") g').
      rewrite Wq, Ht'; simpl.
      rewrite <- app_assoc; reflexivity.
Qed.

(** The end of the worker once the cursor has reached the end of the
    program and the queue is empty. *)
Lemma worker_finishes : forall g f n,
  _file g = Some f -> _cmd_index g = total f -> _buffer_fill g = [] ->
  _streaming g = true -> _alive g = true -> _abort_flag g = false ->
  play (steps 0 4) (mkThreads g [TxLoop] n) =
  mkThreads (emit EvJobFinished (with_streaming false g)) [TxNone] n.
Proof.
  intros g f n Hf Hi Hb Hs Hl Ha.
  unfold steps; cbn [repeat].
  rewrite PoolFacts.play_cons; cbn [move]; rewrite PoolFacts.worker_alone.
  assert (E1 : worker_tx false (mkSys g TxLoop n) = mkSys g TxDrain n).
  { unfold worker_tx, tx_step; cbn [tx ctl file_gen at_pc].
    rewrite Hs, Hl, Hf, Hi, Nat.ltb_irrefl; reflexivity. }
  rewrite E1; cbn [ctl tx].
  rewrite PoolFacts.play_cons; cbn [move]; rewrite PoolFacts.worker_alone.
  assert (E2 : worker_tx false (mkSys g TxDrain n) = mkSys g TxDraining n).
  { unfold worker_tx, tx_step; cbn [tx ctl file_gen at_pc].
    rewrite Ha; reflexivity. }
  rewrite E2; cbn [ctl tx].
  rewrite PoolFacts.play_cons; cbn [move]; rewrite PoolFacts.worker_alone.
  assert (E3 : worker_tx false (mkSys g TxDraining n) = mkSys g TxFinish n).
  { unfold worker_tx, tx_step; cbn [tx ctl file_gen at_pc].
    rewrite Hb; reflexivity. }
  rewrite E3; cbn [ctl tx].
  rewrite PoolFacts.play_cons; cbn [move]; rewrite PoolFacts.worker_alone.
  reflexivity.
Qed.

End LockstepFacts.

(** X28.  A job of ASCII commands that all fit the buffer runs to its end
    when its worker is the only one and each [ok] is processed at the
    end of the trip of its command: after the worker has marked the
    command SENT, advanced the cursor and paused, and before it fetches
    the next command.  Started on a port that takes the bytes, the run
    sends every command once, in program order, and ends with every
    command OK, the cursor at the end of the program, the inflight queue
    empty, [_streaming] off and the end of the job notified. *)
Theorem lockstep_run_completes :
  forall (g : Controller) (f : GCodeFile) (n : nat),
  ready g = true -> can_write g = true -> _alive g = true ->
  _file g = Some f ->
  Forall (fun c => encodable c = true /\ byte_count c <= RX_BUFFER_SIZE)
         (commands f) ->
  let p := play (Call OpStart :: lockstep (total f) ++ steps 0 4)
                (mkThreads g [] n) in
  workers p = [TxNone] /\
  _streaming (shared p) = false /\
  _cmd_index (shared p) = total f /\
  _buffer_fill (shared p) = [] /\
  written (trace (shared p)) =
    written (trace g) ++ map serial_bytes (commands f) /\
  last (trace (shared p)) EvStartTx = EvJobFinished /\
  exists f1,
    _file (shared p) = Some f1 /\
    Forall (fun c => status c = OK) (commands f1) /\
    map raw (commands f1) = map raw (commands f) /\
    ok_count f1 = total f.
Proof.
  intros g f n Hready Hw Hl Hf Hfit; cbv zeta.
  pose proof Hready as Hr.
  unfold ready in Hr.
  apply andb_prop in Hr as [H Hs]; apply andb_prop in H as [_ Hc].
  apply negb_true_iff in Hs.
  set (g0 := exec start_stream g).
  assert (E : (_file g0, _cmd_index g0, _buffer_fill g0, _streaming g0,
               _alive g0, _abort_flag g0, _paused g0, _port g0,
               written (trace g0)) =
              (Some (reset_status f), 0, [], true, true, false, false,
               _port g, written (trace g))).
  { unfold g0, exec, start_stream, bind, read, ret, modify, has_file.
    rewrite Hf, Hc; simpl; rewrite Hs; simpl; rewrite Hf; simpl; rewrite Hl.
    rewrite MethodFacts.written_app; simpl; rewrite app_nil_r; reflexivity. }
  injection E as E1 E2 E3 E4 E5 E6 E7 E8 E9.
  assert (Hstart : move (Call OpStart) (mkThreads g [] n) =
                   mkThreads g0 [TxLoop] n).
  { unfold move, method_step, op_step; cbn [ctl tx file_gen shared workers loads].
    fold g0; unfold ready in Hready; rewrite Hready; reflexivity. }
  rewrite PoolFacts.play_cons, Hstart, PoolFacts.play_app.
  destruct (LockstepFacts.lockstep_from (commands (reset_status f)) [] g0 (filename f) n)
    as (g1 & R1 & F1 & I1 & B1 & S1 & L1 & A1 & W1); auto.
  - simpl; apply Forall_map; eapply Forall_impl; [|exact Hfit].
    intros c Hc'; exact Hc'.
  - unfold can_write in *; now rewrite E8.
  - simpl in R1, F1, I1, W1.
    rewrite length_map in R1, I1.
    fold (total f) in R1, I1.
    rewrite R1.
    rewrite (LockstepFacts.worker_finishes g1 _ n F1); auto;
      [|unfold total; simpl; rewrite !length_map; exact I1].
    cbn [workers shared].
    split; [reflexivity|]; split; [reflexivity|].
    split; [exact I1|]; split; [exact B1|].
    split.
    { rewrite WorkerFacts.written_emit_finished.
      change (written (trace (with_streaming false g1)))
        with (written (trace g1)).
      rewrite W1, E9, map_map; reflexivity. }
    split; [unfold emit; simpl; apply last_last|].
    exists (mkFile (map (set_status OK)
                        (map (fun c => mkCommand (raw c) QUEUED None)
                             (commands f)))
                   (filename f)).
    split; [exact F1|]; simpl.
    split; [rewrite map_map; apply Forall_map, Forall_forall; reflexivity|].
    split; [rewrite !map_map; reflexivity|].
    unfold ok_count, count, total; simpl.
    rewrite map_map, TripFacts.filter_all, length_map; [reflexivity|].
    apply Forall_map, Forall_forall; reflexivity.
Qed.

Lemma lockstep_run_completes_witness :
  let f := from_lines [text "G0 X0"; text "M3 S100"; text "G1 X1 F300"]
                      (text "job") in
  let g := exec (load_file f)
                (with_alive true
                   (with_port (Some (mkPort true true)) Grbl.init)) in
  let p := play (Call OpStart :: lockstep 3 ++ steps 0 4)
                (mkThreads g [] 1) in
  workers p = [TxNone] /\
  map status (program (shared p)) = [OK; OK; OK] /\
  written (trace (shared p)) =
    [text "G0 X0" ++ [ch_newline]; text "M3 S100" ++ [ch_newline];
     text "G1 X1 F300" ++ [ch_newline]].
Proof.
  cbv zeta.
  match goal with
  | |- workers (play _ (mkThreads ?g [] 1)) = _ /\ _ =>
      destruct (lockstep_run_completes
                  g (reset_status
                       (from_lines [text "G0 X0"; text "M3 S100";
                                    text "G1 X1 F300"] (text "job"))) 1)
        as (Hw & _ & _ & _ & Hwr & _);
        [ vm_compute; reflexivity | vm_compute; reflexivity
        | vm_compute; reflexivity | vm_compute; reflexivity
        | vm_compute; repeat constructor | ]
  end.
  split; [exact Hw|].
  split; [vm_compute; reflexivity | exact Hwr].
Defined.

(** The same job when each [ok] is processed between the append and the
    SENT mark of its command: the first [ok] finds no SENT command and
    is dropped, each later one acknowledges the command before, and the
    job ends with its last command SENT for good, the queue empty. *)
Remark early_ok_is_lost :
  let f := from_lines [text "G0 X0"; text "M3 S100"; text "G1 X1 F300"]
                      (text "job") in
  let trip := steps 0 4 ++ Call (OpReceive (text "ok")) :: steps 0 3 in
  let p := play ([Call (OpConnected (mkPort true true)); Call (OpLoad f);
                  Call OpStart] ++ trip ++ trip ++ trip ++ steps 0 4)
                begin in
  workers p = [TxNone] /\
  map status (program (shared p)) = [OK; OK; SENT] /\
  _buffer_fill (shared p) = [] /\ _streaming (shared p) = false.
Proof. vm_compute; repeat split. Qed.

Module RecordFacts.
Import PyStr PyStrFacts Num GCode Grbl Stream Run Surface Pool Frame.
Local Open Scope grbl_scope.

Lemma serial_bytes_raw : forall c c',
  raw c' = raw c -> serial_bytes c' = serial_bytes c.
Proof. intros c c' H; unfold serial_bytes, stripped; now rewrite H. Qed.

Lemma moved_on_refl : forall c, moved_on c c.
Proof.
  intro c; split; [reflexivity|].
  destruct (status c); (now left) || (right; discriminate).
Qed.

Lemma moved_on_trans : forall a b c,
  moved_on a b -> moved_on b c -> moved_on a c.
Proof.
  intros a b c [R1 S1] [R2 S2]; split; [congruence|].
  destruct S2 as [S2 | S2]; [now left|].
  destruct S1 as [S1 | S1]; [contradiction | now right].
Qed.

Lemma Forall2_moved_refl : forall l, Forall2 moved_on l l.
Proof. induction l; constructor; auto using moved_on_refl. Qed.

Lemma Forall2_moved_trans : forall l1 l2 l3,
  Forall2 moved_on l1 l2 -> Forall2 moved_on l2 l3 -> Forall2 moved_on l1 l3.
Proof.
  intros l1 l2 l3 H; revert l3.
  induction H as [|a b l1 l2 Hab _ IH]; intros l3 H3; inversion H3; subst;
    constructor; eauto using moved_on_trans.
Qed.

Lemma record_refl : forall g, keeps_record g g.
Proof. intro g; split; [apply incl_refl | apply Forall2_moved_refl]. Qed.

Lemma record_trans : forall a b c,
  keeps_record a b -> keeps_record b c -> keeps_record a c.
Proof.
  intros a b c [I1 F1] [I2 F2]; split.
  - eapply incl_tran; eauto.
  - eapply Forall2_moved_trans; eauto.
Qed.

Lemma record_same_program : forall g g',
  program g' = program g ->
  incl (written (trace g)) (written (trace g')) ->
  keeps_record g g'.
Proof.
  intros g g' Hp Hi; split; [exact Hi|].
  rewrite Hp; apply Forall2_moved_refl.
Qed.

Lemma Forall2_mark : forall h l,
  (forall c, raw (h c) = raw c) ->
  Forall2 moved_on l (mark_oldest_sent h l).
Proof.
  intros h l Hh; induction l as [|c l IH]; simpl; [constructor|].
  destruct (status_eqb (status c) SENT) eqn:E.
  - constructor; [|apply Forall2_moved_refl].
    split; [apply Hh|]; right.
    destruct (status c); discriminate.
  - constructor; [apply moved_on_refl | exact IH].
Qed.

Lemma record_mark : forall h,
  (forall c, raw (h c) = raw c) ->
  forall g, keeps_record g (update_commands (mark_oldest_sent h) g).
Proof.
  intros h Hh g; unfold keeps_record, update_commands, program.
  destruct (_file g) as [f|] eqn:E; simpl; rewrite ?E;
    (split; [apply incl_refl|]); [now apply Forall2_mark | constructor].
Qed.

Lemma record_reset : forall g,
  keeps_record g (match _file g with
                  | Some f => with_file (Some (reset_status f)) g
                  | None => g
                  end).
Proof.
  intro g; unfold keeps_record, program.
  destruct (_file g) as [f|] eqn:E; simpl; rewrite ?E;
    (split; [apply incl_refl|]); [|constructor].
  induction (commands f) as [|c l IH]; simpl; constructor; [|exact IH].
  split; [reflexivity | now left].
Qed.

Ltac record_leaf :=
  intro;
  first [ apply record_same_program;
          [ reflexivity
          | unfold emit; simpl; rewrite ?MethodFacts.written_app;
            auto using incl_refl, incl_appl ]
        | apply record_mark; intro; reflexivity
        | apply record_reset ].

Ltac records :=
  repeat match goal with
    | |- respects _ (ret _) => apply (@respects_ret _ record_refl)
    | |- respects _ (raise _) => apply (@respects_raise _ record_refl)
    | |- respects _ (read _) => apply (@respects_read _ record_refl)
    | |- respects _ (modify _) => apply respects_modify; record_leaf
    | |- respects _ (when _ _) => apply (@respects_when _ record_refl)
    | |- respects _ (swallow _ _) => apply respects_swallow
    | |- respects _ (bind _ _) =>
        apply (@respects_bind _ record_trans); [|intro]
    | |- respects _ (block _) =>
        apply (@respects_block _ record_refl record_trans)
    | |- Forall (respects _) (_ :: _) => constructor
    | |- Forall (respects _) [] => constructor
    | |- respects _ (sleep _) => unfold sleep
    | |- respects _ (if ?b then _ else _) => destruct b
    | |- respects _ (match ?o with Some _ => _ | None => _ end) => destruct o
    | |- respects _ (match ?l with [] => _ | _ :: _ => _ end) => destruct l
    | |- respects _ (let _ := _ in _) => cbv zeta
    end.

Lemma records_set_status_prop : forall st,
  respects keeps_record (set_status_prop st).
Proof. intro st; unfold set_status_prop; records. Qed.

Lemma records_port_write : forall data, respects keeps_record (port_write data).
Proof. intro data; unfold port_write; records. Qed.

Lemma records_send_realtime : forall data,
  respects keeps_record (_send_realtime data).
Proof.
  intro data; unfold _send_realtime; records; apply records_port_write.
Qed.

Lemma records_send_command : forall line,
  respects keeps_record (send_command line).
Proof.
  intro line; unfold send_command; records; apply records_port_write.
Qed.

Lemma records_to_float : forall t, respects keeps_record (to_float t).
Proof. intro t; unfold to_float; records. Qed.

Lemma records_parse_field : forall part,
  respects keeps_record (parse_field part).
Proof.
  intro part; unfold parse_field.
  records; try apply records_to_float.
Qed.

Lemma records_parse_fields : forall parts,
  respects keeps_record (parse_fields parts).
Proof.
  induction parts as [|part rest IH]; simpl; records;
    [apply records_parse_field | exact IH].
Qed.

Lemma records_parse_status_report : forall line,
  respects keeps_record (_parse_status_report line).
Proof.
  intro line; unfold _parse_status_report; records;
    [apply records_set_status_prop | apply records_parse_fields].
Qed.

Lemma records_process_response : forall line,
  respects keeps_record (_process_response line).
Proof.
  intros line; unfold _process_response, _handle_ok, _handle_error.
  destruct (classify line); records.
  - apply records_parse_status_report.
  - apply records_set_status_prop.
Qed.

Lemma records_feed_hold : respects keeps_record feed_hold.
Proof. unfold feed_hold; records; apply records_send_realtime. Qed.

Lemma records_cycle_resume : respects keeps_record cycle_resume.
Proof. unfold cycle_resume; records; apply records_send_realtime. Qed.

Lemma records_soft_reset : respects keeps_record soft_reset.
Proof.
  unfold soft_reset, soft_reset_body; records;
    [apply records_send_realtime | apply records_set_status_prop].
Qed.

Lemma records_abort_stream : respects keeps_record abort_stream.
Proof.
  unfold abort_stream; records;
    [apply records_soft_reset | apply records_send_command ..].
Qed.

Lemma records_disconnect : respects keeps_record disconnect.
Proof. unfold disconnect; records; apply records_set_status_prop. Qed.

Lemma records_start_stream : respects keeps_record start_stream.
Proof. unfold start_stream; records. Qed.

(** *** The invariant *)

Lemma Forall2_nth : forall l l' i c,
  Forall2 moved_on l l' -> nth_error l i = Some c ->
  exists c', nth_error l' i = Some c' /\ moved_on c c'.
Proof.
  intros l l' i c H; revert i.
  induction H as [|a b l l' Hab _ IH]; intros [|i] Hn; simpl in *;
    try discriminate.
  - injection Hn as <-; eauto.
  - now apply IH.
Qed.

Lemma written_kept : forall g g',
  keeps_record g g' -> sent_were_written g -> sent_were_written g'.
Proof.
  intros g g' [Hi Hf] H; unfold sent_were_written in *.
  induction Hf as [|c c' l l' [Hr Hs] _ IH]; [constructor|].
  inversion H as [|? ? Hc Hl]; subst.
  constructor; [|now apply IH].
  destruct Hs as [Hs | Hs]; [now left|].
  destruct Hc as [Hc | Hc]; [contradiction|].
  right; rewrite (serial_bytes_raw _ _ Hr); now apply Hi.
Qed.

Lemma fetched_kept : forall s g' gen i cmd,
  keeps_record (ctl s) g' -> fetched s gen i cmd ->
  fetched (mkSys g' (tx s) (file_gen s)) gen i cmd.
Proof.
  intros s g' gen i cmd [_ Hf] [Hg Hl]; split; [exact Hg|].
  intro E; destruct (Hl E) as (c & Hn & Hr); simpl.
  destruct (Forall2_nth _ _ _ _ Hf Hn) as (c' & Hn' & Hr' & _).
  exists c'; split; [exact Hn' | congruence].
Qed.

Lemma recorded_kept : forall s g',
  recorded s -> keeps_record (ctl s) g' ->
  recorded (mkSys g' (tx s) (file_gen s)).
Proof.
  intros s g' [H1 H2] Hk; split; [now apply (written_kept _ _ Hk)|].
  simpl; destruct (tx s); auto.
  - now apply (fetched_kept s).
  - now apply (fetched_kept s).
  - destruct H2 as [H2 H3]; split; [now apply (fetched_kept s)|].
    now apply (proj1 Hk).
  - destruct H2 as [Hg Hl]; split; [exact Hg|].
    intro E; destruct (Hl E) as (c & Hn & Hin).
    destruct (Forall2_nth _ _ _ _ (proj2 Hk) Hn) as (c' & Hn' & Hr' & _).
    exists c'; split; [exact Hn'|].
    rewrite (serial_bytes_raw _ _ Hr'); now apply (proj1 Hk).
Qed.

Lemma Forall_update_nth : forall (P : GCodeCommand -> Prop) h l i,
  Forall P l ->
  (forall c, nth_error l i = Some c -> P (h c)) ->
  Forall P (update_nth i h l).
Proof.
  intros P h; induction l as [|x l IH]; intros i H Hh;
    [destruct i; constructor|].
  inversion H; subst.
  destruct i as [|i]; simpl.
  - constructor; [now apply Hh | assumption].
  - constructor; [assumption|].
    apply IH; [assumption|]; intros c Hc; now apply Hh.
Qed.

(** A step of the TX worker that changes nothing but flags and events
    other than writes. *)
Lemma recorded_plain : forall s g' pc,
  recorded s -> keeps_record (ctl s) g' ->
  match pc with
  | TxWaiting _ _ _ _ | TxReady _ _ _ _ | TxWritten _ _ _ | TxAppended _ _ =>
      False
  | _ => True
  end ->
  recorded (mkSys g' pc (file_gen s)).
Proof.
  intros s g' pc [H1 _] Hk Hpc; split; [now apply (written_kept _ _ Hk)|].
  simpl; destruct pc; auto; contradiction.
Qed.

Lemma sleep_keeps : forall ms g, keeps_record g (emit (EvSleep ms) g).
Proof.
  intros ms g; apply record_same_program; [reflexivity|].
  rewrite WorkerFacts.written_emit_sleep; apply incl_refl.
Qed.

Lemma recorded_tx_step : forall t s, recorded s -> recorded (tx_step t s).
Proof.
  intros t [g pc gen] H; pose proof H as [H1 H2]; simpl in H1, H2.
  unfold tx_step; cbn [tx ctl file_gen at_pc].
  destruct pc as [| |gn i cmd bu|gn i cmd bu|gn i cmd|gn i| | | | |].
  - exact H.
  - (* TxLoop *)
    destruct (_streaming g && _alive g);
      [|apply (recorded_plain _ g TxDrain H (record_refl g) I)].
    destruct (_file g) as [f|] eqn:Hf;
      [|apply (recorded_plain _ g TxNone H (record_refl g) I)].
    destruct (_cmd_index g <? total f);
      [|apply (recorded_plain _ g TxDrain H (record_refl g) I)].
    destruct (_abort_flag g);
      [apply (recorded_plain _ g TxDrain H (record_refl g) I)|].
    destruct (_paused g);
      [apply (recorded_plain _ _ TxLoop H (sleep_keeps 50 g) I)|].
    destruct (nth_error (commands f) (_cmd_index g)) as [cmd|] eqn:Hn;
      [|apply (recorded_plain _ g TxNone H (record_refl g) I)].
    split; [exact H1|]; unfold fetched; simpl; split; [apply le_n|]; intros _.
    exists cmd; unfold program; rewrite Hf; auto.
  - (* TxWaiting *)
    destruct (RX_BUFFER_SIZE <? bu + byte_count cmd);
      [destruct (_abort_flag g || negb (_alive g))|];
      split; simpl; auto.
  - (* TxReady *)
    destruct (_abort_flag g || negb (_alive g));
      [apply (recorded_plain _ g TxDrain H (record_refl g) I)|].
    destruct (WorkerFacts.tx_write_cases cmd g) as [[-> _] | (e & -> & _)].
    + assert (Hk : keeps_record g (emit (EvWrite (serial_bytes cmd)) g)).
      { apply record_same_program; [reflexivity|].
        rewrite WorkerFacts.written_emit_write; apply incl_appl, incl_refl. }
      split; [now apply (written_kept _ _ Hk)|].
      cbn [tx ctl file_gen at_pc]; split.
      * exact (fetched_kept (mkSys g (TxReady gn i cmd bu) gen) _ gn i cmd
                            Hk H2).
      * rewrite WorkerFacts.written_emit_write; apply in_or_app.
        right; now left.
    + destruct e;
        [ apply (recorded_plain _ _ TxDrain H); [|exact I]
        | apply (recorded_plain _ g TxNone H (record_refl g) I)
        | apply (recorded_plain _ g TxNone H (record_refl g) I) ].
      apply record_same_program; [reflexivity | apply incl_refl].
  - (* TxWritten *)
    destruct H2 as [[Hg Hl] Hin].
    split; [exact H1|]; simpl; split; [exact Hg|].
    intro E; destruct (Hl E) as (c & Hn & Hr).
    exists c; split; [exact Hn|].
    now rewrite (serial_bytes_raw _ _ Hr).
  - (* TxAppended *)
    destruct H2 as [Hg Hl].
    destruct (Nat.eqb gn gen) eqn:E; [|split; simpl; auto].
    apply Nat.eqb_eq in E; destruct (Hl E) as (c & Hn & Hin).
    split; [|exact I]; simpl.
    unfold sent_were_written, program, tx_mark, update_commands in *.
    destruct (_file g) as [f|]; simpl; [|destruct i; discriminate].
    apply Forall_update_nth; [exact H1|].
    intros c0 Hc0; right.
    rewrite Hn in Hc0; injection Hc0 as <-; exact Hin.
  - apply (recorded_plain _ _ TxPacing H); [|exact I].
    apply record_same_program; [reflexivity | apply incl_refl].
  - destruct (0 <? tx_short_ms (_threading_mode g));
      [apply (recorded_plain _ _ TxLoop H (sleep_keeps _ g) I)
      |apply (recorded_plain _ g TxLoop H (record_refl g) I)].
  - destruct (_abort_flag g);
      [apply (recorded_plain _ g TxFinish H (record_refl g) I)
      |apply (recorded_plain _ g TxDraining H (record_refl g) I)].
  - destruct (_buffer_fill g);
      [apply (recorded_plain _ g TxFinish H (record_refl g) I)|].
    destruct t;
      [apply (recorded_plain _ g TxFinish H (record_refl g) I)
      |apply (recorded_plain _ _ TxDraining H (sleep_keeps _ g) I)].
  - apply (recorded_plain _ _ TxNone H); [|exact I].
    apply record_same_program; [reflexivity|].
    rewrite WorkerFacts.written_emit_finished; apply incl_refl.
Qed.

Lemma recorded_op_step : forall o s,
  recorded s -> enabled o s = true -> recorded (op_step o s).
Proof.
  intros o s Hs He.
  destruct o; unfold op_step.
  - apply recorded_kept; [exact Hs | apply records_process_response].
  - apply recorded_kept; [exact Hs|].
    destruct (_alive (ctl s)); [|apply record_refl].
    unfold exec; eapply record_trans; [|apply records_set_status_prop].
    apply record_same_program; [reflexivity | apply incl_refl].
  - apply recorded_kept; [exact Hs | apply records_send_realtime].
  - apply recorded_kept; [exact Hs | apply records_feed_hold].
  - apply recorded_kept; [exact Hs | apply records_cycle_resume].
  - apply recorded_kept; [exact Hs | apply records_soft_reset].
  - apply recorded_kept; [exact Hs | apply records_abort_stream].
  - apply recorded_kept; [exact Hs | apply records_send_command].
  - (* OpLoad *)
    destruct Hs as [H1 H2]; split.
    + unfold sent_were_written, program, exec, load_file; simpl.
      apply Forall_map, Forall_forall; intros; now left.
    + simpl.
      destruct (tx s); auto; unfold fetched in *; simpl.
      * destruct H2 as [Hg _]; split; [lia|]; intro; lia.
      * destruct H2 as [Hg _]; split; [lia|]; intro; lia.
      * destruct H2 as [[Hg _] Hin]; split; [split; [lia|]; intro; lia|].
        exact Hin.
      * destruct H2 as [Hg _]; split; [lia|]; intro; lia.
  - apply recorded_kept; [exact Hs | apply records_disconnect].
  - apply recorded_kept; [exact Hs|].
    destruct (_port (ctl s)); [|apply record_refl].
    apply record_same_program; [reflexivity | apply incl_refl].
  - apply recorded_kept; [exact Hs | apply records_send_realtime].
  - apply recorded_kept; [exact Hs|].
    unfold exec, set_threading_mode.
    destruct (THREADING_MODES mode_name); [|apply record_refl].
    apply record_same_program; [reflexivity | apply incl_refl].
  - (* OpConnected *)
    apply recorded_kept; [exact Hs|].
    apply record_same_program; [reflexivity | apply incl_refl].
  - (* OpStart *)
    unfold enabled in He.
    destruct (tx s) eqn:Epc; try discriminate.
    destruct Hs as [H1 _].
    pose proof (written_kept _ _ (records_start_stream (ctl s)) H1) as H1'.
    destruct (has_file (ctl s) && is_connected (ctl s) &&
              negb (_streaming (ctl s))); split; simpl; auto.
Qed.

(** *** With every worker *)

Lemma same_program_lines : forall g g',
  program g' = program g ->
  incl (written (trace g)) (written (trace g')) -> same_lines g g'.
Proof.
  intros g g' Hp Hi; split; [exact Hi|]; rewrite Hp.
  generalize (program g) as l.
  induction l as [|c l IH]; constructor; [reflexivity | exact IH].
Qed.

Lemma same_lines_refl : forall g, same_lines g g.
Proof. intro g; apply same_program_lines; [reflexivity | apply incl_refl]. Qed.

Lemma same_lines_emit : forall e g, same_lines g (emit e g).
Proof.
  intros e g; apply same_program_lines; [reflexivity|].
  unfold emit; simpl; rewrite MethodFacts.written_app; apply incl_appl, incl_refl.
Qed.

Lemma Forall2_raw_nth : forall l l' i c,
  Forall2 (fun c c' : GCodeCommand => raw c' = raw c) l l' ->
  nth_error l i = Some c ->
  exists c', nth_error l' i = Some c' /\ raw c' = raw c.
Proof.
  intros l l' i c H; revert i.
  induction H as [|a b l l' Hab _ IH]; intros [|i] Hn; simpl in *;
    try discriminate.
  - injection Hn as <-; eauto.
  - now apply IH.
Qed.

Lemma Forall2_raw_update : forall h l i,
  (forall c, raw (h c) = raw c) ->
  Forall2 (fun c c' : GCodeCommand => raw c' = raw c) l (update_nth i h l).
Proof.
  intros h; induction l as [|x l IH]; intros i Hh;
    [destruct i; constructor|].
  destruct i; simpl; constructor; auto.
  clear; induction l; constructor; auto.
Qed.

(** What a worker holds stays good while the others write and mark. *)
Lemma recorded_same_lines : forall g g' pc gen,
  recorded (mkSys g pc gen) -> same_lines g g' -> sent_were_written g' ->
  recorded (mkSys g' pc gen).
Proof.
  intros g g' pc gen [_ H2] [Hi Hf] Hw; split; [exact Hw|].
  assert (Hfetch : forall gn i cmd,
            fetched (mkSys g pc gen) gn i cmd ->
            fetched (mkSys g' pc gen) gn i cmd).
  { intros gn i cmd [Hg Hl]; split; [exact Hg|].
    intro E; destruct (Hl E) as (c & Hn & Hr); simpl in *.
    destruct (Forall2_raw_nth _ _ _ _ Hf Hn) as (c' & Hn' & Hr').
    exists c'; split; [exact Hn' | congruence]. }
  simpl in *; destruct pc; auto.
  - destruct H2 as [H2 H3]; split; [now apply Hfetch | now apply Hi].
  - destruct H2 as [Hg Hl]; split; [exact Hg|].
    intro E; destruct (Hl E) as (c & Hn & Hin).
    destruct (Forall2_raw_nth _ _ _ _ Hf Hn) as (c' & Hn' & Hr').
    exists c'; split; [exact Hn'|].
    rewrite (serial_bytes_raw _ _ Hr'); now apply Hi.
Qed.

Lemma tx_step_same_lines : forall t s, same_lines (ctl s) (ctl (tx_step t s)).
Proof.
  intros t [g pc gen]; unfold tx_step; cbn [tx ctl file_gen at_pc].
  assert (Hsame : forall g', program g' = program g ->
                             written (trace g') = written (trace g) ->
                             same_lines g g').
  { intros g' Hp Hi; apply same_program_lines; [exact Hp|].
    rewrite Hi; apply incl_refl. }
  destruct pc as [| |gn i cmd bu|gn i cmd bu|gn i cmd|gn i| | | | |];
    cbn [ctl]; try apply same_lines_refl.
  - destruct (_streaming g && _alive g); [|apply same_lines_refl].
    destruct (_file g) as [f|]; [|apply same_lines_refl].
    destruct (_cmd_index g <? total f); [|apply same_lines_refl].
    destruct (_abort_flag g); [apply same_lines_refl|].
    destruct (_paused g); [apply same_lines_emit|].
    destruct (nth_error (commands f) (_cmd_index g)); apply same_lines_refl.
  - destruct (RX_BUFFER_SIZE <? bu + byte_count cmd);
      [destruct (_abort_flag g || negb (_alive g))|]; cbn [ctl];
      try apply same_lines_refl.
    now apply Hsame.
  - destruct (_abort_flag g || negb (_alive g)); [apply same_lines_refl|].
    destruct (WorkerFacts.tx_write_cases cmd g) as [[-> _] | (e & -> & _)].
    + apply same_lines_emit.
    + destruct e; cbn [ctl]; try apply same_lines_refl.
      now apply Hsame.
  - now apply Hsame.
  - destruct (Nat.eqb gn gen); [|apply same_lines_refl].
    unfold same_lines, tx_mark, update_commands, program; cbn [ctl at_pc].
    destruct (_file g) as [f|] eqn:E; simpl; rewrite ?E;
      (split; [apply incl_refl|]); [|constructor].
    apply Forall2_raw_update; reflexivity.
  - now apply Hsame.
  - destruct (0 <? tx_short_ms (_threading_mode g));
      [apply same_lines_emit | apply same_lines_refl].
  - destruct (_abort_flag g); apply same_lines_refl.
  - destruct (_buffer_fill g); [apply same_lines_refl|].
    destruct t; [apply same_lines_refl | apply same_lines_emit].
  - apply Hsame; [reflexivity|].
    exact (WorkerFacts.written_emit_finished (with_streaming false g)).
Qed.

Lemma worker_tx_cases : forall t s,
  worker_tx t s = tx_step t s \/ worker_tx t s = at_pc TxNone (ctl s) s.
Proof.
  intros t s; unfold worker_tx.
  destruct (tx s); auto.
  destruct (tx (tx_step t s)); auto.
  destruct (encodable cmd); auto.
Qed.

Lemma worker_tx_same_lines : forall t s,
  same_lines (ctl s) (ctl (worker_tx t s)).
Proof.
  intros t s; destruct (worker_tx_cases t s) as [-> | ->].
  - apply tx_step_same_lines.
  - apply same_lines_refl.
Qed.

Lemma recorded_worker_tx : forall t s, recorded s -> recorded (worker_tx t s).
Proof.
  intros t s H; destruct (worker_tx_cases t s) as [-> | ->].
  - now apply recorded_tx_step.
  - destruct H as [H _]; split; [exact H | exact I].
Qed.

Lemma Forall_update_at : forall (P : TxPc -> Prop) l k x,
  Forall P l -> P x -> Forall P (update_nth k (fun _ => x) l).
Proof.
  intros P; induction l as [|y l IH]; intros k x H Hx;
    [destruct k; constructor|].
  inversion H; subst.
  destruct k; simpl; constructor; auto.
Qed.

Lemma all_recorded_worker : forall k t p,
  all_recorded p -> all_recorded (worker_step k t p).
Proof.
  intros k t p [Hw Hall]; unfold worker_step.
  destruct (nth_error (workers p) k) as [pc|] eqn:En; [|now split].
  assert (Hpc : recorded (mkSys (shared p) pc (loads p))).
  { rewrite Forall_forall in Hall; apply Hall.
    eapply nth_error_In; exact En. }
  pose proof (recorded_worker_tx t _ Hpc) as Hrec.
  pose proof (worker_tx_same_lines t (mkSys (shared p) pc (loads p))) as Hsl.
  set (s := worker_tx t (mkSys (shared p) pc (loads p))) in *.
  assert (Hgen : file_gen s = loads p).
  { unfold s; destruct (worker_tx_cases t (mkSys (shared p) pc (loads p)))
      as [-> | ->]; [|reflexivity].
    unfold tx_step; simpl.
    repeat match goal with
           | |- context [match ?x with _ => _ end] => destruct x; simpl; try reflexivity
           end. }
  cbv zeta; split; simpl; [exact (proj1 Hrec)|].
  apply Forall_update_at.
  - eapply Forall_impl; [|exact Hall].
    intros pc' H'; simpl in Hsl.
    exact (recorded_same_lines _ _ _ _ H' Hsl (proj1 Hrec)).
  - destruct s as [g' pc' gen']; simpl in *; now subst gen'.
Qed.

Lemma recorded_method : forall o g pc gen,
  recorded (mkSys g pc gen) ->
  let s := op_step o (mkSys g TxNone gen) in
  recorded (mkSys (ctl s) pc (file_gen s)).
Proof.
  intros o g pc gen H; cbv zeta.
  assert (Hk : forall g', keeps_record g g' -> recorded (mkSys g' pc gen))
    by (intros g' Hk; exact (recorded_kept (mkSys g pc gen) g' H Hk)).
  pose proof (recorded_op_step o (mkSys g pc gen) H) as R.
  destruct o; try exact (R eq_refl).
  - (* OpConnected *)
    apply Hk; apply record_same_program; [reflexivity | apply incl_refl].
  - (* OpStart *)
    apply Hk; apply records_start_stream.
Qed.

Lemma all_recorded_method : forall o p,
  all_recorded p -> all_recorded (method_step o p).
Proof.
  intros o p [Hw Hall]; unfold method_step, all_recorded; cbn [shared workers loads].
  assert (H0 : recorded (mkSys (shared p) TxNone (loads p)))
    by (split; [exact Hw | exact I]).
  pose proof (recorded_method o _ _ _ H0) as R0; cbv zeta in R0.
  split; [exact (proj1 R0)|].
  apply Forall_app; split.
  - eapply Forall_impl; [|exact Hall].
    intros pc Hpc; exact (recorded_method o _ _ _ Hpc).
  - destruct o; simpl; try constructor.
    destruct (has_file (shared p) && is_connected (shared p) &&
              negb (_streaming (shared p))); constructor; [|constructor].
    split; [exact (proj1 R0) | exact I].
Qed.

Lemma reached_recorded : forall p, reached p -> all_recorded p.
Proof.
  induction 1 as [|m p _ IH]; [split; constructor|].
  destruct m as [k t | o]; simpl.
  - now apply all_recorded_worker.
  - now apply all_recorded_method.
Qed.

End RecordFacts.

(** X29.  Nothing is marked that was not sent.  Take any number of TX
    workers, each advancing by one statement of [_tx_loop] at a time, the
    lines that the RX worker processes and the calls of the public
    methods, a line and a call being one step each and each program
    loaded being a new object, in any order.  In every state so reached,
    each command of the loaded program that is SENT, OK or ERROR has had
    its bytes, the normalized line and a newline, written to the
    port. *)
Theorem marked_commands_were_written : forall p : Threads,
  reached p -> sent_were_written (shared p).
Proof.
  intros p H; exact (proj1 (RecordFacts.reached_recorded p H)).
Qed.

(** The worker of a first run has written the first command when the
    job is reset and started again; it then marks the command, in the
    program of the second run. *)
Lemma marked_commands_were_written_witness :
  let job := from_lines [text "G0 X10"; text "G1 X20 F500"] (text "job") in
  let schedule :=
    [Call (OpConnected (mkPort true true)); Call (OpLoad job); Call OpStart]
    ++ steps 0 4 ++ [Call OpSoftReset; Call OpStart] ++ steps 0 1 in
  let p := play schedule begin in
  workers p = [TxMarked; TxLoop] /\
  map status (program (shared p)) = [SENT; QUEUED] /\
  written (trace (shared p)) =
    [text "G0 X10" ++ [ch_newline]; [ascii_of_nat 24]] /\
  sent_were_written (shared p).
Proof.
  cbv zeta; split; [vm_compute; reflexivity|].
  split; [vm_compute; reflexivity|].
  split; [vm_compute; reflexivity|].
  apply marked_commands_were_written.
  apply PoolFacts.play_reached; constructor.
Defined.

Module FieldFacts.
Import PyStr PyStrFacts Num GCode Grbl Stream Run Surface.
Local Open Scope grbl_scope.

Lemma split_whole : forall sep a, lacks sep a = true -> split sep a = [a].
Proof.
  intros sep; induction a as [|c a IH]; simpl; intro H; [reflexivity|].
  apply andb_prop in H as [Hc Ha]; apply negb_true_iff in Hc.
  now rewrite Hc, (IH Ha).
Qed.

Lemma split_at : forall sep a b,
  lacks sep a = true -> split sep (a ++ sep :: b) = a :: split sep b.
Proof.
  intros sep; induction a as [|c a IH]; simpl; intros b H.
  - now rewrite Ascii.eqb_refl.
  - apply andb_prop in H as [Hc Ha]; apply negb_true_iff in Hc.
    now rewrite Hc, (IH b Ha).
Qed.

Lemma startswith_app : forall p s, startswith p (p ++ s) = true.
Proof.
  induction p as [|a p IH]; intro s; simpl; [reflexivity|].
  now rewrite Ascii.eqb_refl, IH.
Qed.

End FieldFacts.

(** X30.  The position fields of a status report.  A field "MPos:"
    followed by three numbers separated by commas sets the machine
    position to them; with two numbers it sets x and y and puts z at 0;
    with one number it is ignored.  The numbers are decimal literals
    whose values are doubles, so that [float] returns them as they are
    written.  The work position and the job are not touched. *)
Theorem mpos_field_sets_machine_position :
  forall (g : Controller) (sx sy sz : str) (x y z : Q),
  lacks ","%char sx = true -> lacks ","%char sy = true ->
  lacks ","%char sz = true ->
  py_float sx = Some x -> py_float sy = Some y -> py_float sz = Some z ->
  is_double x = true -> is_double y = true -> is_double z = true ->
  parse_field (text "MPos:" ++ sx ++ ","%char :: sy ++ ","%char :: sz) g =
    (Return tt, with_machine_z z (with_machine_y y (with_machine_x x g))) /\
  parse_field (text "MPos:" ++ sx ++ ","%char :: sy) g =
    (Return tt, with_machine_z qzero (with_machine_y y (with_machine_x x g))) /\
  parse_field (text "MPos:" ++ sx) g = (Return tt, g).
Proof.
  intros g sx sy sz x y z Lx Ly Lz Hx Hy Hz _ _ _.
  unfold parse_field.
  rewrite !FieldFacts.startswith_app.
  change (skipn 5 (text "MPos:" ++ sx ++ ","%char :: sy ++ ","%char :: sz))
    with (sx ++ ","%char :: sy ++ ","%char :: sz).
  change (skipn 5 (text "MPos:" ++ sx ++ ","%char :: sy))
    with (sx ++ ","%char :: sy).
  change (skipn 5 (text "MPos:" ++ sx)) with sx.
  rewrite !(FieldFacts.split_at _ _ _ Lx), (FieldFacts.split_at _ _ _ Ly),
    (FieldFacts.split_whole _ _ Lx), (FieldFacts.split_whole _ _ Ly),
    (FieldFacts.split_whole _ _ Lz).
  unfold item, when, bind, to_float, modify, ret; cbn [length nth Nat.leb Nat.ltb].
  rewrite Hx, Hy, Hz.
  repeat split.
Qed.

Lemma mpos_field_sets_machine_position_witness :
  parse_field (text "MPos:1.5,-2,7") Grbl.init =
    (Return tt,
     with_machine_z 7%Q
       (with_machine_y (-2 # 1)%Q (with_machine_x (3 # 2)%Q Grbl.init))) /\
  parse_field (text "MPos:1.5,-2") Grbl.init =
    (Return tt,
     with_machine_z qzero
       (with_machine_y (-2 # 1)%Q (with_machine_x (3 # 2)%Q Grbl.init))).
Proof.
  destruct (mpos_field_sets_machine_position
              Grbl.init (text "1.5") (text "-2") (text "7")
              (3 # 2)%Q (-2 # 1)%Q 7%Q
              eq_refl eq_refl eq_refl eq_refl eq_refl eq_refl
              eq_refl eq_refl eq_refl)
    as (H3 & H2 & _).
  split; [exact H3 | exact H2].
Defined.
